(** * Argas: the checkout payer, its card material and its URL parser

    A shallow embedding of the JavaScript sources

    - [gateways/stripe/checkout-based/payer.js]
      ([validateLuhn], [generateCardFromBin], [parseCardString],
      [attemptPayment]),
    - [checkout-info.js] ([parseCheckoutUrl], [XOR_KEY]),
    - [response-handler.js] ([DeclineReasons], [getDeclineReason]),
    - [enhanced-response-handler.js] ([DECLINE_CODES],
      [createDetailedResponse] and the detectors it calls),

    followed by the properties proved about them.

    Conventions of the embedding.

    - A JavaScript string is the list of its UTF-16 code units ([list N]);
      [js] turns a literal into such a list.
    - A JavaScript number that the code only uses as an integer is a [Z];
      [option Z] is used where [NaN] can arise ([None] is [NaN]).  The model
      is exact below 2^53, which covers every amount, year and digit here.
    - A thrown exception is the [Throw] case of [Exc]; [try_catch] is the
      source's [try { } catch (err) { }].
    - JSON values are [JsVal]; an object is a finite map from property names
      to values.
    - Network calls and [Math.random] are answered by an explicit
      environment, and the calls performed are recorded in a log. *)

From Stdlib Require Import ZArith NArith List String Ascii Bool Lia.
From stdpp Require Import base strings list gmap.
Import ListNotations.

#[local] Set Warnings "-register-all".
#[local] Open Scope Z_scope.

(* ================================================================== *)
(** * Part I: definitions *)
(* ================================================================== *)

(** ** Exceptions *)

Inductive exn := Err (message : list N).

Inductive Exc (A : Type) :=
| Ok (a : A)
| Throw (e : exn).
Arguments Ok {A} a.
Arguments Throw {A} e.

Definition bindE {A B} (m : Exc A) (k : A -> Exc B) : Exc B :=
  match m with
  | Ok a => k a
  | Throw e => Throw e
  end.

(** [try { body } catch (err) { handler }] *)
Definition try_catch {A} (body : Exc A) (handler : exn -> Exc A) : Exc A :=
  match body with
  | Ok a => Ok a
  | Throw e => handler e
  end.

Notation "'doE' x <- m ; k" := (bindE m (fun x => k))
  (at level 10, x name, m at level 100, k at level 200).

(** ** JavaScript strings and numbers *)

Module JsString.

Abbreviation jsstr := (list N).

Definition js (s : string) : jsstr := map N_of_ascii (list_ascii_of_string s).

Definition is_digit (c : N) : bool := ((48 <=? c) && (c <=? 57))%N.
Definition is_upper (c : N) : bool := ((65 <=? c) && (c <=? 90))%N.
Definition is_lower (c : N) : bool := ((97 <=? c) && (c <=? 122))%N.

(** The class [[A-Za-z0-9]]. *)
Definition is_alnum (c : N) : bool := is_upper c || is_lower c || is_digit c.

(** White space and line terminators: what [String.prototype.trim] strips,
    what [\s] matches and what [parseInt] skips. *)
Definition is_space (c : N) : bool :=
  (((9 <=? c) && (c <=? 13)) || (c =? 32) || (c =? 160) || (c =? 5760)
   || ((8192 <=? c) && (c <=? 8202)) || (c =? 8232) || (c =? 8233)
   || (c =? 8239) || (c =? 8287) || (c =? 12288) || (c =? 65279))%N.

Fixpoint trimStart (s : jsstr) : jsstr :=
  match s with
  | c :: r => if is_space c then trimStart r else s
  | [] => []
  end.

Definition trim (s : jsstr) : jsstr := rev (trimStart (rev (trimStart s))).

(** [s.split(sep)] for a one-character separator: never empty, one more
    field than there are separators. *)
Fixpoint split (sep : N) (s : jsstr) : list jsstr :=
  match s with
  | [] => [[]]
  | c :: r =>
      if (c =? sep)%N then [] :: split sep r
      else match split sep r with
           | h :: t => (c :: h) :: t
           | [] => [[c]]
           end
  end.

Fixpoint startsWith (s p : jsstr) : bool :=
  match p, s with
  | [], _ => true
  | a :: p', b :: s' => (a =? b)%N && startsWith s' p'
  | _ :: _, [] => false
  end.

(** [s.slice(1)] *)
Definition slice1 (s : jsstr) : jsstr := List.tl s.

(** [s.slice(-k)]: the last [k] code units, the whole string when shorter. *)
Definition sliceLast (k : nat) (s : jsstr) : jsstr :=
  List.skipn (List.length s - k) s.

(** [s.padStart(n, '0')] *)
Definition padStart0 (n : nat) (s : jsstr) : jsstr :=
  List.repeat 48%N (n - List.length s) ++ s.

(** [s.replace(/\D/g, '')] *)
Definition stripNonDigits (s : jsstr) : jsstr := List.filter is_digit s.

(** [s.replace(/\s/g, '')] *)
Definition stripSpaces (s : jsstr) : jsstr :=
  List.filter (fun c => negb (is_space c)) s.

(** Decimal digits of a natural number, most significant first. *)
Fixpoint digitsFuel (fuel : nat) (n : N) (acc : jsstr) : jsstr :=
  match fuel with
  | O => acc
  | S f =>
      let acc' := (48 + n mod 10)%N :: acc in
      if (n <? 10)%N then acc' else digitsFuel f (n / 10)%N acc'
  end.

Definition natToString (n : N) : jsstr :=
  digitsFuel (S (N.to_nat (N.log2 n))) n [].

(** [String(z)] for an integer. *)
Definition intToString (z : Z) : jsstr :=
  if z <? 0 then 45%N :: natToString (Z.to_N (- z)) else natToString (Z.to_N z).

(** [String(x)] where [x] may be [NaN]. *)
Definition numToString (x : option Z) : jsstr :=
  match x with
  | Some z => intToString z
  | None => js "NaN"
  end.

Definition hexValue (c : N) : option Z :=
  if is_digit c then Some (Z.of_N c - 48)
  else if ((97 <=? c) && (c <=? 102))%N then Some (Z.of_N c - 87)
  else if ((65 <=? c) && (c <=? 70))%N then Some (Z.of_N c - 55)
  else None.

Definition decValue (c : N) : option Z :=
  if is_digit c then Some (Z.of_N c - 48) else None.

(** The longest prefix of digits in the given radix, read as a number;
    [None] when there is no digit at all. *)
Fixpoint readDigits (value : N -> option Z) (radix : Z) (s : jsstr)
    (acc : option Z) : option Z :=
  match s with
  | c :: r =>
      match value c with
      | Some d => readDigits value radix r (Some (radix * default 0 acc + d))
      | None => acc
      end
  | [] => acc
  end.

(** [parseInt(s)] with no radix argument: leading white space, an optional
    sign, an optional [0x] prefix, then digits; [None] is [NaN]. *)
Definition parseInt (s : jsstr) : option Z :=
  let s := trimStart s in
  let '(sign, s) :=
    match s with
    | 45%N :: r => (-1, r)
    | 43%N :: r => (1, r)
    | _ => (1, s)
    end in
  let magnitude :=
    match s with
    | 48%N :: 120%N :: r => readDigits hexValue 16 r None
    | 48%N :: 88%N :: r => readDigits hexValue 16 r None
    | _ => readDigits decValue 10 s None
    end in
  option_map (Z.mul sign) magnitude.

End JsString.
Export JsString.

(** Arithmetic on numbers that may be [NaN]. *)
Definition num := option Z.

Definition numMap2 (f : Z -> Z -> Z) (a b : num) : num :=
  match a, b with
  | Some x, Some y => Some (f x y)
  | _, _ => None
  end.

(** Comparisons are false as soon as one side is [NaN]. *)
Definition numTest2 (f : Z -> Z -> bool) (a b : num) : bool :=
  match a, b with
  | Some x, Some y => f x y
  | _, _ => false
  end.

(** ** Card material: [payer.js], lines 26-156 *)

Module CardMaterial.

Record Card := mkCard {
  cardNumber : jsstr;
  expMonth : jsstr;
  expYear : jsstr;
  cvc : jsstr
}.

(** One round of the digit loop shared by [validateLuhn] and the check-digit
    computation:
    [let digit = parseInt(cardNumber[i]);
     if (shouldDouble) { digit *= 2; if (digit > 9) digit -= 9; }] *)
Definition luhnDigit (c : N) (shouldDouble : bool) : num :=
  let digit := parseInt [c] in
  if shouldDouble then
    let digit := numMap2 Z.mul digit (Some 2) in
    if numTest2 Z.gtb digit (Some 9) then numMap2 Z.sub digit (Some 9) else digit
  else digit.

(** [for (let i = cardNumber.length - 1; i >= 0; i--)]: the loop walks the
    reversed string; [sum] and [shouldDouble] are the loop variables. *)
Fixpoint luhnLoop (reversed : jsstr) (sum : num) (shouldDouble : bool) : num :=
  match reversed with
  | [] => sum
  | c :: rest =>
      luhnLoop rest (numMap2 Z.add sum (luhnDigit c shouldDouble))
        (negb shouldDouble)
  end.

(** [validateLuhn(cardNumber)]: [sum % 10 === 0]. *)
Definition validateLuhn (cardNumber : jsstr) : bool :=
  numTest2 Z.eqb
    (numMap2 Z.rem (luhnLoop (rev cardNumber) (Some 0) false) (Some 10))
    (Some 0).

(** The random source: [rnd i] stands for the [i]-th call of [Math.random];
    [Math.floor(Math.random() * k)] is an integer of [0, k), here the draw
    reduced modulo [k]. *)
Definition randomBelow (rnd : nat -> Z) (i : nat) (k : Z) : Z := rnd i mod k.

(** [while (cardNumber.length < targetLength - 1)
       cardNumber += Math.floor(Math.random() * 10);]
    Returns the string and the number of draws used so far. *)
Fixpoint fillDigits (rnd : nat -> Z) (fuel : nat) (targetLength : nat)
    (cardNumber : jsstr) (i : nat) : jsstr * nat :=
  match fuel with
  | O => (cardNumber, i)
  | S fuel' =>
      if (List.length cardNumber <? targetLength - 1)%nat
      then fillDigits rnd fuel' targetLength
             (cardNumber ++ intToString (randomBelow rnd i 10)) (S i)
      else (cardNumber, i)
  end.

Definition targetLengthOf (bin : jsstr) : nat :=
  if startsWith bin (js "34") || startsWith bin (js "37") then 15%nat
  else if startsWith bin (js "36") || startsWith bin (js "38") then 14%nat
  else 16%nat.

(** [Math.floor(Math.random() * 12) + 1] *)
Definition drawMonth (rnd : nat -> Z) (i : nat) : Z := randomBelow rnd i 12 + 1.

(** [currentYear + Math.floor(Math.random() * 5) + 1] *)
Definition drawYear (rnd : nat -> Z) (i : nat) (currentYear : Z) : Z :=
  currentYear + randomBelow rnd i 5 + 1.

(** The messages of the two internal validation failures. *)
Definition luhnFailure : exn := Err (js "Generated card failed Luhn validation").
Definition pastFailure : exn := Err (js "Generated expiration date is in the past").

Definition cvcMismatchMessage (expected got : nat) : jsstr :=
  js "CVC length mismatch: expected " ++ intToString (Z.of_nat expected)
  ++ js ", got " ++ intToString (Z.of_nat got).

(** [generateCardFromBin(bin)], for a string argument.  [currentYear] and
    [currentMonth] are [new Date().getFullYear()] and
    [new Date().getMonth() + 1]. *)
Definition generateCardFromBin (rnd : nat -> Z) (currentYear currentMonth : Z)
    (bin : jsstr) : Exc Card :=
  if (List.length bin =? 0)%nat then Throw (Err (js "Invalid BIN provided")) else
  let bin := stripNonDigits bin in
  if (List.length bin <? 6)%nat
  then Throw (Err (js "BIN must be at least 6 digits")) else
  let targetLength := targetLengthOf bin in
  let '(cardNumber, i) := fillDigits rnd targetLength targetLength bin 0 in
  let sum := luhnLoop (rev cardNumber) (Some 0) true in
  let checkDigit :=
    numMap2 Z.rem (numMap2 Z.sub (Some 10) (numMap2 Z.rem sum (Some 10)))
      (Some 10) in
  let cardNumber := cardNumber ++ numToString checkDigit in
  if negb (validateLuhn cardNumber)
  then Throw luhnFailure else
  let expMonth := padStart0 2 (intToString (drawMonth rnd i)) in
  let expYear := drawYear rnd (i + 1) currentYear in
  let expYear :=
    if (expYear =? currentYear)
       && numTest2 Z.leb (parseInt expMonth) (Some currentMonth)
    then expYear + 1 else expYear in
  let expYear := sliceLast 2 (intToString expYear) in
  let expYearFull := parseInt (js "20" ++ expYear) in
  if numTest2 Z.ltb expYearFull (Some currentYear)
     || (numTest2 Z.eqb expYearFull (Some currentYear)
         && numTest2 Z.ltb (parseInt expMonth) (Some currentMonth))
  then Throw pastFailure else
  let cvc :=
    if (targetLength =? 15)%nat
    then intToString (randomBelow rnd (i + 2) 9000 + 1000)
    else intToString (randomBelow rnd (i + 2) 900 + 100) in
  let expectedCvcLength := if (targetLength =? 15)%nat then 4%nat else 3%nat in
  if negb (List.length cvc =? expectedCvcLength)%nat
  then Throw (Err (cvcMismatchMessage expectedCvcLength (List.length cvc))) else
  Ok (mkCard cardNumber expMonth expYear cvc).

(** [if (expMonth.startsWith('0')) expMonth = expMonth.slice(1);
     expMonth = String(parseInt(expMonth)).padStart(2, '0');] *)
Definition normalizeMonth (expMonth : jsstr) : jsstr :=
  let expMonth := if startsWith expMonth (js "0") then slice1 expMonth else expMonth in
  padStart0 2 (numToString (parseInt expMonth)).

(** [if (expYear.length === 2) expYear = '20' + expYear;
     expYear = expYear.slice(-2);] *)
Definition normalizeYear (expYear : jsstr) : jsstr :=
  let expYear := if (List.length expYear =? 2)%nat then js "20" ++ expYear else expYear in
  sliceLast 2 expYear.

Definition cardFormatError : exn := Err (js "Card format must be: number|month|year|cvv").

(** [parseCardString(cardString)] *)
Definition parseCardString (cardString : jsstr) : Exc Card :=
  let parts := map trim (split 124 cardString) in
  if (List.length parts <? 4)%nat then Throw cardFormatError else
  let cardNumber := nth 0 parts [] in
  let expMonth := nth 1 parts [] in
  let expYear := nth 2 parts [] in
  let cvc := nth 3 parts [] in
  let cardNumber := stripSpaces cardNumber in
  let expMonth := normalizeMonth expMonth in
  let expYear := normalizeYear expYear in
  Ok (mkCard cardNumber expMonth expYear cvc).

End CardMaterial.
Export CardMaterial.

(** ** The checkout URL parser: [checkout-info.js], lines 395-456 *)

Module CheckoutUrl.

(** *** [decodeURIComponent] *)

(** The two hexadecimal digits after a [%]. *)
Definition escapeByte (h1 h2 : N) : option N :=
  match hexValue h1, hexValue h2 with
  | Some a, Some b => Some (Z.to_N (16 * a + b))
  | _, _ => None
  end.

(** Reads [count] further escapes [%XX], each a UTF-8 continuation byte
    (10xxxxxx), folding their payload bits into [acc]. *)
Fixpoint continuation (count : nat) (acc : N) (s : jsstr) : option (N * jsstr) :=
  match count with
  | O => Some (acc, s)
  | S count' =>
      match s with
      | p :: h1 :: h2 :: rest =>
          if (p =? 37)%N then
            match escapeByte h1 h2 with
            | Some b =>
                if ((128 <=? b) && (b <? 192))%N
                then continuation count' (acc * 64 + (b - 128))%N rest
                else None
            | None => None
            end
          else None
      | _ => None
      end
  end.

(** Length of the UTF-8 sequence a lead byte announces, the payload bits of
    the lead byte and the least code point that needs this length. *)
Definition leadByte (b : N) : option (nat * N * N) :=
  if (b <? 128)%N then Some (0%nat, b, 0%N)
  else if (b <? 192)%N then None
  else if (b <? 224)%N then Some (1%nat, (b - 192)%N, 128%N)
  else if (b <? 240)%N then Some (2%nat, (b - 224)%N, 2048%N)
  else if (b <? 248)%N then Some (3%nat, (b - 240)%N, 65536%N)
  else None.

Definition isSurrogate (v : N) : bool := ((55296 <=? v) && (v <=? 57343))%N.

(** UTF-16 code units of a code point. *)
Definition utf16 (v : N) : jsstr :=
  if (v <? 65536)%N then [v]
  else [(55296 + (v - 65536) / 1024)%N; (56320 + (v - 65536) mod 1024)%N].

Definition uriError : exn := Err (js "URI malformed").

(** One escape sequence, the [%] already read: a lead byte, its
    continuation bytes, and the check that they are the UTF-8 encoding of a
    code point (shortest form, no surrogate, at most U+10FFFF).  Returns
    the code units it stands for and the rest of the string. *)
Definition decodeEscape (afterPercent : jsstr) : Exc (jsstr * jsstr) :=
  match afterPercent with
  | h1 :: h2 :: rest =>
      match escapeByte h1 h2 with
      | Some b =>
          match leadByte b with
          | Some (more, bits, least) =>
              match continuation more bits rest with
              | Some (v, rest') =>
                  if ((least <=? v) && (v <=? 1114111))%N && negb (isSurrogate v)
                  then Ok (utf16 v, rest')
                  else Throw uriError
              | None => Throw uriError
              end
          | None => Throw uriError
          end
      | None => Throw uriError
      end
  | _ => Throw uriError
  end.

(** [decodeURIComponent(s)]: every run of escapes must be the UTF-8
    encoding of code points, otherwise a [URIError] is thrown.  Each round
    consumes at least one code unit, so [length s] rounds are enough. *)
Fixpoint decodeRounds (fuel : nat) (s : jsstr) : Exc jsstr :=
  match fuel with
  | O => Ok []
  | S fuel' =>
      match s with
      | [] => Ok []
      | c :: rest =>
          if (c =? 37)%N then
            doE decoded <- decodeEscape rest;
            doE tail <- decodeRounds fuel' (snd decoded);
            Ok (fst decoded ++ tail)
          else
            doE tail <- decodeRounds fuel' rest;
            Ok (c :: tail)
      end
  end.

Definition decodeURIComponent (s : jsstr) : Exc jsstr :=
  decodeRounds (List.length s) s.

(** *** [Buffer.from(text, 'base64')] *)

(** Value of a character of the base64 alphabets (the standard one and the
    URL-safe one, both accepted by Node). *)
Definition unbase64 (c : N) : option N :=
  if is_upper c then Some (c - 65)%N
  else if is_lower c then Some (c - 71)%N
  else if is_digit c then Some (c + 4)%N
  else if ((c =? 43) || (c =? 45))%N then Some 62%N
  else if ((c =? 47) || (c =? 95))%N then Some 63%N
  else None.

(** Node's decoder never fails: it reads each code unit through its low
    byte, skips what is not in the alphabet and stops at the first [=]. *)
Fixpoint sextets (text : jsstr) : list N :=
  match text with
  | [] => []
  | c :: rest =>
      let c := (c mod 256)%N in
      match unbase64 c with
      | Some v => v :: sextets rest
      | None => if (c =? 61)%N then [] else sextets rest
      end
  end.

(** Four sextets give three bytes; a final group of three gives two bytes,
    of two gives one, and a single left-over sextet gives none. *)
Fixpoint bytesOfSextets (l : list N) : list N :=
  match l with
  | a :: b :: c :: d :: rest =>
      (a * 4 + b / 16)%N :: ((b mod 16) * 16 + c / 4)%N
      :: ((c mod 4) * 64 + d)%N :: bytesOfSextets rest
  | [a; b; c] => [(a * 4 + b / 16)%N; ((b mod 16) * 16 + c / 4)%N]
  | [a; b] => [(a * 4 + b / 16)%N]
  | _ => []
  end.

Definition bufferFromBase64 (text : jsstr) : list N :=
  bytesOfSextets (sextets text).

(** *** The fragment payload *)

Definition XOR_KEY : N := 5.

(** [for (const byte of base64Buffer.values())
       xorChars.push(String.fromCharCode(byte ^ XOR_KEY));
     xorChars.join('')] *)
Definition xorChars (buffer : list N) : jsstr :=
  map (fun byte => N.lxor byte XOR_KEY) buffer.

(** *** The regular expressions *)

Fixpoint takeWhile (p : N -> bool) (s : jsstr) : jsstr :=
  match s with
  | c :: r => if p c then c :: takeWhile p r else []
  | [] => []
  end.

(** A fixed literal followed by one or more characters of a class, greedy,
    anchored at the start of [s]. *)
Definition literalThenClass (literal : jsstr) (class : N -> bool) (s : jsstr)
    : option jsstr :=
  if startsWith s literal then
    match takeWhile class (List.skipn (List.length literal) s) with
    | [] => None
    | body => Some (literal ++ body)
    end
  else None.

Definition orElse {A} (a b : option A) : option A :=
  match a with
  | Some x => Some x
  | None => b
  end.

(** [s.match(re)] for a regular expression without the [g] flag: the match
    at the leftmost position that has one. *)
Fixpoint firstMatch (anchored : jsstr -> option jsstr) (s : jsstr) : option jsstr :=
  match anchored s with
  | Some m => Some m
  | None =>
      match s with
      | [] => None
      | _ :: rest => firstMatch anchored rest
      end
  end.

(** [/cs_(?:live|test)_[A-Za-z0-9]+/] anchored at the start. *)
Definition sessionAt (s : jsstr) : option jsstr :=
  orElse (literalThenClass (js "cs_live_") is_alnum s)
         (literalThenClass (js "cs_test_") is_alnum s).

(** [/pk_(?:live|test)_[A-Za-z0-9]+/] anchored at the start. *)
Definition publicKeyAt (s : jsstr) : option jsstr :=
  orElse (literalThenClass (js "pk_live_") is_alnum s)
         (literalThenClass (js "pk_test_") is_alnum s).

(** The negated class of the site expression: anything but white space,
    the double quote (34) and the apostrophe (39). *)
Definition is_site_char (c : N) : bool :=
  negb (is_space c || (c =? 34)%N || (c =? 39)%N).

(** The site expression, [http], an optional [s], [://] and one or more
    characters of the class above, anchored at the start. *)
Definition siteAt (s : jsstr) : option jsstr :=
  orElse (literalThenClass (js "https://") is_site_char s)
         (literalThenClass (js "http://") is_site_char s).

Definition matchSession : jsstr -> option jsstr := firstMatch sessionAt.
Definition matchPublicKey : jsstr -> option jsstr := firstMatch publicKeyAt.
Definition matchSite : jsstr -> option jsstr := firstMatch siteAt.

(** [s.indexOf(c)]; [None] is [-1]. *)
Fixpoint indexOf (c : N) (s : jsstr) : option nat :=
  match s with
  | [] => None
  | x :: rest => if (x =? c)%N then Some O else option_map S (indexOf c rest)
  end.

(** *** [parseCheckoutUrl] *)

(** The returned object [{ sessionId, publicKey, site }]; [None] is [null]. *)
Record ParsedUrl := mkParsedUrl {
  sessionId : option jsstr;
  publicKey : option jsstr;
  site : option jsstr
}.

(** The body of the inner [try]: decode the fragment, undo the XOR, and look
    for the key and the site. *)
Definition decodeFragment (fragment : jsstr) : Exc (option jsstr * option jsstr) :=
  doE decodedFragment <- decodeURIComponent fragment;
  let base64Buffer := bufferFromBase64 decodedFragment in
  let decodedPayload := xorChars base64Buffer in
  Ok (matchPublicKey decodedPayload, matchSite decodedPayload).

(** [parseCheckoutUrl(checkoutUrl)] for a string argument. *)
Definition parseCheckoutUrl (checkoutUrl : jsstr) : Exc ParsedUrl :=
  if (List.length checkoutUrl =? 0)%nat then Ok (mkParsedUrl None None None) else
  doE checkoutUrl <-
    try_catch (decodeURIComponent checkoutUrl) (fun _ => Ok checkoutUrl);
  let sessionId := matchSession checkoutUrl in
  doE keyAndSite <-
    match indexOf 35 checkoutUrl with
    | Some fragmentIndex =>
        let fragment := List.skipn (fragmentIndex + 1) checkoutUrl in
        try_catch (decodeFragment fragment) (fun _ => Ok (None, None))
    | None => Ok (None, None)
    end;
  Ok (mkParsedUrl sessionId (fst keyAndSite) (snd keyAndSite)).

(** *** Building a checkout URL (the inverse of the fragment decoding) *)

(** The standard base64 alphabet. *)
Definition base64Char (v : N) : N :=
  if (v <? 26)%N then (v + 65)%N
  else if (v <? 52)%N then (v + 71)%N
  else if (v <? 62)%N then (v - 4)%N
  else if (v =? 62)%N then 43%N
  else 47%N.

(** RFC 4648 base64 with [=] padding. *)
Fixpoint base64Encode (bytes : list N) : jsstr :=
  match bytes with
  | a :: b :: c :: rest =>
      base64Char (a / 4) :: base64Char ((a mod 4) * 16 + b / 16)
      :: base64Char ((b mod 16) * 4 + c / 64) :: base64Char (c mod 64)
      :: base64Encode rest
  | [a; b] =>
      [base64Char (a / 4); base64Char ((a mod 4) * 16 + b / 16);
       base64Char ((b mod 16) * 4); 61%N]
  | [a] => [base64Char (a / 4); base64Char ((a mod 4) * 16); 61%N; 61%N]
  | [] => []
  end.

(** [base + '#' + base64(payload XOR key)] *)
Definition buildCheckoutUrl (base payload : jsstr) : jsstr :=
  base ++ 35%N :: base64Encode (map (fun byte => N.lxor byte XOR_KEY) payload).

End CheckoutUrl.
Export CheckoutUrl.

(** ** JSON values *)

Module Json.

(** A value as [JSON.parse] builds it, with [undefined] for what a read of
    a missing property gives.  Numbers are integers: the numbers read here
    are amounts in minor units and counters. *)
Inductive JsVal :=
| VUndef
| VNull
| VBool (b : bool)
| VNum (z : Z)
| VStr (s : jsstr)
| VArr (items : list JsVal)
| VObj (fields : gmap jsstr JsVal).

Definition typeError : exn :=
  Err (js "Cannot read properties of undefined or null").

(** Property read [v.k] for the property names the payer reads, none of
    which is inherited: a [TypeError] on [undefined] and [null], the field
    of an object, [undefined] otherwise. *)
Definition getE (v : JsVal) (k : jsstr) : Exc JsVal :=
  match v with
  | VUndef | VNull => Throw typeError
  | VObj fields => Ok (default VUndef (fields !! k))
  | _ => Ok VUndef
  end.

Definition truthy (v : JsVal) : bool :=
  match v with
  | VUndef | VNull => false
  | VBool b => b
  | VNum z => negb (z =? 0)
  | VStr s => negb (List.length s =? 0)%nat
  | VArr _ | VObj _ => true
  end.

(** [v === 'literal'] *)
Definition isStr (v : JsVal) (literal : jsstr) : bool :=
  match v with
  | VStr s => bool_decide (s = literal)
  | _ => false
  end.

(** [a || b] when evaluating [b] has no effect. *)
Definition orV (a b : JsVal) : JsVal := if truthy a then a else b.

(** [Object.assign(target, source)]: the source's own properties overwrite
    the target's, the other properties of the target stay.  A source that
    is not an object contributes none of the property names read here. *)
Definition objectAssign (target source : JsVal) : JsVal :=
  match target, source with
  | VObj t, VObj s => VObj (s ∪ t)
  | _, _ => target
  end.

(** An object literal. *)
Definition obj (fields : list (jsstr * JsVal)) : JsVal := VObj (list_to_map fields).

End Json.
Export Json.

(** ** Decline reasons: [response-handler.js] and
       [enhanced-response-handler.js] *)

Module ResponseHandler.

(** [const DeclineReasons = { ... }] of [response-handler.js]. *)
Definition declineReasonEntries : list (jsstr * jsstr) :=
  [ (js "card_declined", js "Card was declined by the issuer");
    (js "expired_card", js "Card has expired");
    (js "incorrect_cvc", js "Incorrect CVC provided");
    (js "processing_error", js "Processing error occurred");
    (js "rate_limit", js "Rate limit exceeded");
    (js "lost_card", js "Card reported as lost");
    (js "stolen_card", js "Card reported as stolen");
    (js "insufficient_funds", js "Insufficient funds");
    (js "do_not_honor", js "Card issuer declined the transaction");
    (js "generic_decline", js "Card declined for unknown reason");
    (js "checkout_amount_mismatch", js "Amount mismatch with checkout session");
    (js "invalid_account", js "Invalid account");
    (js "invalid_amount", js "Invalid amount");
    (js "invalid_currency", js "Invalid currency") ].

Definition DeclineReasons : gmap jsstr jsstr := list_to_map declineReasonEntries.

(** [const DECLINE_CODES = { ... }] of [enhanced-response-handler.js]. *)
Definition declineCodeEntries : list (jsstr * jsstr) :=
  [ (js "card_declined", js "Card was declined by the issuer");
    (js "insufficient_funds", js "Insufficient funds on the card");
    (js "lost_card", js "The card has been reported as lost");
    (js "stolen_card", js "The card has been reported as stolen");
    (js "expired_card", js "The card has expired");
    (js "incorrect_cvc", js "The CVC code is incorrect");
    (js "processing_error", js "An error occurred while processing the card");
    (js "rate_limit", js "Too many attempts, please try again later");
    (js "authentication_required", js "Authentication is required for this card");
    (js "card_velocity_exceeded", js "Card has exceeded velocity limits");
    (js "duplicate_transaction", js "This appears to be a duplicate transaction");
    (js "fraudulent", js "The card has been flagged as fraudulent");
    (js "generic_decline", js "The card was declined for an unspecified reason");
    (js "not_permitted", js "The card is not permitted for this transaction");
    (js "pickup_card", js "The card must be picked up");
    (js "restricted_card", js "The card is restricted");
    (js "revocation_of_all_authorizations", js "All authorizations have been revoked");
    (js "revocation_of_authorization", js "Authorization has been revoked");
    (js "security_violation", js "Security violation detected");
    (js "service_not_allowed", js "Service not allowed on this card");
    (js "transaction_not_allowed", js "Transaction not allowed on this card");
    (js "try_again_later", js "Please try again later");
    (js "withdrawal_count_limit_exceeded", js "Withdrawal limit exceeded") ].

Definition DECLINE_CODES : gmap jsstr jsstr := list_to_map declineCodeEntries.

(** What an object literal inherits from [Object.prototype]: a read of one
    of these names on the table finds a function (or, for [__proto__], the
    prototype itself), never [undefined]. *)
Definition objectPrototypeMembers : list jsstr :=
  [ js "constructor"; js "hasOwnProperty"; js "isPrototypeOf";
    js "propertyIsEnumerable"; js "toLocaleString"; js "toString";
    js "valueOf"; js "__proto__"; js "__defineGetter__";
    js "__defineSetter__"; js "__lookupGetter__"; js "__lookupSetter__" ].

(** The value of [table[key]]. *)
Inductive Looked :=
| Text (s : jsstr)
| Inherited (name : jsstr)
| Undefined.

Definition lookupTable (table : gmap jsstr jsstr) (key : jsstr) : Looked :=
  match table !! key with
  | Some s => Text s
  | None =>
      if bool_decide (key ∈ objectPrototypeMembers) then Inherited key
      else Undefined
  end.

Definition unknownDeclineReason : jsstr := js "Unknown decline reason".

(** [getDeclineReason(errorCode)], for a string argument:
    [DeclineReasons[errorCode] || 'Unknown decline reason']. *)
Definition getDeclineReason (errorCode : jsstr) : Looked :=
  match lookupTable DeclineReasons errorCode with
  | Text s => if (List.length s =? 0)%nat then Text unknownDeclineReason else Text s
  | Inherited name => Inherited name
  | Undefined => Text unknownDeclineReason
  end.

(** [createDetailedResponse(result)] of [enhanced-response-handler.js], the
    one [payer.js] imports, on the only shape [attemptPayment] passes: the
    literal [{ success: false, attempts, error: lastError }].  That literal
    has no [status], [confirmation], [card] or [paymentMethod], so of the
    function's branches only [if (result.error)] can be taken.
    [timestamp] is [new Date().toISOString()]. *)
Definition createDetailedResponse (timestamp : jsstr) (attempts : Z)
    (error : JsVal) : JsVal :=
  let success := false in
  let response : gmap jsstr JsVal :=
    list_to_map
      [ (js "success", VBool (success || false));
        (js "status", VStr (if success then js "approved" else js "declined"));
        (js "attempts", if attempts =? 0 then VNum 1 else VNum attempts);
        (js "timestamp", VStr timestamp) ] in
  let response :=
    if truthy error then <[ js "error" := error ]> response else response in
  VObj response.

End ResponseHandler.
Export ResponseHandler.

(** ** The attempt engine: [payer.js], lines 158-434 *)

Module Payer.

(** A line item and the checkout information as [normalizeCheckoutResponse]
    builds them: every field is a number or [null] ([None]). *)
Record LineItem := mkLineItem {
  amount : option Z;
  unitAmount : option Z;
  quantity : option Z
}.

Record CheckoutInfo := mkCheckoutInfo {
  lineItems : list LineItem;
  total : option Z;
  customerEmail : option jsstr;
  initChecksum : option jsstr;
  configId : option jsstr
}.

(** [item.amount || (item.unitAmount * (item.quantity || 1))]; in a product
    [null] counts as 0.  The numbers are integers, and the product and the
    sum below are the exact ones: those of the code as long as they stay
    within the safe integers (see [exactLineItems]). *)
Definition itemAmount (item : LineItem) : Z :=
  let a := default 0 (amount item) in
  if negb (a =? 0) then a
  else
    let q := default 0 (quantity item) in
    default 0 (unitAmount item) * (if negb (q =? 0) then q else 1).

(** The expected amount, computed twice in the source (lines 278-288 and
    345-354) by the same expression. *)
Definition expectedAmountOf (info : CheckoutInfo) : Z :=
  if (0 <? List.length (lineItems info))%nat
  then fold_left (fun sum item => sum + itemAmount item) (lineItems info) 0
  else
    let t := default 0 (total info) in
    if negb (t =? 0) then t else 0.

(** What [makeStripeRequest] resolves to. *)
Record HttpResponse := mkHttpResponse {
  statusCode : Z;
  data : JsVal
}.

(** The [card] argument: an object, or a function called once per
    iteration. *)
Inductive CardArg :=
| Literal (card : JsVal)
| Factory (make : Z -> Exc JsVal).

Definition cardObject (c : Card) : JsVal :=
  obj [ (js "cardNumber", VStr (cardNumber c)); (js "expMonth", VStr (expMonth c));
        (js "expYear", VStr (expYear c)); (js "cvc", VStr (cvc c)) ].

(** The outside world.  Every call is answered by a value or an exception;
    the calls made within the loop are indexed by the value of [attempts]
    in the iteration that makes them. *)
Record World := mkWorld {
  initialInfo : Exc CheckoutInfo;
  createPaymentMethod : Z -> JsVal -> Exc HttpResponse;
  confirmPayment : Z -> Z -> Exc HttpResponse;
  refetchInfo : Z -> Exc CheckoutInfo;
  reconfirmPayment : Z -> Z -> Exc HttpResponse;
  timestamp : jsstr
}.

(** The calls performed, oldest first. *)
Inductive Event :=
| EvFetchInfo
| EvCard (attempt : Z)
| EvCreate (attempt : Z) (card : JsVal)
| EvConfirm (attempt : Z) (paymentMethodId : JsVal) (expectedAmount : Z)
| EvRefetchInfo (attempt : Z)
| EvReconfirm (attempt : Z) (paymentMethodId : JsVal) (expectedAmount : Z).

(** Computations that may throw and that extend the log of calls. *)
Definition M (A : Type) : Type := list Event -> Exc A * list Event.

Definition ret {A} (a : A) : M A := fun log => (Ok a, log).

Definition throw {A} (e : exn) : M A := fun log => (Throw e, log).

Definition bindM {A B} (m : M A) (k : A -> M B) : M B :=
  fun log =>
    match m log with
    | (Ok a, log') => k a log'
    | (Throw e, log') => (Throw e, log')
    end.

Definition liftE {A} (r : Exc A) : M A := fun log => (r, log).

(** An outbound call: logged, then answered. *)
Definition call {A} (ev : Event) (answer : Exc A) : M A :=
  fun log => (answer, log ++ [ev]).

(** [try { body } catch (err) { handler }]: the calls made before the
    exception stay made. *)
Definition tryM {A} (body : M A) (handler : exn -> M A) : M A :=
  fun log =>
    match body log with
    | (Ok a, log') => (Ok a, log')
    | (Throw e, log') => handler e log'
    end.

Notation "'doM' x <- m ; k" := (bindM m (fun x => k))
  (at level 10, x name, m at level 100, k at level 200).

(** How one iteration of the loop ends: a [return], or the next round with
    a new [lastError]. *)
Inductive Step :=
| Return (result : JsVal)
| Continue (lastError : JsVal).

Definition errorMessage (e : exn) : jsstr :=
  match e with Err message => message end.

Section Engine.

Variable w : World.
Variable card : CardArg.
Variable retries : Z.
Variable expectedAmount : Z.

(** Lines 373-420: the decision on the working response. *)
Definition decideOutcome (attempts : Z) (currentCard : JsVal) (pmResponse : HttpResponse)
    (confirmStatus : Z) (responseData : JsVal) : M Step :=
  doM status <- liftE (getE responseData (js "status"));
  let isComplete := isStr status (js "complete") in
  doM paymentIntent <- liftE (getE responseData (js "payment_intent"));
  doM requires3DS <-
    (if truthy paymentIntent then
       doM piStatus <- liftE (getE paymentIntent (js "status"));
       if isStr piStatus (js "requires_action")
       then liftE (getE paymentIntent (js "next_action"))
       else ret (VBool false)
     else ret paymentIntent);
  doM isDeclined <-
    (if truthy paymentIntent then
       doM piStatus <- liftE (getE paymentIntent (js "status"));
       ret (VBool (isStr piStatus (js "requires_payment_method")))
     else ret paymentIntent);
  doM error <- liftE (getE responseData (js "error"));
  doM hasError <-
    (if truthy error then ret error
     else if truthy paymentIntent
          then liftE (getE paymentIntent (js "last_payment_error"))
          else ret paymentIntent);
  if truthy isDeclined || truthy hasError then
    doM errorInfo <-
      (if truthy error then ret error
       else doM lastPaymentError <- liftE (getE paymentIntent (js "last_payment_error"));
            ret (orV lastPaymentError (obj [])));
    doM code <- liftE (getE errorInfo (js "code"));
    doM message <- liftE (getE errorInfo (js "message"));
    doM type <- liftE (getE errorInfo (js "type"));
    doM declineCode <- liftE (getE errorInfo (js "decline_code"));
    ret (Return (obj
      [ (js "success", VBool false);
        (js "attempts", VNum attempts);
        (js "card", currentCard);
        (js "status", VStr (js "declined"));
        (js "error", obj
           [ (js "code", orV code (VStr (js "card_declined")));
             (js "message", orV message (VStr (js "Card was declined")));
             (js "type", orV type (VStr (js "card_error")));
             (js "decline_code", orV declineCode (VStr (js "generic_decline"))) ]);
        (js "confirmation", responseData) ]))
  else if (confirmStatus =? 200) && (isComplete || truthy requires3DS) then
    doM paymentIntentOut <-
      (if truthy requires3DS then
         doM id <- liftE (getE paymentIntent (js "id"));
         doM piStatus <- liftE (getE paymentIntent (js "status"));
         doM piAmount <- liftE (getE paymentIntent (js "amount"));
         doM currency <- liftE (getE paymentIntent (js "currency"));
         ret (obj [ (js "id", id); (js "status", piStatus);
                    (js "amount", piAmount); (js "currency", currency) ])
       else ret VNull);
    ret (Return (obj
      [ (js "success", VBool true);
        (js "attempts", VNum attempts);
        (js "card", currentCard);
        (js "status", VStr (js "approved"));
        (js "paymentMethod", data pmResponse);
        (js "requires3DS", requires3DS);
        (js "paymentIntent", paymentIntentOut);
        (js "confirmation", responseData) ]))
  else
    doM error <- liftE (getE responseData (js "error"));
    ret (Continue (orV error responseData)).

(** Lines 339-371: the amount-mismatch recovery.  [responseData] and
    [confirmResponse.data] are one object, which [Object.assign] updates in
    place; the value returned here is that object after the update. *)
Definition recoverAmount (attempts : Z) (paymentMethodId responseData : JsVal)
    : M JsVal :=
  doM error <- liftE (getE responseData (js "error"));
  doM mismatch <-
    (if truthy error then
       doM code <- liftE (getE error (js "code"));
       ret (isStr code (js "checkout_amount_mismatch"))
     else ret false);
  if mismatch then
    doM updatedInfo <- call (EvRefetchInfo attempts) (refetchInfo w attempts);
    let recalculatedAmount := expectedAmountOf updatedInfo in
    if negb (recalculatedAmount =? expectedAmount) && (recalculatedAmount >? 0) then
      doM retryResponse <-
        call (EvReconfirm attempts paymentMethodId recalculatedAmount)
             (reconfirmPayment w attempts recalculatedAmount);
      ret (objectAssign responseData (data retryResponse))
    else ret responseData
  else ret responseData.

(** Lines 309-423: the [try] block of one iteration and its [catch]. *)
Definition iteration (attempts : Z) (currentCard : JsVal) : M Step :=
  tryM
    (doM pmResponse <-
       call (EvCreate attempts currentCard) (createPaymentMethod w attempts currentCard);
     doM createFailed <-
       (if negb (statusCode pmResponse =? 200) then ret true
        else doM id <- liftE (getE (data pmResponse) (js "id"));
             ret (negb (truthy id)));
     if createFailed then
       doM error <- liftE (getE (data pmResponse) (js "error"));
       ret (Continue
              (orV error (obj [ (js "message", VStr (js "Failed to create payment method")) ])))
     else
       doM paymentMethodId <- liftE (getE (data pmResponse) (js "id"));
       doM confirmResponse <-
         call (EvConfirm attempts paymentMethodId expectedAmount)
              (confirmPayment w attempts expectedAmount);
       doM responseData <- recoverAmount attempts paymentMethodId (data confirmResponse);
       decideOutcome attempts currentCard pmResponse (statusCode confirmResponse) responseData)
    (fun err => ret (Continue (obj [ (js "message", VStr (errorMessage err)) ]))).

(** [const currentCard = (typeof card === 'function') ? card() : card;],
    outside the [try]: an exception of the factory leaves [attemptPayment]. *)
Definition currentCardOf (attempts : Z) : M JsVal :=
  match card with
  | Literal c => ret c
  | Factory make => call (EvCard attempts) (make attempts)
  end.

(** [while (attempts <= retries) { attempts++; ... }] and what follows the
    loop.  [None] is returned only when [fuel] rounds did not suffice. *)
Fixpoint attemptLoop (fuel : nat) (attempts : Z) (lastError : JsVal)
    : M (option JsVal) :=
  if attempts <=? retries then
    match fuel with
    | O => ret None
    | S fuel' =>
        let attempts := attempts + 1 in
        doM currentCard <- currentCardOf attempts;
        doM step <- iteration attempts currentCard;
        match step with
        | Return result => ret (Some result)
        | Continue lastError' => attemptLoop fuel' attempts lastError'
        end
    end
  else ret (Some (createDetailedResponse (timestamp w) attempts lastError)).

End Engine.

(** [!parsed.sessionId], negated: neither [null] nor the empty string. *)
Definition present (field : option jsstr) : bool :=
  match field with
  | Some (_ :: _) => true
  | _ => false
  end.

(** [attemptPayment({ checkoutUrl, card, retries })] *)
Definition attemptPayment (w : World) (fuel : nat) (checkoutUrl : jsstr)
    (card : CardArg) (retries : Z) : M (option JsVal) :=
  doM parsed <- liftE (parseCheckoutUrl checkoutUrl);
  if negb (present (sessionId parsed)) || negb (present (publicKey parsed)) then
    throw (Err (js "Unable to extract session or public key from checkout URL"))
  else
    doM info <- call EvFetchInfo (initialInfo w);
    let expectedAmount := expectedAmountOf info in
    attemptLoop w card retries expectedAmount fuel 0 VNull.

(** Create calls and confirm calls of a log: one of each, at most, per
    create+confirm cycle. *)
Definition isCreate (ev : Event) : bool :=
  match ev with EvCreate _ _ => true | _ => false end.

Definition isConfirm (ev : Event) : bool :=
  match ev with EvConfirm _ _ _ => true | _ => false end.

Definition isReconfirm (ev : Event) : bool :=
  match ev with EvReconfirm _ _ _ => true | _ => false end.

Definition countIf (p : Event -> bool) (log : list Event) : Z :=
  Z.of_nat (List.length (List.filter p log)).

(** [success], [status] and [attempts] of what a run returned. *)
Definition summary (outcome : Exc (option JsVal)) : option (JsVal * JsVal * JsVal) :=
  match outcome with
  | Ok (Some r) =>
      match getE r (js "success"), getE r (js "status"), getE r (js "attempts") with
      | Ok a, Ok b, Ok c => Some (a, b, c)
      | _, _, _ => None
      end
  | _ => None
  end.

(** *** Vocabulary of the statements below *)

(** What a run does: started on any log, [m] appends some events [evs] to
    it and ends with an outcome [res], and [Q res evs] holds. *)
Definition Runs {A} (m : M A) (Q : Exc A -> list Event -> Prop) : Prop :=
  forall log, exists res evs, m log = (res, log ++ evs) /\ Q res evs.

(** At most [c] create calls, [f] confirm calls and [r] corrective
    re-confirm calls. *)
Definition atMost (c f r : Z) (evs : list Event) : Prop :=
  countIf isCreate evs <= c /\ countIf isConfirm evs <= f /\ countIf isReconfirm evs <= r.

Definition hasAttempts (lo hi : Z) (r : JsVal) : Prop :=
  exists a, getE r (js "attempts") = Ok (VNum a) /\ lo <= a <= hi.

(** The decision makes no call; a result it returns carries the number of
    the iteration. *)
Definition DecideQ (attempts : Z) : Exc Step -> list Event -> Prop :=
  fun res evs =>
    evs = []
    /\ forall r, res = Ok (Return r) -> getE r (js "attempts") = Ok (VNum attempts).

(** An iteration never throws and is one create+confirm cycle at most. *)
Definition IterationQ (attempts : Z) : Exc Step -> list Event -> Prop :=
  fun res evs =>
    (exists step, res = Ok step)
    /\ atMost 1 1 1 evs
    /\ forall r, res = Ok (Return r) -> getE r (js "attempts") = Ok (VNum attempts).

(** The loop entered with [attempts] has enough fuel, makes at most
    [retries + 1 - attempts] cycles and reports a count within bounds. *)
Definition LoopQ (retries attempts : Z) : Exc (option JsVal) -> list Event -> Prop :=
  fun res evs =>
    res <> Ok None
    /\ atMost (retries + 1 - attempts) (retries + 1 - attempts) (retries + 1 - attempts) evs
    /\ forall r, res = Ok (Some r) -> hasAttempts (Z.max 1 attempts) (retries + 1) r.

(** Property read on a value that is neither [undefined] nor [null]. *)
Definition prop (v : JsVal) (k : jsstr) : JsVal :=
  match v with
  | VObj fields => default VUndef (fields !! k)
  | _ => VUndef
  end.

(** [isDeclined || hasError] of lines 379-385, on the working response. *)
Definition looksDeclined (responseData : JsVal) : bool :=
  let pi := prop responseData (js "payment_intent") in
  (truthy pi && isStr (prop pi (js "status")) (js "requires_payment_method"))
  || truthy (prop responseData (js "error"))
  || (truthy pi && truthy (prop pi (js "last_payment_error"))).

(** [responseData.error && responseData.error.code ===
    'checkout_amount_mismatch'] of line 340, on an object. *)
Definition carriesMismatch (fields : gmap jsstr JsVal) : bool :=
  let error := prop (VObj fields) (js "error") in
  truthy error && isStr (prop error (js "code")) (js "checkout_amount_mismatch").

(** The calls of a recovery that re-fetches the session and then issues no
    corrective confirm. *)
Definition idleRecoveryEvents (fields : gmap jsstr JsVal) (attempts : Z) : list Event :=
  if carriesMismatch fields then [EvRefetchInfo attempts] else [].

(** The card of an iteration, and the call that produced it. *)
Definition cardYields (card : CardArg) (attempts : Z) (currentCard : JsVal) : Prop :=
  match card with
  | Literal c => c = currentCard
  | Factory make => make attempts = Ok currentCard
  end.

Definition cardEvents (card : CardArg) (attempts : Z) : list Event :=
  match card with
  | Literal _ => []
  | Factory _ => [EvCard attempts]
  end.

(** The amount of a line item as the specification words it: its [amount],
    and for an item without one its unit amount times its quantity (1 when
    it has none). *)
Definition specifiedItemAmount (item : LineItem) : Z :=
  match amount item with
  | Some a => a
  | None => default 0 (unitAmount item) * default 1 (quantity item)
  end.

Definition sumZ (l : list Z) : Z := fold_right Z.add 0 l.

(** The sum of the line-item amounts; an item without amount adds nothing. *)
Definition sumOfAmounts (items : list LineItem) : Z :=
  sumZ (map (fun item => default 0 (amount item)) items).

(** [Number.MAX_SAFE_INTEGER]: a sum or a product of integers of at most
    this magnitude that is itself of at most this magnitude is the same in
    the arithmetic of doubles as in the integers. *)
Definition MAX_SAFE_INTEGER : Z := 2 ^ 53 - 1.

(** A number of the checkout information that, when present, is a safe
    integer. *)
Definition safeNumber (n : option Z) : bool :=
  Z.abs (default 0 n) <=? MAX_SAFE_INTEGER.

(** Line items on which the arithmetic of the code is exact: every number
    is a safe integer, and the magnitudes of what the items contribute add
    up to at most [MAX_SAFE_INTEGER], so that no product and no partial sum
    leaves the safe integers. *)
Definition exactLineItems (items : list LineItem) : bool :=
  List.forallb
    (fun item =>
       safeNumber (amount item) && safeNumber (unitAmount item)
       && safeNumber (quantity item))
    items
  && (sumZ (map (fun item => Z.abs (specifiedItemAmount item)) items)
      <=? MAX_SAFE_INTEGER).

End Payer.
Export Payer.

(** ** Sample inputs used by the examples below *)

Module Samples.

Definition sampleBase : jsstr := js "https://checkout.stripe.com/c/pay/cs_test_a1B2".

Definition samplePayload : jsstr :=
  js "{k:'pk_test_51Hxyz','u':'https://shop.example/x'}".

Definition sampleUrl : jsstr := buildCheckoutUrl sampleBase samplePayload.

(** A base whose query string carries an escaped [#]. *)
Definition escapedHashBase : jsstr := js "https://pay.example/cs_test_abc?ref=%23top".

Definition sampleCard : JsVal :=
  cardObject (mkCard (js "4242424242424242") (js "12") (js "30") (js "123")).

Definition paymentMethodOk : HttpResponse :=
  mkHttpResponse 200 (obj [ (js "id", VStr (js "pm_1")) ]).

Definition infoOf (amounts : list Z) : CheckoutInfo :=
  mkCheckoutInfo (map (fun a => mkLineItem (Some a) None None) amounts)
    None None None None.

Definition mismatchFields : gmap jsstr JsVal :=
  list_to_map
    [ (js "error",
       obj [ (js "code", VStr (js "checkout_amount_mismatch"));
             (js "type", VStr (js "invalid_request_error")) ]) ].

Definition declineFields : gmap jsstr JsVal :=
  list_to_map
    [ (js "error",
       obj [ (js "code", VStr (js "card_declined"));
             (js "type", VStr (js "card_error"));
             (js "message", VStr (js "Your card was declined.")) ]) ].

Definition sampleTimestamp : jsstr := js "2026-01-01T00:00:00.000Z".

(** The first confirm reports an amount mismatch, the re-fetched session is
    due 700 instead of 500, and the corrective confirm answers 200 with
    [{ status: 'complete' }]. *)
Definition mismatchWorld : World :=
  mkWorld (Ok (infoOf [500]))
    (fun _ _ => Ok paymentMethodOk)
    (fun _ _ => Ok (mkHttpResponse 400 (VObj mismatchFields)))
    (fun _ => Ok (infoOf [700]))
    (fun _ _ => Ok (mkHttpResponse 200 (obj [ (js "status", VStr (js "complete")) ])))
    sampleTimestamp.

(** As above, but the re-fetch of the session times out. *)
Definition refetchFailsWorld : World :=
  mkWorld (Ok (infoOf [500]))
    (fun _ _ => Ok paymentMethodOk)
    (fun _ _ => Ok (mkHttpResponse 400 (VObj mismatchFields)))
    (fun _ => Throw (Err (js "Error fetching checkout info: timeout")))
    (fun _ _ => Ok (mkHttpResponse 200 (obj [ (js "status", VStr (js "complete")) ])))
    sampleTimestamp.

(** Every confirm is declined by the issuer. *)
Definition declineWorld : World :=
  mkWorld (Ok (infoOf [500]))
    (fun _ _ => Ok paymentMethodOk)
    (fun _ _ => Ok (mkHttpResponse 402 (VObj declineFields)))
    (fun _ => Ok (infoOf [500]))
    (fun _ _ => Ok (mkHttpResponse 402 (VObj declineFields)))
    sampleTimestamp.

End Samples.
Export Samples.

(** ** More card material: [payer.js], lines 18-24 *)

Module RandomBin.

(** [const bins = [ ... ]] of [generateRandomBin]. *)
Definition randomBins : list jsstr :=
  [ js "424242"; js "400000"; js "510510"; js "555555"; js "222222";
    js "378282"; js "371449"; js "601111"; js "352800"; js "620000" ].

(** [generateRandomBin()]: [bins[Math.floor(Math.random() * bins.length)]];
    [i] is the number of the draw. *)
Definition generateRandomBin (rnd : nat -> Z) (i : nat) : jsstr :=
  nth (Z.to_nat (randomBelow rnd i (Z.of_nat (List.length randomBins)))) randomBins [].

End RandomBin.
Export RandomBin.

(** ** More vocabulary for the statements below *)

Module Vocabulary.

(** What [String(z)] is made of: digits, after a minus sign at most. *)
Definition is_number_char (c : N) : bool := is_digit c || (c =? 45)%N.

(** A character that is neither the field separator [|] nor white space. *)
Definition is_field_char (c : N) : bool := negb (c =? 124)%N && negb (is_space c).

(** A field of the parsed URL that, when present, is one of two literals
    followed by one or more characters of a class. *)
Definition literalAndBody (l1 l2 : jsstr) (class : N -> bool) (field : option jsstr)
    : Prop :=
  match field with
  | None => True
  | Some m =>
      exists body, body <> [] /\ Forall (fun c => class c = true) body
                   /\ (m = l1 ++ body \/ m = l2 ++ body)
  end.

(** Every corrective confirm follows a confirm, and every confirm a create. *)
Definition ordered (evs : list Event) : Prop :=
  countIf isReconfirm evs <= countIf isConfirm evs
  /\ countIf isConfirm evs <= countIf isCreate evs.

(** The create call of an iteration does not yield a payment method: it
    throws, or answers with a status other than 200, or without an [id]
    (lines 310-324). *)
Definition createFails (w : World) (attempts : Z) (currentCard : JsVal) : bool :=
  match createPaymentMethod w attempts currentCard with
  | Throw _ => true
  | Ok pm =>
      negb (statusCode pm =? 200)
      || match getE (data pm) (js "id") with
         | Ok id => negb (truthy id)
         | Throw _ => true
         end
  end.

(** What stands behind a result that reports success: the cycle [k] whose
    create and confirm calls both answered 200, and the working response of
    that cycle. *)
Definition approvalEvidence (w : World) (expectedAmount : Z) (r : JsVal)
    (evs : list Event) : Prop :=
  exists k currentCard pm confirm responseData,
    getE r (js "attempts") = Ok (VNum k)
    /\ getE r (js "status") = Ok (VStr (js "approved"))
    /\ getE r (js "card") = Ok currentCard
    /\ getE r (js "confirmation") = Ok responseData
    /\ In (EvCreate k currentCard) evs
    /\ createPaymentMethod w k currentCard = Ok pm
    /\ statusCode pm = 200
    /\ truthy (prop (data pm) (js "id")) = true
    /\ In (EvConfirm k (prop (data pm) (js "id")) expectedAmount) evs
    /\ confirmPayment w k expectedAmount = Ok confirm
    /\ statusCode confirm = 200
    /\ looksDeclined responseData = false
    /\ (isStr (prop responseData (js "status")) (js "complete") = true
        \/ isStr (prop (prop responseData (js "payment_intent")) (js "status"))
             (js "requires_action") = true).

End Vocabulary.
Export Vocabulary.

(** ** More sample inputs *)

Module MoreSamples.

(** Every create call is refused with status 402. *)
Definition createRefusedWorld : World :=
  mkWorld (Ok (infoOf [500]))
    (fun _ _ => Ok (mkHttpResponse 402 (VObj declineFields)))
    (fun _ _ => Ok (mkHttpResponse 200 (obj [ (js "status", VStr (js "complete")) ])))
    (fun _ => Ok (infoOf [500]))
    (fun _ _ => Ok (mkHttpResponse 200 (obj [ (js "status", VStr (js "complete")) ])))
    sampleTimestamp.

(** The first confirm answers 200 with [{ status: 'complete' }]. *)
Definition completeWorld : World :=
  mkWorld (Ok (infoOf [500]))
    (fun _ _ => Ok paymentMethodOk)
    (fun _ _ => Ok (mkHttpResponse 200 (obj [ (js "status", VStr (js "complete")) ])))
    (fun _ => Ok (infoOf [500]))
    (fun _ _ => Ok (mkHttpResponse 200 (obj [ (js "status", VStr (js "complete")) ])))
    sampleTimestamp.

(** What [attemptPayment] returns in [completeWorld]. *)
Definition completeResult : JsVal :=
  obj [ (js "success", VBool true);
        (js "attempts", VNum 1);
        (js "card", sampleCard);
        (js "status", VStr (js "approved"));
        (js "paymentMethod", data paymentMethodOk);
        (js "requires3DS", VUndef);
        (js "paymentIntent", VNull);
        (js "confirmation", obj [ (js "status", VStr (js "complete")) ]) ].

End MoreSamples.
Export MoreSamples.

(** ** Card types: [response-handler.js], lines 250-268, and
       [proxy-server.js], lines 597-609 *)

Module CardType.

(** [[0-9]{n}$]: exactly [n] digits up to the end of the string. *)
Definition digitsToEnd (n : nat) (s : jsstr) : bool :=
  (List.length s =? n)%nat && List.forallb is_digit s.

(** A sequence of character classes, one character each, then exactly [n]
    digits, anchored at both ends. *)
Fixpoint classesThenDigits (classes : list (N -> bool)) (n : nat) (s : jsstr) : bool :=
  match classes with
  | [] => digitsToEnd n s
  | class :: rest =>
      match s with
      | c :: r => class c && classesThenDigits rest n r
      | [] => false
      end
  end.

(** The classes [x], [[x-y]] and [[xy]]. *)
Definition oneChar (literal : N) (c : N) : bool := (c =? literal)%N.
Definition inRange (lo hi : N) (c : N) : bool := ((lo <=? c) && (c <=? hi))%N.
Definition oneOf (a b : N) (c : N) : bool := ((c =? a) || (c =? b))%N.

(** [/^4[0-9]{12}(?:[0-9]{3})?$/] *)
Definition isVisa (s : jsstr) : bool :=
  classesThenDigits [oneChar 52] 12 s || classesThenDigits [oneChar 52] 15 s.

(** [/^5[1-5][0-9]{14}$/] *)
Definition isMastercard (s : jsstr) : bool :=
  classesThenDigits [oneChar 53; inRange 49 53] 14 s.

(** [/^3[47][0-9]{13}$/] *)
Definition isAmEx (s : jsstr) : bool :=
  classesThenDigits [oneChar 51; oneOf 52 55] 13 s.

(** [/^6(?:011|5[0-9]{2})[0-9]{12}$/] *)
Definition isDiscover (s : jsstr) : bool :=
  classesThenDigits [oneChar 54; oneChar 48; oneChar 49; oneChar 49] 12 s
  || classesThenDigits [oneChar 54; oneChar 53; is_digit; is_digit] 12 s.

(** [/^3(?:0[0-5]|[68][0-9])[0-9]{11}$/] *)
Definition isDiners (s : jsstr) : bool :=
  classesThenDigits [oneChar 51; oneChar 48; inRange 48 53] 11 s
  || classesThenDigits [oneChar 51; oneOf 54 56; is_digit] 11 s.

(** [/^(?:2131|1800|35\d{3})\d{11}$/] *)
Definition isJCB (s : jsstr) : bool :=
  classesThenDigits [oneChar 50; oneChar 49; oneChar 51; oneChar 49] 11 s
  || classesThenDigits [oneChar 49; oneChar 56; oneChar 48; oneChar 48] 11 s
  || classesThenDigits [oneChar 51; oneChar 53; is_digit; is_digit; is_digit] 11 s.

(** [for (const [type, pattern] of Object.entries(patterns))
       if (pattern.test(cardNumber)) return type;
     return 'Unknown';] *)
Fixpoint firstPattern (patterns : list (jsstr * (jsstr -> bool))) (cardNumber : jsstr)
    : jsstr :=
  match patterns with
  | [] => js "Unknown"
  | (type, pattern) :: rest =>
      if pattern cardNumber then type else firstPattern rest cardNumber
  end.

(** The table of [response-handler.js], in the order of the literal. *)
Definition patterns : list (jsstr * (jsstr -> bool)) :=
  [ (js "Visa", isVisa); (js "Mastercard", isMastercard); (js "AmEx", isAmEx);
    (js "Discover", isDiscover); (js "Diners", isDiners); (js "JCB", isJCB) ].

(** [getCardType(cardNumber)] of [response-handler.js]; [None] is
    [undefined]. *)
Definition getCardType (cardNumber : option jsstr) : jsstr :=
  match cardNumber with
  | Some ((_ :: _) as s) => firstPattern patterns s
  | _ => js "Unknown"
  end.

(** The table of the proxy server's method of the same name. *)
Definition proxyPatterns : list (jsstr * (jsstr -> bool)) :=
  [ (js "Visa", isVisa); (js "Mastercard", isMastercard); (js "AmEx", isAmEx);
    (js "Discover", isDiscover) ].

Definition proxyGetCardType (cardNumber : option jsstr) : jsstr :=
  match cardNumber with
  | Some ((_ :: _) as s) => firstPattern proxyPatterns s
  | _ => js "Unknown"
  end.

(** What a match says about the first two characters, the length and the
    digits: one of the listed cases [(first, seconds, length)] applies (an
    empty list of seconds allows any second character). *)
Definition leads (s : jsstr) (cases : list (N * list N * nat)) : Prop :=
  Exists (fun case =>
            nth 0 s 0%N = fst (fst case)
            /\ (snd (fst case) = [] \/ In (nth 1 s 0%N) (snd (fst case)))
            /\ List.length s = snd case) cases
  /\ Forall (fun c => is_digit c = true) s.

End CardType.
Export CardType.

(** ** The payment routes of the proxy: [proxy-server.js], lines 711-830 *)

Module ProxyServer.

(** [a || b] for what [URLSearchParams.get] returns: a string, or [null]
    ([None]). *)
Definition orParam (a b : option jsstr) : option jsstr :=
  match a with
  | Some (_ :: _) => a
  | _ => b
  end.

(** [const retryParam = query.get('retry') || query.get('retries') || '0';
     const retries = Math.max(0, Math.min(parseInt(retryParam) || 0, 10));] *)
Definition retriesOfQuery (retry retries : option jsstr) : Z :=
  let retryParam := default (js "0") (orParam (orParam retry retries) (Some (js "0"))) in
  let parsed := default 0 (parseInt retryParam) in
  Z.max 0 (Z.min parsed 10).

(** [binPart.replace(/[^0-9]/g, '').slice(0, 6)] *)
Definition binOfPath (binPart : jsstr) : jsstr :=
  List.firstn 6 (List.filter is_digit binPart).

(** [card: () => generateCardFromBin(bin)]: the call made in iteration [k]
    draws from [rnd k] and reads the clock [clock k] (year, month). *)
Definition binFactory (rnd : Z -> nat -> Z) (clock : Z -> Z * Z) (bin : jsstr) : CardArg :=
  Factory (fun k =>
             doE card <- generateCardFromBin (rnd k) (fst (clock k)) (snd (clock k)) bin;
             Ok (cardObject card)).

(** What a route does with a request before the payment runs: it answers
    at once with a status and an error, or it calls [attemptPayment]. *)
Inductive Routed :=
| Answered (status : Z) (error : jsstr)
| Started (checkoutUrl : jsstr) (card : CardArg) (retries : Z).

(** [handleStripePayGen], up to the call of [attemptPayment]. *)
Definition handleStripePayGen (rnd : Z -> nat -> Z) (clock : Z -> Z * Z)
    (encodedUrl binPart : jsstr) (retry retries : option jsstr) : Routed :=
  match decodeURIComponent encodedUrl with
  | Throw _ => Answered 400 (js "Invalid URL encoding")
  | Ok checkoutUrl =>
      let retries := retriesOfQuery retry retries in
      let bin := binOfPath binPart in
      if (List.length bin =? 0)%nat || (List.length bin <? 6)%nat
      then Answered 400 (js "BIN must be at least 6 digits")
      else Started checkoutUrl (binFactory rnd clock bin) retries
  end.

(** [handleStripePayCard], up to the call of [attemptPayment]. *)
Definition handleStripePayCard (encodedUrl cardSpec : jsstr) : Routed :=
  match decodeURIComponent encodedUrl with
  | Throw _ => Answered 400 (js "Invalid URL encoding")
  | Ok checkoutUrl =>
      match (doE spec <- decodeURIComponent cardSpec; parseCardString spec) with
      | Throw _ => Answered 400 (js "Invalid card format")
      | Ok card => Started checkoutUrl (Literal (cardObject card)) 0
      end
  end.

End ProxyServer.
Export ProxyServer.

(** ** More of JavaScript on JSON values *)

Module JsMore.

(** [items.join(',')], the string of an array, with [element] for the
    conversion of an element that is neither [undefined] nor [null]. *)
Definition joinE (element : JsVal -> Exc jsstr) : list JsVal -> Exc jsstr :=
  fix join (l : list JsVal) : Exc jsstr :=
    match l with
    | [] => Ok []
    | x :: rest =>
        doE first <-
          match x with
          | VUndef | VNull => Ok []
          | _ => element x
          end;
        match rest with
        | [] => Ok first
        | _ :: _ => doE tail <- join rest; Ok (first ++ 44%N :: tail)
        end
    end.

(** [String(v)], which is also how a value is turned into a property key
    and how an array or an object becomes a primitive as an operand of [+]
    or [>].  A number is an integer and is printed in decimal, as the code
    prints it below [10 ^ 21].  An array is its elements joined with
    commas, [null] and
    [undefined] elements giving nothing.  An object is converted by its
    [toString] method: the inherited one gives [[object Object]]; a
    property [toString] of its own hides that one and, in an object parsed
    from JSON, is no function, and then neither [toString] nor [valueOf]
    gives a primitive and the conversion throws a [TypeError]. *)
Fixpoint toStr (v : JsVal) : Exc jsstr :=
  match v with
  | VUndef => Ok (js "undefined")
  | VNull => Ok (js "null")
  | VBool b => Ok (if b then js "true" else js "false")
  | VNum z => Ok (intToString z)
  | VStr s => Ok s
  | VArr items => joinE toStr items
  | VObj fields =>
      match fields !! js "toString" with
      | Some _ => Throw typeError
      | None => Ok (js "[object Object]")
      end
  end.

(** The conversion of [v] to a string does not throw. *)
Definition converts (v : JsVal) : bool :=
  match toStr v with
  | Ok _ => true
  | Throw _ => false
  end.

(** [v?.[0]]: the first element of an array, the first code unit of a
    string, the property [0] of an object, [undefined] otherwise. *)
Definition optIndex0 (v : JsVal) : JsVal :=
  match v with
  | VArr (x :: _) => x
  | VStr (c :: _) => VStr [c]
  | VObj fields => default VUndef (fields !! js "0")
  | _ => VUndef
  end.

(** A property of a result object: a JSON value, a member inherited from
    [Object.prototype] that a table lookup brought in, or an object literal
    of such properties. *)
Inductive Out :=
| Value (v : JsVal)
| Member (name : jsstr)
| Fields (fields : list (jsstr * Out)).

Definition outOfLooked (l : Looked) : Out :=
  match l with
  | Text s => Value (VStr s)
  | Inherited name => Member name
  | Undefined => Value VUndef
  end.

(** [field === 'literal'] *)
Definition outIs (f : option Out) (literal : jsstr) : bool :=
  match f with
  | Some (Value v) => isStr v literal
  | _ => false
  end.

(** [v] is [undefined] or [null]. *)
Definition nullish (v : JsVal) : bool :=
  match v with
  | VUndef | VNull => true
  | _ => false
  end.

End JsMore.
Export JsMore.

(** ** The response formatter: [response-handler.js], lines 39-205 *)

Module Formatter.

(** [const statusMap = { ... }] of [parsePaymentIntentStatus]. *)
Definition statusMapEntries : list (jsstr * jsstr) :=
  [ (js "succeeded", js "approved");
    (js "processing", js "processing");
    (js "requires_payment_method", js "requires_payment_method");
    (js "requires_action", js "requires_action");
    (js "requires_capture", js "pending");
    (js "canceled", js "canceled") ].

Definition statusMap : gmap jsstr jsstr := list_to_map statusMapEntries.

(** [parsePaymentIntentStatus(status)]:
    [statusMap[status] || PaymentStatus.FAILED]. *)
Definition parsePaymentIntentStatus (status : JsVal) : Exc Looked :=
  doE key <- toStr status;
  Ok (match lookupTable statusMap key with
      | Text s => if (List.length s =? 0)%nat then Text (js "failed") else Text s
      | Inherited name => Inherited name
      | Undefined => Text (js "failed")
      end).

(** The object a formatter returns. *)
Definition Formatted : Type := gmap jsstr Out.

Definition plain (fields : list (jsstr * JsVal)) : list (jsstr * Out) :=
  map (fun kv => (fst kv, Value (snd kv))) fields.

(** Assignments [result.k = v], in order, on top of the initial literal:
    a later assignment to the same property wins. *)
Definition assign (result : Formatted) (updates : list (jsstr * Out)) : Formatted :=
  fold_left (fun acc kv => <[ fst kv := snd kv ]> acc) updates result.

(** [formatPaymentResponse(response, statusCode)]; [timestamp] is
    [new Date().toISOString()]. *)
Definition formatPaymentResponse (timestamp : jsstr) (response statusCode : JsVal)
    : Exc Formatted :=
  let result : Formatted :=
    list_to_map (plain
      [ (js "timestamp", VStr timestamp);
        (js "statusCode", orV statusCode (VNum 200));
        (js "success", VBool false);
        (js "status", VStr (js "failed"));
        (js "message", VStr (js "Payment processing failed"));
        (js "details", obj []) ]) in
  doE error <- getE response (js "error");
  if truthy error then
    doE errorCode <- toStr (prop error (js "code"));
    Ok (assign result
          [ (js "success", Value (VBool false));
            (js "status", Value (VStr (js "declined")));
            (js "message", Value (orV (prop error (js "message")) (VStr (js "Payment declined"))));
            (js "errorCode", Value (prop error (js "code")));
            (js "errorType", Value (prop error (js "type")));
            (js "declineReason", outOfLooked (getDeclineReason errorCode));
            (js "details", Value (obj
               [ (js "code", prop error (js "code"));
                 (js "message", prop error (js "message"));
                 (js "type", prop error (js "type"));
                 (js "param", prop error (js "param"));
                 (js "chargeId", prop error (js "charge")) ])) ])
  else
  let pi := prop response (js "payment_intent") in
  if truthy pi then
    doE parsed <- parsePaymentIntentStatus (prop pi (js "status"));
    let result :=
      assign result
        [ (js "paymentIntentId", Value (prop pi (js "id")));
          (js "amount", Value (prop pi (js "amount")));
          (js "currency", Value (prop pi (js "currency")));
          (js "status", outOfLooked parsed) ] in
    let piStatus := prop pi (js "status") in
    if isStr piStatus (js "succeeded") then
      Ok (assign result (plain
            [ (js "success", VBool true);
              (js "status", VStr (js "approved"));
              (js "message", VStr (js "Payment approved and processed successfully"));
              (js "details", obj
                 [ (js "paymentIntentId", prop pi (js "id"));
                   (js "amount", prop pi (js "amount"));
                   (js "currency", prop pi (js "currency"));
                   (js "status", piStatus);
                   (js "created", prop pi (js "created"));
                   (js "chargeId",
                    prop (optIndex0 (prop (prop pi (js "charges")) (js "data"))) (js "id"));
                   (js "receiptEmail", prop pi (js "receipt_email")) ]) ]))
    else if isStr piStatus (js "processing") then
      Ok (assign result (plain
            [ (js "success", VBool false);
              (js "status", VStr (js "processing"));
              (js "message", VStr (js "Payment is being processed"));
              (js "details", obj
                 [ (js "paymentIntentId", prop pi (js "id"));
                   (js "amount", prop pi (js "amount"));
                   (js "currency", prop pi (js "currency"));
                   (js "status", piStatus) ]) ]))
    else if isStr piStatus (js "requires_action") then
      Ok (assign result (plain
            [ (js "success", VBool false);
              (js "status", VStr (js "requires_action"));
              (js "message",
               VStr (js "Payment requires additional action (3D Secure or similar)"));
              (js "requires3DS", VBool true);
              (js "details", obj
                 [ (js "paymentIntentId", prop pi (js "id"));
                   (js "nextAction", prop (prop pi (js "next_action")) (js "type"));
                   (js "redirectUrl",
                    prop (prop (prop pi (js "next_action")) (js "redirect_to_url"))
                      (js "url")) ]) ]))
    else if isStr piStatus (js "requires_payment_method") then
      Ok (assign result (plain
            [ (js "success", VBool false);
              (js "status", VStr (js "requires_payment_method"));
              (js "message", VStr (js "Payment method required"));
              (js "details", obj
                 [ (js "paymentIntentId", prop pi (js "id"));
                   (js "amount", prop pi (js "amount"));
                   (js "currency", prop pi (js "currency")) ]) ]))
    else if isStr piStatus (js "canceled") then
      Ok (assign result (plain
            [ (js "success", VBool false);
              (js "status", VStr (js "canceled"));
              (js "message", VStr (js "Payment was canceled"));
              (js "details", obj
                 [ (js "paymentIntentId", prop pi (js "id"));
                   (js "cancellationReason", prop pi (js "cancellation_reason")) ]) ]))
    else Ok result
  else
  if isStr (prop response (js "status")) (js "complete") then
    Ok (assign result (plain
          [ (js "success", VBool true);
            (js "status", VStr (js "approved"));
            (js "message", VStr (js "Checkout completed successfully"));
            (js "details", obj
               [ (js "sessionId", prop response (js "id"));
                 (js "status", prop response (js "status"));
                 (js "paymentStatus", prop response (js "payment_status"));
                 (js "paymentIntentId", prop response (js "payment_intent")) ]) ]))
  else
  if truthy (prop response (js "message")) then
    Ok (assign result (plain
          [ (js "success", VBool false);
            (js "status", VStr (js "failed"));
            (js "message", prop response (js "message"));
            (js "details", response) ]))
  else Ok result.

(** The counters of [formatBatchResponse]. *)
Record BatchSummary := mkBatchSummary {
  totalAttempts : Z;
  approved : Z;
  declined : Z;
  failed : Z;
  pending : Z;
  results : list Formatted
}.

(** One round of [responses.forEach((response, index) => { ... })]; the
    pushed object is [{ attemptNumber: index + 1, ...formatted }], in which
    the properties of [formatted] come last and win. *)
Definition batchStep (timestamp : jsstr) (summary : BatchSummary) (index : Z)
    (response : JsVal) : Exc BatchSummary :=
  doE data <- getE response (js "data");
  doE statusCode <- getE response (js "statusCode");
  doE formatted <- formatPaymentResponse timestamp data statusCode;
  let results :=
    results summary
    ++ [ formatted ∪ {[ js "attemptNumber" := Value (VNum (index + 1)) ]} ] in
  let status := formatted !! js "status" in
  let summary :=
    mkBatchSummary (totalAttempts summary) (approved summary) (declined summary)
      (failed summary) (pending summary) results in
  Ok (if outIs status (js "approved") || outIs status (js "succeeded") then
        mkBatchSummary (totalAttempts summary) (approved summary + 1) (declined summary)
          (failed summary) (pending summary) results
      else if outIs status (js "declined") then
        mkBatchSummary (totalAttempts summary) (approved summary) (declined summary + 1)
          (failed summary) (pending summary) results
      else if outIs status (js "processing") || outIs status (js "pending") then
        mkBatchSummary (totalAttempts summary) (approved summary) (declined summary)
          (failed summary) (pending summary + 1) results
      else
        mkBatchSummary (totalAttempts summary) (approved summary) (declined summary)
          (failed summary + 1) (pending summary) results).

Fixpoint batchLoop (timestamp : jsstr) (summary : BatchSummary) (index : Z)
    (responses : list JsVal) : Exc BatchSummary :=
  match responses with
  | [] => Ok summary
  | response :: rest =>
      doE summary <- batchStep timestamp summary index response;
      batchLoop timestamp summary (index + 1) rest
  end.

(** [formatBatchResponse(responses)] for an array of responses. *)
Definition formatBatchResponse (timestamp : jsstr) (responses : list JsVal)
    : Exc BatchSummary :=
  batchLoop timestamp
    (mkBatchSummary (Z.of_nat (List.length responses)) 0 0 0 0 []) 0 responses.

(** The sum of the four counters. *)
Definition counted (summary : BatchSummary) : Z :=
  approved summary + declined summary + failed summary + pending summary.

(** The value [formatPaymentResponse] uses as the key of a table: the
    code of the error when there is one, else the status of the payment
    intent when there is one. *)
Definition tableKey (response : JsVal) : JsVal :=
  let error := prop response (js "error") in
  let pi := prop response (js "payment_intent") in
  if truthy error then prop error (js "code")
  else if truthy pi then prop pi (js "status")
  else VUndef.

(** A response [formatPaymentResponse] can format: it is neither
    [undefined] nor [null], and its table key converts to a string. *)
Definition formattable (response : JsVal) : bool :=
  negb (nullish response) && converts (tableKey response).

(** A response the batch formatter can read: it is neither [undefined] nor
    [null], and its [data] can be formatted. *)
Definition readable (response : JsVal) : bool :=
  negb (nullish response) && formattable (prop response (js "data")).

End Formatter.
Export Formatter.

(** ** Comparisons and string methods on JSON values *)

Module JsCompare.

(** [s.includes(needle)] *)
Fixpoint isInfix (needle s : jsstr) : bool :=
  startsWith s needle
  || match s with
     | [] => false
     | _ :: rest => isInfix needle rest
     end.

(** [v.includes('literal')] on a value that is neither [undefined] nor
    [null]: the method of strings and of arrays; any other value has no
    such method, and the call throws. *)
Definition includesE (v : JsVal) (literal : jsstr) : Exc bool :=
  match v with
  | VStr s => Ok (isInfix literal s)
  | VArr items => Ok (List.existsb (fun x => isStr x literal) items)
  | _ => Throw typeError
  end.

Definition asciiLower (c : N) : N := if is_upper c then (c + 32)%N else c.

(** [v.toLowerCase().includes('decline')]: only strings have the method.
    On a string, lowering the letters [A-Z] finds the same occurrences of
    [decline] as the full Unicode mapping does: beyond [A-Z] that mapping
    yields an ASCII letter only for the Kelvin sign (a [k]) and for U+0130
    (an [i] that is followed by a combining dot, hence never by [n]). *)
Definition lowerIncludesE (v : JsVal) (literal : jsstr) : Exc bool :=
  match v with
  | VStr s => Ok (isInfix literal (map asciiLower s))
  | _ => Throw typeError
  end.

(** [v.slice(-4)]: a method of strings and arrays. *)
Definition sliceLast4E (v : JsVal) : Exc JsVal :=
  match v with
  | VStr s => Ok (VStr (sliceLast 4 s))
  | VArr items => Ok (VArr (List.skipn (List.length items - 4) items))
  | _ => Throw typeError
  end.

(** [v.length] on a value that is neither [undefined] nor [null]. *)
Definition lengthOf (v : JsVal) : JsVal :=
  match v with
  | VStr s => VNum (Z.of_nat (List.length s))
  | VArr items => VNum (Z.of_nat (List.length items))
  | VObj fields => default VUndef (fields !! js "length")
  | _ => VUndef
  end.

(** Digits of a radix, with at least one that is not [0]. *)
Definition radixPositive (digit : N -> bool) (s : jsstr) : bool :=
  negb (List.length s =? 0)%nat && List.forallb digit s
  && List.existsb (fun c => negb (c =? 48)%N) s.

(** The exponent part of a decimal literal: nothing, or [e] or [E], an
    optional sign and one or more digits up to the end. *)
Definition exponentOf (s : jsstr) : option Z :=
  match s with
  | [] => Some 0
  | e :: rest =>
      if ((e =? 101) || (e =? 69))%N then
        let '(sign, digits) :=
          match rest with
          | c :: r => if (c =? 45)%N then (-1, r) else if (c =? 43)%N then (1, r) else (1, rest)
          | [] => (1, rest)
          end in
        if negb (List.length digits =? 0)%nat && List.forallb is_digit digits
        then option_map (Z.mul sign) (readDigits decValue 10 digits None)
        else None
      else None
  end.

(** Whether an unsigned decimal literal ([12], [1.5], [.5], [5.], each with
    an optional exponent) denotes a number that is positive as a double:
    its value exceeds 2^-1075, half the smallest positive double. *)
Definition decimalPositive (s : jsstr) : bool :=
  let intPart := takeWhile is_digit s in
  let rest := List.skipn (List.length intPart) s in
  let '(fracPart, rest) :=
    match rest with
    | c :: r =>
        if (c =? 46)%N
        then (takeWhile is_digit r, List.skipn (List.length (takeWhile is_digit r)) r)
        else ([], rest)
    | [] => ([], rest)
    end in
  if (List.length intPart =? 0)%nat && (List.length fracPart =? 0)%nat then false else
  match exponentOf rest with
  | None => false
  | Some e =>
      let mantissa := default 0 (readDigits decValue 10 (intPart ++ fracPart) None) in
      let exponent := e - Z.of_nat (List.length fracPart) in
      (0 <? mantissa)
      && ((0 <=? exponent) || (10 ^ (- exponent) <? mantissa * 2 ^ 1075))
  end.

Definition is_octal (c : N) : bool := ((48 <=? c) && (c <=? 55))%N.
Definition is_binary (c : N) : bool := ((c =? 48) || (c =? 49))%N.
Definition is_hex (c : N) : bool :=
  match hexValue c with Some _ => true | None => false end.

(** Whether [Number(s) > 0], for a string [s]. *)
Definition stringPositive (s : jsstr) : bool :=
  match trim s with
  | [] => false
  | c :: rest =>
      if (c =? 45)%N then false
      else if (c =? 43)%N
      then bool_decide (rest = js "Infinity") || decimalPositive rest
      else
        match rest with
        | x :: digits =>
            if (c =? 48)%N && ((x =? 120) || (x =? 88))%N then radixPositive is_hex digits
            else if (c =? 48)%N && ((x =? 111) || (x =? 79))%N then radixPositive is_octal digits
            else if (c =? 48)%N && ((x =? 98) || (x =? 66))%N then radixPositive is_binary digits
            else bool_decide (c :: rest = js "Infinity") || decimalPositive (c :: rest)
        | [] => decimalPositive [c]
        end
  end.

(** [v > 0]; an array or an object is compared through its string. *)
Definition greaterThanZero (v : JsVal) : Exc bool :=
  match v with
  | VUndef | VNull => Ok false
  | VBool b => Ok b
  | VNum z => Ok (0 <? z)
  | VStr s => Ok (stringPositive s)
  | VArr _ | VObj _ => doE s <- toStr v; Ok (stringPositive s)
  end.

End JsCompare.
Export JsCompare.

(** ** The enhanced response handler: [enhanced-response-handler.js] *)

Module Enhanced.

(** [response.charges && response.charges.data
     && response.charges.data.length > 0], and then
    [response.charges.data[0]]. *)
Definition firstCharge (response : JsVal) : Exc (option JsVal) :=
  let charges := prop response (js "charges") in
  let data := prop charges (js "data") in
  if truthy charges && truthy data then
    doE positive <- greaterThanZero (lengthOf data);
    Ok (if positive then Some (optIndex0 data) else None)
  else Ok None.

(** The [if (response.error) { ... }] block of [detectCardDecline]. *)
Definition declinedByError (error : JsVal) : Exc bool :=
  if isStr (prop error (js "type")) (js "card_error") then Ok true else
  doE inCode <-
    (if truthy (prop error (js "code"))
     then includesE (prop error (js "code")) (js "declined")
     else Ok false);
  if inCode then Ok true else
  if truthy (prop error (js "decline_code")) then Ok true else
  if truthy (prop error (js "message"))
  then lowerIncludesE (prop error (js "message")) (js "decline")
  else Ok false.

(** [detectCardDecline(response)] *)
Definition detectCardDecline (response : JsVal) : Exc bool :=
  if negb (truthy response) then Ok false else
  let status := prop response (js "status") in
  if isStr status (js "declined") || isStr status (js "failed") then Ok true else
  let pi := prop response (js "payment_intent") in
  if truthy pi
     && (isStr (prop pi (js "status")) (js "requires_payment_method")
         || truthy (prop pi (js "last_payment_error"))
         || isStr (prop pi (js "status")) (js "declined"))
  then Ok true else
  let error := prop response (js "error") in
  doE byError <- (if truthy error then declinedByError error else Ok false);
  if byError then Ok true else
  doE charge <- firstCharge response;
  match charge with
  | Some charge =>
      doE chargeStatus <- getE charge (js "status");
      if isStr chargeStatus (js "failed") then Ok true else
      doE declined <- getE charge (js "declined");
      Ok (truthy declined)
  | None => Ok false
  end.

(** [detectCardApproval(response)] *)
Definition detectCardApproval (response : JsVal) : Exc bool :=
  if negb (truthy response) then Ok false else
  let status := prop response (js "status") in
  if isStr status (js "succeeded") || isStr status (js "complete") then Ok true else
  let pi := prop response (js "payment_intent") in
  if truthy pi
     && (isStr (prop pi (js "status")) (js "succeeded")
         || isStr (prop pi (js "status")) (js "processing"))
  then Ok true else
  doE charge <- firstCharge response;
  doE byCharge <-
    match charge with
    | Some charge =>
        doE chargeStatus <- getE charge (js "status");
        if isStr chargeStatus (js "succeeded") then
          doE paid <- getE charge (js "paid");
          Ok (match paid with VBool true => true | _ => false end)
        else Ok false
    | None => Ok false
    end;
  if byCharge then Ok true else
  if negb (truthy (prop response (js "error"))) then
    doE declined <- detectCardDecline response;
    Ok (negb declined)
  else Ok false.

(** [detectThreeDSRequired(response)] *)
Definition detectThreeDSRequired (response : JsVal) : bool :=
  if negb (truthy response) then false else
  match prop response (js "requires3DS") with
  | VBool true => true
  | _ =>
      let pi := prop response (js "payment_intent") in
      truthy pi
      && isStr (prop pi (js "status")) (js "requires_action")
      && truthy (prop pi (js "next_action"))
  end.

(** [error.decline_code && DECLINE_CODES[error.decline_code]], when it is
    truthy. *)
Definition declineCodeText (error : JsVal) : Exc (option Out) :=
  let declineCode := prop error (js "decline_code") in
  if truthy declineCode then
    doE key <- toStr declineCode;
    Ok (match lookupTable DECLINE_CODES key with
        | Text s => if (List.length s =? 0)%nat then None else Some (Value (VStr s))
        | Inherited name => Some (Member name)
        | Undefined => None
        end)
  else Ok None.

(** [extractDeclineReason(response)] *)
Definition extractDeclineReason (response : JsVal) : Exc Out :=
  if negb (truthy response) then Ok (Value (VStr (js "Unknown decline reason"))) else
  let error := prop response (js "error") in
  doE fromError <-
    (if truthy error then
       if truthy (prop error (js "message")) then Ok (Some (Value (prop error (js "message"))))
       else
         doE text <- declineCodeText error;
         match text with
         | Some text => Ok (Some text)
         | None =>
             if truthy (prop error (js "code")) then
               doE code <- toStr (prop error (js "code"));
               Ok (Some (Value (VStr (js "Card error: " ++ code))))
             else Ok None
         end
     else Ok None);
  match fromError with
  | Some reason => Ok reason
  | None =>
  let pi := prop response (js "payment_intent") in
  let lastError := prop pi (js "last_payment_error") in
  doE fromIntent <-
    (if truthy pi && truthy lastError then
       if truthy (prop lastError (js "message"))
       then Ok (Some (Value (prop lastError (js "message"))))
       else declineCodeText lastError
     else Ok None);
  match fromIntent with
  | Some reason => Ok reason
  | None =>
  doE charge <- firstCharge response;
  match charge with
  | Some charge =>
      doE failureMessage <- getE charge (js "failure_message");
      if truthy failureMessage then Ok (Value failureMessage) else
      doE failureCode <- getE charge (js "failure_code");
      if truthy failureCode then
        doE code <- toStr failureCode;
        Ok (Value (VStr (js "Charge failed: " ++ code)))
      else Ok (Value (VStr (js "Card was declined")))
  | None => Ok (Value (VStr (js "Card was declined")))
  end
  end
  end.

(** [extractDeclineCode(response)] *)
Definition extractDeclineCode (response : JsVal) : Exc JsVal :=
  if negb (truthy response) then Ok (VStr (js "generic_decline")) else
  let error := prop response (js "error") in
  if truthy error && truthy (prop error (js "decline_code"))
  then Ok (prop error (js "decline_code")) else
  let pi := prop response (js "payment_intent") in
  let lastError := prop pi (js "last_payment_error") in
  if truthy pi && truthy lastError && truthy (prop lastError (js "decline_code"))
  then Ok (prop lastError (js "decline_code")) else
  doE charge <- firstCharge response;
  match charge with
  | Some charge =>
      doE failureCode <- getE charge (js "failure_code");
      if truthy failureCode then Ok failureCode else Ok (VStr (js "generic_decline"))
  | None => Ok (VStr (js "generic_decline"))
  end.

(** The response object under construction; a later assignment to a
    property replaces the earlier one. *)
Definition Response : Type := gmap jsstr Out.

(** The [if (result.confirmation) { ... }] block. *)
Definition analyse (response : Response) (confirmation : JsVal) : Exc Response :=
  doE isDeclined <- detectCardDecline confirmation;
  doE isApproved <- detectCardApproval confirmation;
  let requires3DS := detectThreeDSRequired confirmation in
  if isDeclined then
    doE code <- extractDeclineCode confirmation;
    doE message <- extractDeclineReason confirmation;
    Ok (<[ js "error" := Fields [ (js "code", Value code); (js "message", message);
                                   (js "type", Value (VStr (js "card_error"))) ] ]>
        (<[ js "status" := Value (VStr (js "declined")) ]>
         (<[ js "success" := Value (VBool false) ]> response)))
  else if requires3DS then
    Ok (<[ js "requires3DS" := Value (VBool true) ]>
        (<[ js "status" := Value (VStr (js "requires_action")) ]>
         (<[ js "success" := Value (VBool true) ]> response)))
  else if isApproved then
    Ok (<[ js "status" := Value (VStr (js "approved")) ]>
        (<[ js "success" := Value (VBool true) ]> response))
  else Ok response.

(** The [if (result.card) { ... }] block. *)
Definition cardInfo (card : JsVal) : Exc Out :=
  doE last4 <-
    (if truthy (prop card (js "cardNumber"))
     then sliceLast4E (prop card (js "cardNumber"))
     else Ok (VStr (js "N/A")));
  doE expMonth <- toStr (prop card (js "expMonth"));
  doE expYear <- toStr (prop card (js "expYear"));
  Ok (Fields
        [ (js "last4", Value last4);
          (js "expiration", Value (VStr (expMonth ++ js "/" ++ expYear))) ]).

(** [createDetailedResponse(result)]; [timestamp] is
    [new Date().toISOString()]. *)
Definition createDetailedResponse (timestamp : jsstr) (result : JsVal) : Exc Response :=
  doE success <- getE result (js "success");
  let response : Response :=
    list_to_map
      [ (js "success", Value (orV success (VBool false)));
        (js "status",
         Value (orV (prop result (js "status"))
                  (VStr (if truthy success then js "approved" else js "declined"))));
        (js "attempts", Value (orV (prop result (js "attempts")) (VNum 1)));
        (js "timestamp", Value (VStr timestamp)) ] in
  doE response <-
    (if truthy (prop result (js "confirmation"))
     then analyse response (prop result (js "confirmation"))
     else Ok response);
  let response :=
    if truthy (prop result (js "error"))
    then <[ js "error" := Value (prop result (js "error")) ]> response
    else response in
  doE response <-
    (if truthy (prop result (js "card"))
     then doE info <- cardInfo (prop result (js "card"));
          Ok (<[ js "card" := info ]> response)
     else Ok response);
  let paymentMethod := prop result (js "paymentMethod") in
  Ok (if truthy paymentMethod
      then <[ js "payment_method" :=
                Fields [ (js "id", Value (prop paymentMethod (js "id")));
                          (js "type",
                           Value (orV (prop paymentMethod (js "type")) (VStr (js "card")))) ] ]>
             response
      else response).

(** The argument of the three predicates below: a JSON value, or a
    response object built by [createDetailedResponse]. *)
Inductive Given :=
| Json (v : JsVal)
| Built (response : Response).

Definition givenTruthy (g : Given) : bool :=
  match g with
  | Json v => truthy v
  | Built _ => true
  end.

(** [response.k] for [k] one of [success] and [status], neither of which
    is inherited: a [TypeError] on [undefined] and [null]. *)
Definition givenProp (g : Given) (k : jsstr) : Exc (option Out) :=
  match g with
  | Json v => doE x <- getE v k; Ok (Some (Value x))
  | Built response => Ok (response !! k)
  end.

(** [field === b] *)
Definition outIsBool (f : option Out) (b : bool) : bool :=
  match f with
  | Some (Value (VBool x)) => Bool.eqb x b
  | _ => false
  end.

(** [response && response.success === b && response.status === 'literal']:
    the argument itself when it is falsy. *)
Definition successAndStatus (response : Given) (b : bool) (literal : jsstr)
    : Exc (Given + bool) :=
  if negb (givenTruthy response) then Ok (inl response) else
  doE success <- givenProp response (js "success");
  if negb (outIsBool success b) then Ok (inr false) else
  doE status <- givenProp response (js "status");
  Ok (inr (outIs status literal)).

(** [isPaymentApproved(response)] *)
Definition isPaymentApproved (response : Given) : Exc (Given + bool) :=
  successAndStatus response true (js "approved").

(** [isPaymentDeclined(response)] *)
Definition isPaymentDeclined (response : Given) : Exc (Given + bool) :=
  successAndStatus response false (js "declined").

(** [isPaymentPending(response)], which is
    [(response && response.status === 'processing')
     || response.status === 'pending']: the second operand reads
    [response.status] whatever [response] is. *)
Definition isPaymentPending (response : Given) : Exc bool :=
  doE processing <-
    (if negb (givenTruthy response) then Ok false else
     doE status <- givenProp response (js "status");
     Ok (outIs status (js "processing")));
  if processing then Ok true else
  doE status <- givenProp response (js "status");
  Ok (outIs status (js "pending")).

End Enhanced.

(** A confirmation that is complete and carries a payment error, and the
    response [createDetailedResponse] makes of the result
    [{ success: true, confirmation }]. *)
Definition declinedThoughComplete : JsVal :=
  obj [ (js "status", VStr (js "complete"));
        (js "payment_intent",
         obj [ (js "last_payment_error",
                obj [ (js "message", VStr (js "Your card was declined.")) ]) ]) ].

Definition declinedThoughCompleteResponse : Enhanced.Response :=
  list_to_map
    [ (js "success", Value (VBool false));
      (js "status", Value (VStr (js "declined")));
      (js "attempts", Value (VNum 1));
      (js "timestamp", Value (VStr sampleTimestamp));
      (js "error",
       Fields
         [ (js "code", Value (VStr (js "generic_decline")));
           (js "message", Value (VStr (js "Your card was declined.")));
           (js "type", Value (VStr (js "card_error"))) ]) ].

(** A confirmation that asks for 3D Secure, and the response
    [createDetailedResponse] makes of the result
    [{ success: true, status: 'approved', confirmation }]. *)
Definition asksThreeDS : JsVal :=
  obj [ (js "status", VStr (js "open"));
        (js "payment_intent",
         obj [ (js "status", VStr (js "requires_action"));
               (js "next_action", obj [ (js "type", VStr (js "use_stripe_sdk")) ]) ]) ].

Definition asksThreeDSResponse : Enhanced.Response :=
  list_to_map
    [ (js "success", Value (VBool true));
      (js "status", Value (VStr (js "requires_action")));
      (js "attempts", Value (VNum 1));
      (js "timestamp", Value (VStr sampleTimestamp));
      (js "requires3DS", Value (VBool true)) ].

(** ** Normalising the session: [checkout-info.js], lines 603-655 *)

Module CheckoutInfoNormalizer.

Definition MAX_LINE_ITEMS : nat := 10.
Definition MAX_IMAGES_PER_ITEM : nat := 3.

(** [Array.isArray(v)], and then the elements. *)
Definition arrayItems (v : JsVal) : option (list JsVal) :=
  match v with
  | VArr items => Some items
  | _ => None
  end.

(** [a ?? b] *)
Definition coalesce (a b : JsVal) : JsVal := if nullish a then b else a.

(** The equality of a [Set]: primitive values are compared by value; an
    object or an array is only equal to itself, and the objects of a parsed
    document are all distinct. *)
Definition sameValue (a b : JsVal) : bool :=
  match a, b with
  | VUndef, VUndef | VNull, VNull => true
  | VBool x, VBool y => Bool.eqb x y
  | VNum x, VNum y => x =? y
  | VStr x, VStr y => bool_decide (x = y)
  | _, _ => false
  end.

(** [Array.from(new Set(images))]: the first occurrence of every value, in
    order. *)
Fixpoint unique (seen images : list JsVal) : list JsVal :=
  match images with
  | [] => []
  | x :: rest =>
      if List.existsb (sameValue x) seen then unique seen rest
      else x :: unique (x :: seen) rest
  end.

(** The function mapped over the line items. *)
Definition normalizeLineItem (item : JsVal) : Exc JsVal :=
  doE itemImages <- getE item (js "images");
  let price := prop item (js "price") in
  let product := prop price (js "product") in
  let images :=
    default [] (arrayItems itemImages)
    ++ (if truthy price && truthy product
        then default [] (arrayItems (prop product (js "images")))
        else []) in
  let uniqueImages := List.firstn MAX_IMAGES_PER_ITEM (unique [] images) in
  let recurring :=
    if truthy price && truthy (prop price (js "recurring")) then
      obj [ (js "interval",
             orV (prop (prop price (js "recurring")) (js "interval")) VNull);
            (js "intervalCount",
             orV (prop (prop price (js "recurring")) (js "interval_count")) VNull) ]
    else VNull in
  Ok (obj
    [ (js "id", orV (prop item (js "line_item_id")) (orV (prop item (js "id")) VNull));
      (js "description", orV (prop item (js "description")) VNull);
      (js "amount", coalesce (prop item (js "amount")) VNull);
      (js "currency",
       orV (prop item (js "currency")) (orV (prop price (js "currency")) VNull));
      (js "quantity", coalesce (prop item (js "quantity")) VNull);
      (js "unitAmount", coalesce (prop price (js "unit_amount")) VNull);
      (js "priceId", orV (prop price (js "id")) VNull);
      (js "productId",
       match product with
       | VStr _ => product
       | _ => orV (prop product (js "id")) VNull
       end);
      (js "images", VArr uniqueImages);
      (js "recurring", recurring) ]).

(** [array.map(f)] for a function that may throw. *)
Fixpoint mapE {A B} (f : A -> Exc B) (l : list A) : Exc (list B) :=
  match l with
  | [] => Ok []
  | x :: rest =>
      doE y <- f x;
      doE ys <- mapE f rest;
      Ok (y :: ys)
  end.

(** [normalizeLineItems(invoice)] *)
Definition normalizeLineItems (invoice : JsVal) : Exc (list JsVal) :=
  let lines := prop invoice (js "lines") in
  if negb (truthy invoice) || negb (truthy lines) then Ok [] else
  match arrayItems (prop lines (js "data")) with
  | None => Ok []
  | Some data => mapE normalizeLineItem (List.firstn MAX_LINE_ITEMS data)
  end.

(** The double nearest to an integer, a tie going to the even significand
    of 53 bits; [None] when that double is an infinity. *)
Definition nearestDouble (x : Z) : option Z :=
  let m := Z.abs x in
  if m <? 2 ^ 53 then Some x else
  let e := Z.log2 m - 52 in
  let q := m / 2 ^ e in
  let r := m mod 2 ^ e in
  let up := (2 ^ (e - 1) <? r) || ((r =? 2 ^ (e - 1)) && Z.odd q) in
  let n := (if up then q + 1 else q) * 2 ^ e in
  if 2 ^ 1024 <=? n then None else Some (Z.sgn x * n).

(** [acc + z] for a number [z]. *)
Definition addNumber (acc : option Z) (z : Z) : option Z :=
  match acc with
  | Some a => nearestDouble (a + z)
  | None => None
  end.

(** [acc + v].  The accumulator is a finite number or ([None]) anything
    else: a string, an infinity or [NaN], each of which stays what it is
    whatever is added.  Adding a string to a number concatenates; an array
    or an object is first converted to its string. *)
Definition addValue (acc : option Z) (v : JsVal) : Exc (option Z) :=
  match v with
  | VUndef => Ok None
  | VNull => Ok (addNumber acc 0)
  | VBool b => Ok (addNumber acc (if b then 1 else 0))
  | VNum z => Ok (addNumber acc z)
  | VStr _ => Ok None
  | VArr _ | VObj _ => doE _ <- toStr v; Ok None
  end.

(** One step of the [reduce] of [sumTaxAmounts]:
    [acc + (entry.amount || 0)]. *)
Definition addTax (acc : option Z) (entry : JsVal) : Exc (option Z) :=
  doE amount <- getE entry (js "amount");
  addValue acc (orV amount (VNum 0)).

Fixpoint reduceTax (acc : option Z) (entries : list JsVal) : Exc (option Z) :=
  match entries with
  | [] => Ok acc
  | entry :: rest =>
      doE acc <- addTax acc entry;
      reduceTax acc rest
  end.

(** [sumTaxAmounts(invoice)]; [None] is [null], what [Number.isFinite]
    leaves of a total that is not a finite number. *)
Definition sumTaxAmounts (invoice : JsVal) : Exc (option Z) :=
  if negb (truthy invoice) then Ok None else
  match arrayItems (prop invoice (js "total_tax_amounts")) with
  | None => Ok None
  | Some entries => reduceTax (Some 0) entries
  end.

(** A tax entry whose amount is a number, or is missing. *)
Definition plainTaxEntry (entry : JsVal) : bool :=
  negb (nullish entry)
  && match prop entry (js "amount") with
     | VNum _ | VUndef | VNull => true
     | _ => false
     end.

(** A tax entry the [reduce] can add: it is neither [undefined] nor
    [null], and its amount converts to a string where it has to. *)
Definition addableTaxEntry (entry : JsVal) : bool :=
  negb (nullish entry) && converts (prop entry (js "amount")).

Definition taxAmountOf (entry : JsVal) : Z :=
  match prop entry (js "amount") with
  | VNum z => z
  | _ => 0
  end.

(** A tax entry whose amount is text. *)
Definition textTaxEntry (entry : JsVal) : bool :=
  match prop entry (js "amount") with
  | VStr (_ :: _) => true
  | _ => false
  end.

(** How a normalised line item relates to the raw one. *)
Definition normalizedFrom (raw item : JsVal) : Prop :=
  prop item (js "amount") = coalesce (prop raw (js "amount")) VNull
  /\ prop item (js "quantity") = coalesce (prop raw (js "quantity")) VNull
  /\ prop item (js "unitAmount")
     = coalesce (prop (prop raw (js "price")) (js "unit_amount")) VNull
  /\ exists images,
       prop item (js "images") = VArr images /\ (List.length images <= 3)%nat.

End CheckoutInfoNormalizer.
Export CheckoutInfoNormalizer.

(* ================================================================== *)
(** * Part II: properties *)
(* ================================================================== *)

(** ** Digits, [parseInt] and [String] on small numbers *)

Section SmallNumbers.

(** A property checked on every integer of a range holds on the range. *)
Lemma forall_range (P : Z -> bool) (lo hi : Z) :
  List.forallb P (map (fun k => lo + Z.of_nat k) (seq 0 (Z.to_nat (hi - lo + 1)))) = true ->
  forall z, lo <= z <= hi -> P z = true.
Proof.
  intros H z Hz.
  rewrite List.forallb_forall in H. apply H.
  apply List.in_map_iff. exists (Z.to_nat (z - lo)). split; [lia|].
  apply List.in_seq. lia.
Qed.

Lemma is_digit_range (c : N) : is_digit c = true <-> (48 <= c <= 57)%N.
Proof.
  unfold is_digit. rewrite andb_true_iff, !N.leb_le. tauto.
Qed.

Lemma digit_cases (c : N) :
  is_digit c = true -> In c [48; 49; 50; 51; 52; 53; 54; 55; 56; 57]%N.
Proof.
  rewrite is_digit_range. simpl. lia.
Qed.

Lemma parseInt_digit (c : N) :
  is_digit c = true -> parseInt [c] = Some (Z.of_N c - 48).
Proof.
  intros H. apply digit_cases in H. simpl in H.
  repeat (destruct H as [<- | H]; [reflexivity|]). contradiction.
Qed.

Lemma intToString_digit (d : Z) :
  0 <= d <= 9 -> intToString d = [Z.to_N (48 + d)].
Proof.
  intros H.
  assert (Hc : In d [0; 1; 2; 3; 4; 5; 6; 7; 8; 9]) by (simpl; lia).
  simpl in Hc.
  repeat (destruct Hc as [<- | Hc]; [reflexivity|]). contradiction.
Qed.

Lemma intToString_digit_is_digit (d : Z) :
  0 <= d <= 9 -> Forall (fun c => is_digit c = true) (intToString d).
Proof.
  intros H. rewrite intToString_digit by assumption.
  constructor; [|constructor]. apply is_digit_range. lia.
Qed.

End SmallNumbers.

(** ** The Luhn checksum *)

Section Luhn.

Lemma luhnDigit_digit (c : N) (b : bool) :
  is_digit c = true -> exists d, luhnDigit c b = Some d /\ 0 <= d <= 9.
Proof.
  intros H. unfold luhnDigit. rewrite (parseInt_digit c H).
  apply is_digit_range in H.
  destruct b; cbn [numMap2 numTest2].
  - destruct (Z.gtb_spec ((Z.of_N c - 48) * 2) 9); eexists; split;
      try reflexivity; lia.
  - eexists; split; [reflexivity | lia].
Qed.

(** On a string of digits the loop adds a non-negative amount to [sum], and
    that amount does not depend on [sum]. *)
Lemma luhnLoop_digits (l : jsstr) :
  Forall (fun c => is_digit c = true) l ->
  forall b, exists t, 0 <= t /\ forall s, luhnLoop l (Some s) b = Some (s + t).
Proof.
  induction 1 as [|c l Hc _ IH]; intros b.
  - exists 0. split; [lia|]. intros s. cbn. f_equal. lia.
  - destruct (luhnDigit_digit c b Hc) as (d & Hd & Hr).
    destruct (IH (negb b)) as (t & Ht & Hl).
    exists (d + t). split; [lia|]. intros s.
    cbn [luhnLoop]. rewrite Hd. cbn [numMap2]. rewrite Hl. f_equal. lia.
Qed.

(** Appending the check digit computed by the generator's loop
    ([shouldDouble] starts at [true]) gives a number [validateLuhn]
    accepts. *)
Lemma check_digit_validates (body : jsstr) :
  Forall (fun c => is_digit c = true) body ->
  let sum := luhnLoop (rev body) (Some 0) true in
  let checkDigit :=
    numMap2 Z.rem (numMap2 Z.sub (Some 10) (numMap2 Z.rem sum (Some 10))) (Some 10) in
  validateLuhn (body ++ numToString checkDigit) = true.
Proof.
  intros Hd sum checkDigit.
  assert (Hrev : Forall (fun c => is_digit c = true) (rev body)).
  { apply List.Forall_forall. intros x Hx. apply List.in_rev in Hx.
    revert x Hx. apply List.Forall_forall. exact Hd. }
  destruct (luhnLoop_digits (rev body) Hrev true) as (t & Ht & Hl).
  subst sum checkDigit. rewrite (Hl 0). cbn [numMap2 numToString].
  replace (0 + t) with t by lia.
  rewrite (Z.rem_mod_nonneg t 10) by lia.
  pose proof (Z.mod_pos_bound t 10 ltac:(lia)) as Hm.
  rewrite (Z.rem_mod_nonneg (10 - t mod 10) 10) by lia.
  set (k := (10 - t mod 10) mod 10).
  assert (Hk : 0 <= k <= 9) by (subst k; pose proof (Z.mod_pos_bound (10 - t mod 10) 10); lia).
  rewrite (intToString_digit k Hk).
  unfold validateLuhn. rewrite List.rev_app_distr. cbn [rev app luhnLoop].
  unfold luhnDigit at 1. rewrite parseInt_digit by (apply is_digit_range; lia).
  cbn [numMap2 negb]. rewrite Hl. cbn [numMap2 numTest2].
  apply Z.eqb_eq.
  rewrite Z.rem_mod_nonneg by lia.
  subst k. rewrite Z2N.id by lia.
  pose proof (Z.mod_pos_bound t 10).
  pose proof (Z.mod_pos_bound (10 - t mod 10) 10).
  Z.div_mod_to_equations. lia.
Qed.

End Luhn.

(** ** The generator *)

Section Generator.

Lemma randomBelow_range (rnd : nat -> Z) (i : nat) (k : Z) :
  0 < k -> 0 <= randomBelow rnd i k < k.
Proof.
  intros Hk. unfold randomBelow. apply Z.mod_pos_bound. exact Hk.
Qed.

Lemma stripNonDigits_digits (s : jsstr) :
  Forall (fun c => is_digit c = true) (stripNonDigits s).
Proof.
  apply List.Forall_forall. intros x Hx.
  apply List.filter_In in Hx. tauto.
Qed.

Lemma fillDigits_digits (rnd : nat -> Z) (fuel target : nat) :
  forall (s : jsstr) (i : nat),
    Forall (fun c => is_digit c = true) s ->
    Forall (fun c => is_digit c = true) (fst (fillDigits rnd fuel target s i)).
Proof.
  induction fuel as [|fuel IH]; intros s i Hs; cbn [fillDigits]; [exact Hs|].
  destruct (_ <? _)%nat; [|exact Hs].
  apply IH. apply List.Forall_app. split; [exact Hs|].
  apply intToString_digit_is_digit.
  pose proof (randomBelow_range rnd i 10). lia.
Qed.

(** The loop stops because the string is long enough, not because the
    rounds ran out: [targetLength] rounds are enough. *)
Lemma fillDigits_length (rnd : nat -> Z) (target : nat) :
  forall (fuel : nat) (s : jsstr) (i : nat),
    (target - 1 <= fuel + List.length s)%nat ->
    (target - 1 <= List.length (fst (fillDigits rnd fuel target s i)))%nat.
Proof.
  induction fuel as [|fuel IH]; intros s i H; cbn [fillDigits].
  - cbn [fst]. lia.
  - destruct (Nat.ltb_spec (List.length s) (target - 1)); [|cbn [fst]; lia].
    apply IH. rewrite List.length_app.
    rewrite intToString_digit by (pose proof (randomBelow_range rnd i 10); lia).
    cbn [List.length]. lia.
Qed.

(** In the years 2001-2099 the two-digit year, prefixed with [20], reads
    back as the year. *)
Lemma year_reads_back (y : Z) :
  2001 <= y <= 2099 ->
  parseInt (js "20" ++ sliceLast 2 (intToString y)) = Some y.
Proof.
  intros H.
  apply (forall_range
           (fun y => bool_decide (parseInt (js "20" ++ sliceLast 2 (intToString y)) = Some y))
           2001 2099) in H; [|vm_compute; reflexivity].
  apply bool_decide_eq_true in H. exact H.
Qed.

Lemma month_reads_back (m : Z) :
  1 <= m <= 12 -> parseInt (padStart0 2 (intToString m)) = Some m.
Proof.
  intros H.
  apply (forall_range
           (fun m => bool_decide (parseInt (padStart0 2 (intToString m)) = Some m))
           1 12) in H; [|vm_compute; reflexivity].
  apply bool_decide_eq_true in H. exact H.
Qed.

Lemma four_digits (n : Z) :
  1000 <= n <= 9999 -> List.length (intToString n) = 4%nat.
Proof.
  intros H.
  apply (forall_range (fun n => (List.length (intToString n) =? 4)%nat) 1000 9999) in H;
    [|vm_compute; reflexivity].
  apply Nat.eqb_eq in H. exact H.
Qed.

Lemma three_digits (n : Z) :
  100 <= n <= 999 -> List.length (intToString n) = 3%nat.
Proof.
  intros H.
  apply (forall_range (fun n => (List.length (intToString n) =? 3)%nat) 100 999) in H;
    [|vm_compute; reflexivity].
  apply Nat.eqb_eq in H. exact H.
Qed.

Lemma drawYear_range (rnd : nat -> Z) (i : nat) (currentYear : Z) :
  currentYear + 1 <= drawYear rnd i currentYear <= currentYear + 5.
Proof.
  unfold drawYear. pose proof (randomBelow_range rnd i 5). lia.
Qed.

Lemma drawMonth_range (rnd : nat -> Z) (i : nat) : 1 <= drawMonth rnd i <= 12.
Proof.
  unfold drawMonth. pose proof (randomBelow_range rnd i 12). lia.
Qed.

(** Whatever the prefix, the draws and the clock, the Luhn re-validation
    passes: the generator either stops before it, or goes past it with a
    number [validateLuhn] accepts. *)
Lemma generate_luhn (rnd : nat -> Z) (cy cm : Z) (bin : jsstr) :
  generateCardFromBin rnd cy cm bin <> Throw luhnFailure
  /\ forall card, generateCardFromBin rnd cy cm bin = Ok card ->
                  validateLuhn (cardNumber card) = true.
Proof.
  unfold generateCardFromBin.
  destruct (List.length bin =? 0)%nat; [split; [intros [=] | intros ? [=]]|].
  destruct (List.length (stripNonDigits bin) <? 6)%nat; [split; [intros [=] | intros ? [=]]|].
  pose proof (fillDigits_digits rnd (targetLengthOf (stripNonDigits bin))
                (targetLengthOf (stripNonDigits bin)) (stripNonDigits bin) 0
                (stripNonDigits_digits bin)) as Hd.
  destruct (fillDigits _ _ _ _ _) as [body i]. cbn [fst] in Hd.
  pose proof (check_digit_validates body Hd) as Hv. cbv zeta in Hv.
  rewrite Hv. cbn [negb].
  destruct (_ || _); [split; [intros [=] | intros ? [=]]|].
  destruct (negb _); [split; [unfold cvcMismatchMessage; intros [=] | intros ? [=]]|].
  split; [intros [=]|]. intros card [= <-]. exact Hv.
Qed.

(** With at least six digits in the prefix and a clock in 2000-2094 the
    generator returns a card; its year is the drawn year, one to five years
    ahead, and its month is the drawn month. *)
Lemma generate_ok (rnd : nat -> Z) (cy cm : Z) (bin : jsstr) :
  (6 <= List.length (stripNonDigits bin))%nat ->
  2000 <= cy <= 2094 ->
  exists card i,
    generateCardFromBin rnd cy cm bin = Ok card
    /\ expYear card = sliceLast 2 (intToString (drawYear rnd (i + 1) cy))
    /\ parseInt (js "20" ++ expYear card) = Some (drawYear rnd (i + 1) cy)
    /\ parseInt (expMonth card) = Some (drawMonth rnd i).
Proof.
  intros Hlen Hcy. unfold generateCardFromBin.
  assert (Hne : (List.length bin =? 0)%nat = false).
  { apply Nat.eqb_neq. intros H0. destruct bin; [cbn in Hlen; lia | discriminate]. }
  rewrite Hne.
  assert (Hlt : (List.length (stripNonDigits bin) <? 6)%nat = false)
    by (apply Nat.ltb_ge; exact Hlen).
  rewrite Hlt.
  pose proof (fillDigits_digits rnd (targetLengthOf (stripNonDigits bin))
                (targetLengthOf (stripNonDigits bin)) (stripNonDigits bin) 0
                (stripNonDigits_digits bin)) as Hd.
  destruct (fillDigits _ _ _ _ _) as [body i]. cbn [fst] in Hd.
  pose proof (check_digit_validates body Hd) as Hv. cbv zeta in Hv.
  rewrite Hv. cbn [negb].
  pose proof (drawYear_range rnd (i + 1) cy) as Hy.
  pose proof (drawMonth_range rnd i) as Hm.
  assert (Hsame : (drawYear rnd (i + 1) cy =? cy) = false) by (apply Z.eqb_neq; lia).
  rewrite Hsame. cbn [andb].
  rewrite year_reads_back by lia. rewrite month_reads_back by exact Hm.
  cbn [numTest2].
  assert (Hlt' : (drawYear rnd (i + 1) cy <? cy) = false) by (apply Z.ltb_ge; lia).
  rewrite Hlt', Hsame. cbn [orb andb].
  assert (Hcvc : negb
            (List.length
               (if (targetLengthOf (stripNonDigits bin) =? 15)%nat
                then intToString (randomBelow rnd (i + 2) 9000 + 1000)
                else intToString (randomBelow rnd (i + 2) 900 + 100))
             =? (if (targetLengthOf (stripNonDigits bin) =? 15)%nat then 4 else 3))%nat
          = false).
  { destruct (targetLengthOf (stripNonDigits bin) =? 15)%nat.
    - rewrite four_digits; [reflexivity|].
      pose proof (randomBelow_range rnd (i + 2) 9000). lia.
    - rewrite three_digits; [reflexivity|].
      pose proof (randomBelow_range rnd (i + 2) 900). lia. }
  rewrite Hcvc.
  eexists _, i. split; [reflexivity|]. cbn [expYear expMonth].
  split; [reflexivity|]. split; [apply year_reads_back; lia | apply month_reads_back; exact Hm].
Qed.

End Generator.

Section GeneratorClaims.

(** C5.  Whatever the prefix, the random draws and the clock,
    [generateCardFromBin] never takes its Luhn-failure branch, and every
    card it returns has a number [validateLuhn] accepts (the sum in which
    every second digit from the right is doubled is 0 modulo 10).  With at
    least six digits in the prefix (and a clock in 2000-2094) it does
    return a card. *)
Theorem generated_number_passes_luhn (rnd : nat -> Z) (currentYear currentMonth : Z)
    (bin : jsstr) :
  generateCardFromBin rnd currentYear currentMonth bin <> Throw luhnFailure
  /\ (forall card,
        generateCardFromBin rnd currentYear currentMonth bin = Ok card ->
        validateLuhn (cardNumber card) = true)
  /\ ((6 <= List.length (stripNonDigits bin))%nat ->
      2000 <= currentYear <= 2094 ->
      exists card,
        generateCardFromBin rnd currentYear currentMonth bin = Ok card
        /\ validateLuhn (cardNumber card) = true).
Proof.
  destruct (generate_luhn rnd currentYear currentMonth bin) as [Hno Hok].
  split; [exact Hno|]. split; [exact Hok|].
  intros Hlen Hcy.
  destruct (generate_ok rnd currentYear currentMonth bin Hlen Hcy) as (card & i & Hc & _).
  exists card. split; [exact Hc | apply Hok; exact Hc].
Qed.

(** C10, the claim as stated fails: with the clock in 2095 and the year
    draw at its maximum the generator builds the year 2100, keeps [00],
    reads it back as 2000 and throws its date-in-the-past error. *)
Lemma generated_expiry_past_error_reached :
  generateCardFromBin (fun _ => 4) 2095 11 (js "424242") = Throw pastFailure.
Proof. vm_compute. reflexivity. Qed.

(** C10, amended.  The drawn year is always one to five years after the
    current year, so the same-year correction is never taken.  When the
    current year is in 2000-2094 the generator never throws its
    date-in-the-past error, and from a prefix with at least six digits it
    returns a card whose two-digit year denotes a year [y] with
    [currentYear + 1 <= y <= currentYear + 5] and whose month is in 1-12. *)
Theorem generated_expiry_in_future (rnd : nat -> Z) (currentYear currentMonth : Z)
    (bin : jsstr) :
  (forall i, currentYear + 1 <= drawYear rnd i currentYear <= currentYear + 5)
  /\ (forall i, (drawYear rnd i currentYear =? currentYear) = false)
  /\ (2000 <= currentYear <= 2094 ->
      generateCardFromBin rnd currentYear currentMonth bin <> Throw pastFailure)
  /\ (2000 <= currentYear <= 2094 ->
      (6 <= List.length (stripNonDigits bin))%nat ->
      exists card y m,
        generateCardFromBin rnd currentYear currentMonth bin = Ok card
        /\ currentYear + 1 <= y <= currentYear + 5
        /\ 1 <= m <= 12
        /\ expYear card = sliceLast 2 (intToString y)
        /\ parseInt (js "20" ++ expYear card) = Some y
        /\ parseInt (expMonth card) = Some m).
Proof.
  split; [intros i; apply drawYear_range|].
  split; [intros i; apply Z.eqb_neq; pose proof (drawYear_range rnd i currentYear); lia|].
  split.
  - intros Hcy.
    destruct (Nat.le_gt_cases 6 (List.length (stripNonDigits bin))) as [Hlen | Hshort].
    + destruct (generate_ok rnd currentYear currentMonth bin Hlen Hcy) as (card & i & Hc & _).
      rewrite Hc. discriminate.
    + unfold generateCardFromBin.
      destruct (List.length bin =? 0)%nat; [discriminate|].
      apply Nat.ltb_lt in Hshort. rewrite Hshort. discriminate.
  - intros Hcy Hlen.
    destruct (generate_ok rnd currentYear currentMonth bin Hlen Hcy)
      as (card & i & Hc & Hy & Hp & Hm).
    exists card, (drawYear rnd (i + 1) currentYear), (drawMonth rnd i).
    split; [exact Hc|]. split; [apply drawYear_range|].
    split; [apply drawMonth_range|]. auto.
Qed.

End GeneratorClaims.

(** ** The literal card string *)

Section CardString.

Lemma normalizeMonth_plain (m : Z) :
  1 <= m <= 12 -> normalizeMonth (intToString m) = padStart0 2 (intToString m).
Proof.
  intros H.
  apply (forall_range
           (fun m => bool_decide (normalizeMonth (intToString m) = padStart0 2 (intToString m)))
           1 12) in H; [|vm_compute; reflexivity].
  apply bool_decide_eq_true in H. exact H.
Qed.

Lemma normalizeMonth_padded (m : Z) :
  1 <= m <= 12 ->
  normalizeMonth (padStart0 2 (intToString m)) = padStart0 2 (intToString m).
Proof.
  intros H.
  apply (forall_range
           (fun m => bool_decide (normalizeMonth (padStart0 2 (intToString m))
                                  = padStart0 2 (intToString m)))
           1 12) in H; [|vm_compute; reflexivity].
  apply bool_decide_eq_true in H. exact H.
Qed.

(** Whatever its length, the year field is reduced to its last two
    characters: the [20] put in front of a two-character year is cut off
    again. *)
Lemma normalizeYear_last_two (y : jsstr) : normalizeYear y = sliceLast 2 y.
Proof.
  unfold normalizeYear.
  destruct (Nat.eqb_spec (List.length y) 2) as [H2 | _]; [|reflexivity].
  destruct y as [|a [|b [|c y]]]; try discriminate. reflexivity.
Qed.

Lemma parseCardString_throws (s : jsstr) :
  (List.length (split 124 s) < 4)%nat -> parseCardString s = Throw cardFormatError.
Proof.
  intros H. unfold parseCardString. rewrite List.length_map.
  apply Nat.ltb_lt in H. rewrite H. reflexivity.
Qed.

Lemma parseCardString_returns (s : jsstr) :
  (4 <= List.length (split 124 s))%nat ->
  let parts := map trim (split 124 s) in
  parseCardString s =
    Ok (mkCard (stripSpaces (nth 0 parts [])) (normalizeMonth (nth 1 parts []))
               (normalizeYear (nth 2 parts [])) (nth 3 parts [])).
Proof.
  intros H parts. unfold parseCardString. rewrite List.length_map.
  apply Nat.ltb_ge in H. rewrite H. reflexivity.
Qed.

(** C8, the claim as stated fails: a string with five fields does not split
    into exactly four, yet it is accepted; the fifth field is dropped. *)
Lemma parseCardString_accepts_five_fields :
  List.length (split 124 (js "4242424242424242|5|2030|1234|extra")) = 5%nat
  /\ parseCardString (js "4242424242424242|5|2030|1234|extra")
     = Ok (mkCard (js "4242424242424242") (js "05") (js "30") (js "1234")).
Proof. split; vm_compute; reflexivity. Qed.

(** C8, amended.  [parseCardString] throws, and then its card-format
    error, exactly when the string splits into fewer than four fields at
    [|]; fields after the fourth are ignored.  On success the fields are
    trimmed, a month written as 1-12 with or without a leading zero comes
    back padded to two digits, and the year comes back as its last two
    characters.  The specification's example yields month [05] and year
    [30]. *)
Theorem parseCardString_contract :
  (forall s, (exists e, parseCardString s = Throw e)
             <-> (List.length (split 124 s) < 4)%nat)
  /\ (forall s e, parseCardString s = Throw e -> e = cardFormatError)
  /\ (forall s card,
        parseCardString s = Ok card ->
        let parts := map trim (split 124 s) in
        cardNumber card = stripSpaces (nth 0 parts [])
        /\ cvc card = nth 3 parts []
        /\ expYear card = sliceLast 2 (nth 2 parts [])
        /\ forall m, 1 <= m <= 12 ->
             nth 1 parts [] = intToString m
             \/ nth 1 parts [] = padStart0 2 (intToString m) ->
             expMonth card = padStart0 2 (intToString m))
  /\ parseCardString (js "4242424242424242|5|2030|1234")
     = Ok (mkCard (js "4242424242424242") (js "05") (js "30") (js "1234")).
Proof.
  split; [|split; [|split]].
  - intros s. split.
    + intros [e He].
      destruct (Nat.lt_ge_cases (List.length (split 124 s)) 4) as [Hlt | Hge]; [exact Hlt|].
      rewrite (parseCardString_returns s Hge) in He. discriminate.
    + intros Hlt. exists cardFormatError. apply parseCardString_throws. exact Hlt.
  - intros s e He.
    destruct (Nat.lt_ge_cases (List.length (split 124 s)) 4) as [Hlt | Hge].
    + rewrite (parseCardString_throws s Hlt) in He. congruence.
    + rewrite (parseCardString_returns s Hge) in He. discriminate.
  - intros s card Hc parts.
    destruct (Nat.lt_ge_cases (List.length (split 124 s)) 4) as [Hlt | Hge].
    + rewrite (parseCardString_throws s Hlt) in Hc. discriminate.
    + rewrite (parseCardString_returns s Hge) in Hc. injection Hc as <-.
      cbn [cardNumber cvc expYear expMonth]. fold parts.
      split; [reflexivity|]. split; [reflexivity|].
      split; [apply normalizeYear_last_two|].
      intros m Hm [-> | ->];
        [apply normalizeMonth_plain | apply normalizeMonth_padded]; exact Hm.
  - vm_compute. reflexivity.
Qed.

End CardString.

(** ** Decline reasons *)

Section DeclineReasonTable.

Lemma declineReasonEntries_nodup : NoDup (declineReasonEntries.*1).
Proof. apply (bool_decide_unpack _). vm_compute. exact I. Qed.

Lemma DeclineReasons_lookup (code text : jsstr) :
  DeclineReasons !! code = Some text <-> (code, text) ∈ declineReasonEntries.
Proof.
  unfold DeclineReasons. symmetry.
  apply elem_of_list_to_map. exact declineReasonEntries_nodup.
Qed.

(** C9, the claim as stated fails: [fraudulent] and [pickup_card] have no
    entry in [DeclineReasons] and get the generic message, like any unknown
    code. *)
Lemma getDeclineReason_fraudulent_is_generic :
  getDeclineReason (js "fraudulent") = Text (js "Unknown decline reason")
  /\ getDeclineReason (js "pickup_card") = Text (js "Unknown decline reason")
  /\ getDeclineReason (js "no_such_code") = Text (js "Unknown decline reason").
Proof. repeat split; vm_compute; reflexivity. Qed.

(** C9, amended.  [getDeclineReason] maps each of the fourteen codes of
    [DeclineReasons] (among them [card_declined], [insufficient_funds],
    [expired_card] and [incorrect_cvc]) to its own text, which is never the
    generic message; [card_declined] gives "Card was declined by the
    issuer".  Every other code gets the one generic message "Unknown
    decline reason", unless it names a member inherited from
    [Object.prototype].  [fraudulent] and [pickup_card] are among the other
    codes: only the table [DECLINE_CODES] of the enhanced handler has texts
    for them. *)
Theorem getDeclineReason_vocabulary :
  getDeclineReason (js "card_declined") = Text (js "Card was declined by the issuer")
  /\ getDeclineReason (js "insufficient_funds") = Text (js "Insufficient funds")
  /\ getDeclineReason (js "expired_card") = Text (js "Card has expired")
  /\ getDeclineReason (js "incorrect_cvc") = Text (js "Incorrect CVC provided")
  /\ (forall code text,
        (code, text) ∈ declineReasonEntries ->
        getDeclineReason code = Text text /\ text <> unknownDeclineReason)
  /\ (forall code,
        code ∉ declineReasonEntries.*1 ->
        code ∉ objectPrototypeMembers ->
        getDeclineReason code = Text unknownDeclineReason)
  /\ List.length declineReasonEntries = 14%nat
  /\ (js "fraudulent" ∉ declineReasonEntries.*1)
  /\ (js "pickup_card" ∉ declineReasonEntries.*1)
  /\ DECLINE_CODES !! js "fraudulent" = Some (js "The card has been flagged as fraudulent")
  /\ DECLINE_CODES !! js "pickup_card" = Some (js "The card must be picked up")
  /\ DECLINE_CODES !! js "card_declined" = Some (js "Card was declined by the issuer").
Proof.
  repeat match goal with |- _ = _ /\ _ => split; [vm_compute; reflexivity|] end.
  split.
  { intros code text Hin. unfold declineReasonEntries in Hin.
    repeat (apply elem_of_cons in Hin as [[= -> ->] | Hin];
            [split; [vm_compute; reflexivity | vm_compute; discriminate]|]).
    apply elem_of_nil in Hin. contradiction. }
  split.
  { intros code Hout Hproto. unfold getDeclineReason, lookupTable.
    destruct (DeclineReasons !! code) as [text|] eqn:Hl.
    - exfalso. apply Hout. apply DeclineReasons_lookup in Hl.
      apply list_elem_of_fmap. exists (code, text). split; [reflexivity | exact Hl].
    - rewrite bool_decide_eq_false_2 by exact Hproto. reflexivity. }
  split; [reflexivity|].
  split; [apply (bool_decide_unpack _); vm_compute; exact I|].
  split; [apply (bool_decide_unpack _); vm_compute; exact I|].
  repeat split; vm_compute; reflexivity.
Qed.

End DeclineReasonTable.

(** ** The checkout URL parser *)

Section UrlParser.

(** A property checked on every natural number below a bound holds below
    the bound. *)
Lemma forall_below (P : N -> bool) (n : nat) :
  List.forallb P (map N.of_nat (seq 0 n)) = true ->
  forall v, (v < N.of_nat n)%N -> P v = true.
Proof.
  intros H v Hv. rewrite List.forallb_forall in H. apply H.
  apply List.in_map_iff. exists (N.to_nat v). split; [lia|].
  apply List.in_seq. lia.
Qed.

(** *** [decodeURIComponent] leaves a string without [%] alone *)

Lemma decodeRounds_plain (s : jsstr) :
  ~ In 37%N s ->
  forall fuel, (List.length s <= fuel)%nat -> decodeRounds fuel s = Ok s.
Proof.
  induction s as [|c s IH]; intros Hno fuel Hfuel.
  - destruct fuel; reflexivity.
  - destruct fuel as [|fuel]; [cbn in Hfuel; lia|].
    cbn [decodeRounds].
    destruct (N.eqb_spec c 37) as [-> | _]; [exfalso; apply Hno; left; reflexivity|].
    rewrite IH; [reflexivity | intros Hin; apply Hno; right; exact Hin | cbn in Hfuel; lia].
Qed.

Lemma decodeURIComponent_plain (s : jsstr) :
  ~ In 37%N s -> decodeURIComponent s = Ok s.
Proof.
  intros H. apply decodeRounds_plain; [exact H | lia].
Qed.

(** *** Base64 *)

Lemma unbase64_base64Char (v : N) :
  (v < 64)%N -> unbase64 (base64Char v mod 256) = Some v.
Proof.
  intros H.
  apply (forall_below (fun v => bool_decide (unbase64 (base64Char v mod 256) = Some v)) 64)
    in H; [|vm_compute; reflexivity].
  apply bool_decide_eq_true in H. exact H.
Qed.

Lemma base64Char_plain (v : N) : (v < 64)%N -> base64Char v <> 37%N.
Proof.
  intros H.
  apply (forall_below (fun v => negb (base64Char v =? 37)%N) 64) in H;
    [|vm_compute; reflexivity].
  apply negb_true_iff, N.eqb_neq in H. exact H.
Qed.

Lemma sextets_base64Char (v : N) (rest : jsstr) :
  (v < 64)%N -> sextets (base64Char v :: rest) = v :: sextets rest.
Proof.
  intros H. cbn [sextets]. cbv zeta. rewrite (unbase64_base64Char v H). reflexivity.
Qed.

Lemma sextets_padding (rest : jsstr) : sextets (61%N :: rest) = [].
Proof. reflexivity. Qed.

Lemma sextet_bounds (a b c : N) :
  (a < 256)%N -> (b < 256)%N -> (c < 256)%N ->
  (a / 4 < 64 /\ (a mod 4) * 16 + b / 16 < 64 /\ (b mod 16) * 4 + c / 64 < 64
   /\ c mod 64 < 64 /\ (a mod 4) * 16 < 64 /\ (b mod 16) * 4 < 64)%N.
Proof.
  intros. repeat split; zify; Z.to_euclidean_division_equations; lia.
Qed.

Lemma three_bytes_back (a b c : N) :
  (a < 256)%N -> (b < 256)%N -> (c < 256)%N ->
  ((a / 4) * 4 + ((a mod 4) * 16 + b / 16) / 16 = a
   /\ (((a mod 4) * 16 + b / 16) mod 16) * 16 + ((b mod 16) * 4 + c / 64) / 4 = b
   /\ (((b mod 16) * 4 + c / 64) mod 4) * 64 + c mod 64 = c)%N.
Proof.
  intros. repeat split; zify; Z.to_euclidean_division_equations; lia.
Qed.

Lemma one_byte_back (a : N) :
  (a < 256)%N -> ((a / 4) * 4 + ((a mod 4) * 16) / 16 = a)%N.
Proof.
  intros. zify; Z.to_euclidean_division_equations; lia.
Qed.

Lemma two_bytes_back (a b : N) :
  (a < 256)%N -> (b < 256)%N ->
  ((a / 4) * 4 + ((a mod 4) * 16 + b / 16) / 16 = a
   /\ (((a mod 4) * 16 + b / 16) mod 16) * 16 + ((b mod 16) * 4) / 4 = b)%N.
Proof.
  intros. split; zify; Z.to_euclidean_division_equations; lia.
Qed.

(** Decoding what the standard encoder produced gives the bytes back. *)
Lemma base64_roundtrip (n : nat) :
  forall bytes,
    (List.length bytes <= n)%nat ->
    Forall (fun b => (b < 256)%N) bytes ->
    bufferFromBase64 (base64Encode bytes) = bytes.
Proof.
  unfold bufferFromBase64.
  induction n as [n IH] using (well_founded_induction lt_wf).
  intros bytes Hlen Hb.
  destruct bytes as [|a [|b [|c rest]]].
  - reflexivity.
  - inversion Hb as [|? ? Ha _]; subst.
    destruct (sextet_bounds a 0 0 Ha ltac:(lia) ltac:(lia)) as (H1 & _ & _ & _ & H5 & _).
    cbn [base64Encode]. rewrite !sextets_base64Char by assumption.
    rewrite sextets_padding. cbn [bytesOfSextets].
    rewrite (one_byte_back a Ha). reflexivity.
  - inversion Hb as [|? ? Ha Hb']; subst. inversion Hb' as [|? ? Hb0 _]; subst.
    destruct (sextet_bounds a b 0 Ha Hb0 ltac:(lia)) as (H1 & H2 & _ & _ & _ & H6).
    cbn [base64Encode]. rewrite !sextets_base64Char by assumption.
    rewrite sextets_padding. cbn [bytesOfSextets].
    destruct (two_bytes_back a b Ha Hb0) as (E1 & E2).
    rewrite E1, E2. reflexivity.
  - inversion Hb as [|? ? Ha Hb']; subst. inversion Hb' as [|? ? Hb0 Hb'']; subst.
    inversion Hb'' as [|? ? Hc Hrest]; subst.
    destruct (sextet_bounds a b c Ha Hb0 Hc) as (H1 & H2 & H3 & H4 & _).
    cbn [base64Encode]. rewrite !sextets_base64Char by assumption.
    cbn [bytesOfSextets].
    destruct (three_bytes_back a b c Ha Hb0 Hc) as (E1 & E2 & E3).
    rewrite E1, E2, E3. do 3 f_equal.
    apply (IH (List.length rest)); [cbn in Hlen; lia | lia | exact Hrest].
Qed.

Lemma base64Encode_plain (n : nat) :
  forall bytes,
    (List.length bytes <= n)%nat ->
    Forall (fun b => (b < 256)%N) bytes ->
    ~ In 37%N (base64Encode bytes).
Proof.
  induction n as [n IH] using (well_founded_induction lt_wf).
  intros bytes Hlen Hb Hin.
  destruct bytes as [|a [|b [|c rest]]].
  - exact Hin.
  - inversion Hb as [|? ? Ha _]; subst.
    destruct (sextet_bounds a 0 0 Ha ltac:(lia) ltac:(lia)) as (H1 & _ & _ & _ & H5 & _).
    cbn [base64Encode In] in Hin.
    destruct Hin as [E | [E | [E | [E | []]]]]; try discriminate;
      [apply (base64Char_plain _ H1) | apply (base64Char_plain _ H5)]; exact E.
  - inversion Hb as [|? ? Ha Hb']; subst. inversion Hb' as [|? ? Hb0 _]; subst.
    destruct (sextet_bounds a b 0 Ha Hb0 ltac:(lia)) as (H1 & H2 & _ & _ & _ & H6).
    cbn [base64Encode In] in Hin.
    destruct Hin as [E | [E | [E | [E | []]]]]; try discriminate;
      [apply (base64Char_plain _ H1) | apply (base64Char_plain _ H2)
       | apply (base64Char_plain _ H6)]; exact E.
  - inversion Hb as [|? ? Ha Hb']; subst. inversion Hb' as [|? ? Hb0 Hb'']; subst.
    inversion Hb'' as [|? ? Hc Hrest]; subst.
    destruct (sextet_bounds a b c Ha Hb0 Hc) as (H1 & H2 & H3 & H4 & _).
    cbn [base64Encode In] in Hin.
    destruct Hin as [E | [E | [E | [E | Hin]]]];
      [apply (base64Char_plain _ H1) | apply (base64Char_plain _ H2)
       | apply (base64Char_plain _ H3) | apply (base64Char_plain _ H4) | ]; try exact E.
    apply (IH (List.length rest)) in Hin; [exact Hin | cbn in Hlen; lia | lia | exact Hrest].
Qed.

(** *** The XOR *)

Lemma xor_key_byte (b : N) : (b < 256)%N -> (N.lxor b XOR_KEY < 256)%N.
Proof.
  intros H.
  apply (forall_below (fun b => (N.lxor b XOR_KEY <? 256)%N) 256) in H;
    [|vm_compute; reflexivity].
  apply N.ltb_lt in H. exact H.
Qed.

Lemma xorChars_involutive (payload : jsstr) :
  xorChars (map (fun byte => N.lxor byte XOR_KEY) payload) = payload.
Proof.
  unfold xorChars. rewrite List.map_map.
  rewrite <- (List.map_id payload) at 2. apply List.map_ext. intros b.
  rewrite N.lxor_assoc, N.lxor_nilpotent, N.lxor_0_r. reflexivity.
Qed.

(** *** The regular expressions and the fragment separator *)

Lemma startsWith_app_stop (literal : jsstr) (stop : N) (rest : jsstr) :
  ~ In stop literal ->
  forall t, startsWith (t ++ stop :: rest) literal = startsWith t literal.
Proof.
  induction literal as [|a literal IH]; intros Hno t.
  - destruct t; reflexivity.
  - destruct t as [|b t]; cbn [app startsWith].
    + destruct (N.eqb_spec a stop) as [-> | _]; [|reflexivity].
      exfalso. apply Hno. left. reflexivity.
    + rewrite IH; [reflexivity|]. intros Hin. apply Hno. right. exact Hin.
Qed.

Lemma startsWith_length (literal : jsstr) :
  forall t, startsWith t literal = true -> (List.length literal <= List.length t)%nat.
Proof.
  induction literal as [|a literal IH]; intros t H; [cbn; lia|].
  destruct t as [|b t]; [discriminate|].
  cbn [startsWith] in H. apply andb_true_iff in H as [_ H].
  apply IH in H. cbn. lia.
Qed.

Lemma takeWhile_app_stop (class : N -> bool) (stop : N) (rest : jsstr) :
  class stop = false ->
  forall u, takeWhile class (u ++ stop :: rest) = takeWhile class u.
Proof.
  intros Hstop. induction u as [|c u IH]; cbn [app takeWhile].
  - rewrite Hstop. reflexivity.
  - destruct (class c); [rewrite IH|]; reflexivity.
Qed.

Lemma literalThenClass_app_stop (literal : jsstr) (class : N -> bool) (stop : N)
    (rest t : jsstr) :
  ~ In stop literal -> class stop = false ->
  literalThenClass literal class (t ++ stop :: rest) = literalThenClass literal class t.
Proof.
  intros Hno Hstop. unfold literalThenClass.
  rewrite (startsWith_app_stop literal stop rest Hno t).
  destruct (startsWith t literal) eqn:Hs; [|reflexivity].
  apply startsWith_length in Hs.
  rewrite List.skipn_app.
  replace (List.length literal - List.length t)%nat with 0%nat by lia.
  cbn [List.skipn]. rewrite (takeWhile_app_stop class stop rest Hstop). reflexivity.
Qed.

(** A [#] can neither start nor continue a session identifier. *)
Lemma sessionAt_app_hash (t rest : jsstr) :
  sessionAt (t ++ 35%N :: rest) = sessionAt t.
Proof.
  unfold sessionAt.
  rewrite !literalThenClass_app_stop;
    [reflexivity | | reflexivity | | reflexivity];
    (apply (bool_decide_unpack _); vm_compute; exact I).
Qed.

Lemma firstMatch_unfold (anchored : jsstr -> option jsstr) (s : jsstr) :
  firstMatch anchored s =
    match anchored s with
    | Some m => Some m
    | None =>
        match s with
        | [] => None
        | _ :: rest => firstMatch anchored rest
        end
    end.
Proof. destruct s; reflexivity. Qed.

Lemma matchSession_app_hash (base rest sid : jsstr) :
  matchSession base = Some sid -> matchSession (base ++ 35%N :: rest) = Some sid.
Proof.
  unfold matchSession. induction base as [|c base IH]; intros H;
    rewrite firstMatch_unfold in H; rewrite firstMatch_unfold;
    rewrite sessionAt_app_hash.
  - destruct (sessionAt []); [exact H | discriminate].
  - destruct (sessionAt (c :: base)); [exact H|].
    cbn [app]. apply IH. exact H.
Qed.

Lemma indexOf_app (x : N) (base rest : jsstr) :
  ~ In x base -> indexOf x (base ++ x :: rest) = Some (List.length base).
Proof.
  induction base as [|c base IH]; intros Hno; cbn [app indexOf List.length].
  - rewrite N.eqb_refl. reflexivity.
  - destruct (N.eqb_spec c x) as [-> | _]; [exfalso; apply Hno; left; reflexivity|].
    rewrite IH; [reflexivity|]. intros Hin. apply Hno. right. exact Hin.
Qed.

Lemma skipn_past (base rest : jsstr) (x : N) :
  List.skipn (List.length base + 1) (base ++ x :: rest) = rest.
Proof.
  induction base as [|c base IH]; [reflexivity|]. cbn. exact IH.
Qed.

End UrlParser.

Section UrlParserClaims.

(** C6, the claim as stated fails: the base contains a session identifier
    and the payload a publishable key, but the base also carries an escaped
    [#] ([%23]).  The URL is percent-decoded before it is cut at the first
    [#], so the fragment starts inside the base and the key is lost. *)
Lemma parseCheckoutUrl_escaped_hash_loses_key :
  matchSession escapedHashBase = Some (js "cs_test_abc")
  /\ matchPublicKey samplePayload = Some (js "pk_test_51Hxyz")
  /\ parseCheckoutUrl (buildCheckoutUrl escapedHashBase samplePayload)
     = Ok (mkParsedUrl (Some (js "cs_test_abc")) None None).
Proof. repeat split; vm_compute; reflexivity. Qed.

(** C6, amended.  For a base that contains neither [#] nor [%] and a payload
    of bytes, [parseCheckoutUrl] applied to
    [base + '#' + base64(payload XOR 5)] returns the session identifier the
    session expression finds in the base and the publishable key the key
    expression finds in the payload (and the site found in the payload). *)
Theorem parseCheckoutUrl_roundtrip (base payload sid pk : jsstr) :
  35%N ∉ base ->
  37%N ∉ base ->
  Forall (fun b => (b < 256)%N) payload ->
  matchSession base = Some sid ->
  matchPublicKey payload = Some pk ->
  parseCheckoutUrl (buildCheckoutUrl base payload)
  = Ok (mkParsedUrl (Some sid) (Some pk) (matchSite payload)).
Proof.
  intros Hhash Hpct Hbytes Hsid Hpk.
  rewrite list_elem_of_In in Hhash, Hpct.
  set (bytes := map (fun byte => N.lxor byte XOR_KEY) payload).
  assert (Hb : Forall (fun b => (b < 256)%N) bytes).
  { apply List.Forall_forall. intros b Hin. apply List.in_map_iff in Hin as (b0 & <- & Hin0).
    apply xor_key_byte. revert b0 Hin0. apply List.Forall_forall. exact Hbytes. }
  assert (Hplain : ~ In 37%N (base64Encode bytes))
    by (apply (base64Encode_plain (List.length bytes)); [lia | exact Hb]).
  unfold parseCheckoutUrl, buildCheckoutUrl. fold bytes.
  assert (Hlen : (List.length (base ++ 35%N :: base64Encode bytes) =? 0)%nat = false).
  { apply Nat.eqb_neq. rewrite List.length_app. cbn. lia. }
  rewrite Hlen.
  rewrite decodeURIComponent_plain.
  2:{ intros Hin. apply List.in_app_or in Hin as [Hin | [Hin | Hin]];
        [apply Hpct; exact Hin | discriminate | apply Hplain; exact Hin]. }
  cbn [try_catch bindE].
  rewrite (matchSession_app_hash base _ sid Hsid).
  rewrite (indexOf_app 35 base _ Hhash). rewrite skipn_past.
  unfold decodeFragment. rewrite (decodeURIComponent_plain _ Hplain).
  cbn [bindE try_catch].
  rewrite (base64_roundtrip (List.length bytes) bytes (le_n _) Hb).
  subst bytes. rewrite xorChars_involutive. cbn [fst snd]. rewrite Hpk. reflexivity.
Qed.

Lemma parseCheckoutUrl_roundtrip_witness :
  parseCheckoutUrl sampleUrl
  = Ok (mkParsedUrl (Some (js "cs_test_a1B2")) (Some (js "pk_test_51Hxyz"))
          (matchSite samplePayload)).
Proof.
  apply (parseCheckoutUrl_roundtrip sampleBase samplePayload).
  - apply (bool_decide_unpack _). vm_compute. exact I.
  - apply (bool_decide_unpack _). vm_compute. exact I.
  - apply (bool_decide_unpack _). vm_compute. exact I.
  - vm_compute. reflexivity.
  - vm_compute. reflexivity.
Defined.

(** C7.  For every string [parseCheckoutUrl] returns an object and never
    throws.  Its [sessionId] is what the session expression finds in the
    percent-decoded URL (in the URL itself when decoding fails), [null]
    when it finds nothing.  Without a [#], or when decoding the fragment
    fails, [publicKey] and [site] are [null]; otherwise each is what its
    expression finds in the deobfuscated payload, [null] when it finds
    nothing. *)
Theorem parseCheckoutUrl_never_throws (checkoutUrl : jsstr) :
  exists parsed,
    parseCheckoutUrl checkoutUrl = Ok parsed
    /\ (checkoutUrl = [] -> parsed = mkParsedUrl None None None)
    /\ (checkoutUrl <> [] ->
        let decoded :=
          match decodeURIComponent checkoutUrl with
          | Ok d => d
          | Throw _ => checkoutUrl
          end in
        sessionId parsed = matchSession decoded
        /\ (indexOf 35 decoded = None -> publicKey parsed = None /\ site parsed = None)
        /\ (forall i e,
              indexOf 35 decoded = Some i ->
              decodeURIComponent (List.skipn (i + 1) decoded) = Throw e ->
              publicKey parsed = None /\ site parsed = None)
        /\ (forall i fragment,
              indexOf 35 decoded = Some i ->
              decodeURIComponent (List.skipn (i + 1) decoded) = Ok fragment ->
              let payload := xorChars (bufferFromBase64 fragment) in
              publicKey parsed = matchPublicKey payload
              /\ site parsed = matchSite payload)).
Proof.
  unfold parseCheckoutUrl.
  destruct checkoutUrl as [|c rest].
  - eexists. split; [reflexivity|]. split; [reflexivity | congruence].
  - cbn [List.length Nat.eqb].
    set (url := c :: rest).
    destruct (decodeURIComponent url) as [d | e0]; cbn [try_catch bindE].
    all: match goal with
         | |- context [indexOf 35%N ?u] =>
             destruct (indexOf 35%N u) as [i|] eqn:Hi;
             [ unfold decodeFragment;
               destruct (decodeURIComponent (List.skipn (i + 1) u)) as [f | e1] eqn:Hf;
               cbn [try_catch bindE]
             | ]
         end.
    all: eexists; split; [reflexivity|]; split; [discriminate|]; intros _;
      cbv zeta; cbn [sessionId publicKey site fst snd];
      split; [reflexivity|]; split; [intros; try discriminate; split; reflexivity|];
      split; intros j x Hj Hx; try discriminate;
      try (injection Hj as <-; rewrite Hf in Hx; try discriminate;
           try (injection Hx as <-)); split; reflexivity.
Qed.

End UrlParserClaims.

(** ** The attempt engine *)

Section EngineFacts.

(** *** Rules for [Runs] *)

Lemma runs_ret {A} (a : A) (Q : Exc A -> list Event -> Prop) :
  Q (Ok a) [] -> Runs (ret a) Q.
Proof.
  intros H log. exists (Ok a), []. split; [|exact H].
  unfold ret. rewrite List.app_nil_r. reflexivity.
Qed.

Lemma runs_throw {A} (e : exn) (Q : Exc A -> list Event -> Prop) :
  Q (Throw e) [] -> Runs (throw e) Q.
Proof.
  intros H log. exists (Throw e), []. split; [|exact H].
  unfold throw. rewrite List.app_nil_r. reflexivity.
Qed.

Lemma runs_weaken {A} (m : M A) (P Q : Exc A -> list Event -> Prop) :
  Runs m P -> (forall res evs, P res evs -> Q res evs) -> Runs m Q.
Proof.
  intros Hm HPQ log. destruct (Hm log) as (res & evs & E & HP).
  exists res, evs. split; [exact E | apply HPQ; exact HP].
Qed.

Lemma runs_bind {A B} (m : M A) (k : A -> M B)
    (P : Exc A -> list Event -> Prop) (Q : Exc B -> list Event -> Prop) :
  Runs m P ->
  (forall a evs1, P (Ok a) evs1 -> Runs (k a) (fun res evs2 => Q res (evs1 ++ evs2))) ->
  (forall e evs1, P (Throw e) evs1 -> Q (Throw e) evs1) ->
  Runs (bindM m k) Q.
Proof.
  intros Hm Hk He log. unfold bindM.
  destruct (Hm log) as ([a | e] & evs1 & E & HP); rewrite E.
  - destruct (Hk a evs1 HP (log ++ evs1)) as (res & evs2 & E2 & HQ).
    exists res, (evs1 ++ evs2). split; [|exact HQ].
    rewrite E2, List.app_assoc. reflexivity.
  - exists (Throw e), evs1. split; [reflexivity | apply He; exact HP].
Qed.

Lemma runs_bind_liftE {A B} (r : Exc A) (k : A -> M B)
    (Q : Exc B -> list Event -> Prop) :
  (forall a, r = Ok a -> Runs (k a) Q) ->
  (forall e, r = Throw e -> Q (Throw e) []) ->
  Runs (bindM (liftE r) k) Q.
Proof.
  intros Hk He log. unfold bindM, liftE. destruct r as [a | e].
  - apply Hk. reflexivity.
  - exists (Throw e), []. split; [rewrite List.app_nil_r; reflexivity | apply He; reflexivity].
Qed.

Lemma runs_bind_call {A B} (ev : Event) (r : Exc A) (k : A -> M B)
    (Q : Exc B -> list Event -> Prop) :
  (forall a, r = Ok a -> Runs (k a) (fun res evs => Q res (ev :: evs))) ->
  (forall e, r = Throw e -> Q (Throw e) [ev]) ->
  Runs (bindM (call ev r) k) Q.
Proof.
  intros Hk He log. unfold bindM, call. destruct r as [a | e].
  - destruct (Hk a eq_refl (log ++ [ev])) as (res & evs & E & HQ).
    exists res, (ev :: evs). split; [|exact HQ].
    rewrite E, <- List.app_assoc. reflexivity.
  - exists (Throw e), [ev]. split; [reflexivity | apply He; reflexivity].
Qed.

Lemma runs_bind_ret {A B} (a : A) (k : A -> M B) (Q : Exc B -> list Event -> Prop) :
  Runs (k a) Q -> Runs (bindM (ret a) k) Q.
Proof. intros H. exact H. Qed.

Lemma runs_bind_assoc {A B C} (m : M A) (f : A -> M B) (k : B -> M C)
    (Q : Exc C -> list Event -> Prop) :
  Runs (bindM m (fun x => bindM (f x) k)) Q -> Runs (bindM (bindM m f) k) Q.
Proof.
  intros H log. destruct (H log) as (res & evs & E & HQ).
  exists res, evs. split; [|exact HQ]. rewrite <- E.
  unfold bindM. destruct (m log) as [[a | e] log']; reflexivity.
Qed.

Lemma runs_try {A} (body : M A) (handler : exn -> M A)
    (P Q : Exc A -> list Event -> Prop) :
  Runs body P ->
  (forall a evs, P (Ok a) evs -> Q (Ok a) evs) ->
  (forall e evs1, P (Throw e) evs1 ->
     Runs (handler e) (fun res evs2 => Q res (evs1 ++ evs2))) ->
  Runs (tryM body handler) Q.
Proof.
  intros Hb Hok Hh log. unfold tryM.
  destruct (Hb log) as ([a | e] & evs1 & E & HP); rewrite E.
  - exists (Ok a), evs1. split; [reflexivity | apply Hok; exact HP].
  - destruct (Hh e evs1 HP (log ++ evs1)) as (res & evs2 & E2 & HQ).
    exists res, (evs1 ++ evs2). split; [|exact HQ].
    rewrite E2, List.app_assoc. reflexivity.
Qed.

(** *** Counting calls *)

Lemma countIf_app (p : Event -> bool) (a b : list Event) :
  countIf p (a ++ b) = countIf p a + countIf p b.
Proof.
  unfold countIf. rewrite List.filter_app, List.length_app. lia.
Qed.

Lemma countIf_nonneg (p : Event -> bool) (a : list Event) : 0 <= countIf p a.
Proof. unfold countIf. lia. Qed.

Lemma countIf_cons (p : Event -> bool) (e : Event) (l : list Event) :
  countIf p (e :: l) = (if p e then 1 else 0) + countIf p l.
Proof. unfold countIf. cbn [List.filter]. destruct (p e); cbn [List.length]; lia. Qed.

Lemma countIf_nil (p : Event -> bool) : countIf p [] = 0.
Proof. reflexivity. Qed.

Create Rewrite HintDb counting.
#[local] Hint Rewrite countIf_app countIf_cons countIf_nil : counting.

(** Bounds on the calls of a list of events built from conses and appends. *)
#[local] Ltac count :=
  unfold atMost in *;
  autorewrite with counting in *;
  cbn [isCreate isConfirm isReconfirm] in *;
  repeat match goal with
         | |- context [countIf ?p ?l] =>
             pose proof (countIf_nonneg p l);
             generalize dependent (countIf p l); intros
         end;
  lia.

(** One step of symbolic execution of a computation without calls. *)
#[local] Ltac run_step :=
  cbv beta iota;
  lazymatch goal with
  | |- Runs (bindM (liftE _) _) _ => apply runs_bind_liftE; [intros ? _ | intros ? _]
  | |- Runs (bindM (ret _) _) _ => apply runs_bind_ret
  | |- Runs (bindM (bindM _ _) _) _ => apply runs_bind_assoc
  | |- Runs (bindM (if ?c then _ else _) _) _ => destruct c
  | |- Runs (if ?c then _ else _) _ => destruct c
  | |- Runs (ret _) _ => apply runs_ret
  end.

Lemma decideOutcome_runs (attempts : Z) (currentCard : JsVal) (pm : HttpResponse)
    (confirmStatus : Z) (responseData : JsVal) :
  Runs (decideOutcome attempts currentCard pm confirmStatus responseData)
       (DecideQ attempts).
Proof.
  unfold decideOutcome.
  repeat run_step.
  all: split; [reflexivity|]; intros r Hr.
  all: try discriminate Hr.
  all: injection Hr as <-; vm_compute; reflexivity.
Qed.

(** The recovery makes no create call, no first confirm and at most one
    corrective confirm. *)
Lemma recoverAmount_runs (w : World) (expectedAmount attempts : Z)
    (paymentMethodId responseData : JsVal) :
  Runs (recoverAmount w expectedAmount attempts paymentMethodId responseData)
       (fun _ evs => atMost 0 0 1 evs).
Proof.
  unfold recoverAmount.
  repeat run_step.
  all: try count.
  apply runs_bind_call; [intros info _ | intros e _; count].
  repeat run_step.
  all: try count.
  apply runs_bind_call; [intros retry _ | intros e _; count].
  repeat run_step. count.
Qed.

(** An iteration catches every exception and is one cycle: one create, at
    most one confirm, at most one corrective confirm. *)
Lemma iteration_runs (w : World) (expectedAmount attempts : Z) (currentCard : JsVal) :
  Runs (iteration w expectedAmount attempts currentCard) (IterationQ attempts).
Proof.
  unfold iteration.
  apply (runs_try _ _
           (fun res evs =>
              atMost 1 1 1 evs
              /\ forall r, res = Ok (Return r) ->
                           getE r (js "attempts") = Ok (VNum attempts))).
  - apply runs_bind_call; [intros pm _ | intros e _; split; [count | discriminate]].
    repeat run_step.
    all: try (split; [count | discriminate]).
    all: apply runs_bind_call;
      [intros confirm _ | intros e _; split; [count | discriminate]].
    all: eapply runs_bind; [apply recoverAmount_runs | | ].
    all: cbv beta.
    all: try (intros e evs1 H1; split; [count | discriminate]).
    all: intros rd evs1 H1; eapply runs_weaken; [apply decideOutcome_runs|].
    all: intros res evs2 [-> Hres]; split; [count | exact Hres].
  - intros a evs [Hc Hr]. split; [eexists; reflexivity|]. split; assumption.
  - intros e evs1 [Hc _]. apply runs_ret. split; [eexists; reflexivity|].
    split; [rewrite List.app_nil_r; exact Hc | discriminate].
Qed.

Lemma currentCardOf_runs (card : CardArg) (attempts : Z) :
  Runs (currentCardOf card attempts) (fun _ evs => atMost 0 0 0 evs).
Proof.
  unfold currentCardOf. destruct card as [c | make].
  - apply runs_ret. count.
  - intros log. unfold call. exists (make attempts), [EvCard attempts].
    split; [reflexivity | count].
Qed.

(** [attempts: result.attempts || 1] *)
Lemma createDetailedResponse_attempts (ts : jsstr) (attempts : Z) (error : JsVal) :
  getE (createDetailedResponse ts attempts error) (js "attempts")
  = Ok (VNum (if attempts =? 0 then 1 else attempts)).
Proof.
  unfold createDetailedResponse.
  destruct (truthy error); destruct (attempts =? 0); vm_compute; reflexivity.
Qed.

(** The loop invariant: entered with [attempts <= retries + 1] and fuel for
    the rounds left, the loop ends within [retries + 1 - attempts] cycles. *)
Lemma attemptLoop_runs (w : World) (card : CardArg) (retries expectedAmount : Z) :
  0 <= retries ->
  forall (fuel : nat) (att : Z) (lastError : JsVal),
    0 <= att <= retries + 1 ->
    retries + 1 - att <= Z.of_nat fuel ->
    Runs (attemptLoop w card retries expectedAmount fuel att lastError)
         (LoopQ retries att).
Proof.
  intros Hr. induction fuel as [|fuel IH]; intros att lastError Hatt Hfuel;
    cbn [attemptLoop]; destruct (Z.leb_spec att retries) as [Hle | Hgt].
  - lia.
  - apply runs_ret. split; [discriminate|]. split; [count|].
    intros r [= <-]. eexists. split; [apply createDetailedResponse_attempts|].
    destruct (Z.eqb_spec att 0); lia.
  - eapply runs_bind; [apply currentCardOf_runs | | ].
    + intros currentCard evs0 H0. cbv beta.
      eapply runs_bind; [apply iteration_runs | | ].
      * intros step evs1 (_ & H1 & Hret). cbv beta.
        destruct step as [result | lastError'].
        -- apply runs_ret. split; [discriminate|]. split; [count|].
           intros r [= <-]. exists (att + 1). split; [apply Hret; reflexivity | lia].
        -- eapply runs_weaken; [apply (IH (att + 1) lastError'); lia|].
           intros res evs2 (Hn & H2 & Hres). split; [exact Hn|]. split; [count|].
           intros r Hr'. destruct (Hres r Hr') as (a & Ha & Hb).
           exists a. split; [exact Ha | lia].
      * intros e evs1 ([step [=]] & _).
    + intros e evs0 H0. split; [discriminate|]. split; [count | discriminate].
  - apply runs_ret. split; [discriminate|]. split; [count|].
    intros r [= <-]. eexists. split; [apply createDetailedResponse_attempts|].
    destruct (Z.eqb_spec att 0); lia.
Qed.

Lemma attemptPayment_runs (w : World) (fuel : nat) (checkoutUrl : jsstr)
    (card : CardArg) (retries : Z) :
  0 <= retries ->
  (Z.to_nat (retries + 1) <= fuel)%nat ->
  Runs (attemptPayment w fuel checkoutUrl card retries) (LoopQ retries 0).
Proof.
  intros Hr Hfuel. unfold attemptPayment.
  apply runs_bind_liftE;
    [intros parsed _
    | intros e _; split; [discriminate | split; [count | discriminate]]].
  destruct (_ || _).
  - apply runs_throw. split; [discriminate | split; [count | discriminate]].
  - apply runs_bind_call;
      [intros info _
      | intros e _; split; [discriminate | split; [count | discriminate]]].
    eapply runs_weaken; [apply attemptLoop_runs; lia|].
    intros res evs (Hn & H2 & Hres). split; [exact Hn|]. split; [count | exact Hres].
Qed.


Lemma getE_truthy (v : JsVal) (k : jsstr) : truthy v = true -> getE v k = Ok (prop v k).
Proof. destruct v; try discriminate; reflexivity. Qed.

Lemma orV_obj_truthy (x : JsVal) (l : list (jsstr * JsVal)) : truthy (orV x (obj l)) = true.
Proof. unfold orV. destruct (truthy x) eqn:E; [exact E | reflexivity]. Qed.

(** On a working response with a decline signal the decision returns the
    declined result, without a call. *)
Lemma decideOutcome_declines (attempts : Z) (currentCard : JsVal) (pm : HttpResponse)
    (confirmStatus : Z) (fields : gmap jsstr JsVal) (log : list Event) :
  looksDeclined (VObj fields) = true ->
  exists r,
    decideOutcome attempts currentCard pm confirmStatus (VObj fields) log
    = (Ok (Return r), log)
    /\ getE r (js "success") = Ok (VBool false)
    /\ getE r (js "status") = Ok (VStr (js "declined"))
    /\ getE r (js "attempts") = Ok (VNum attempts)
    /\ getE r (js "confirmation") = Ok (VObj fields).
Proof.
  unfold looksDeclined. intros H.
  unfold decideOutcome, bindM, liftE, ret.
  change (getE (VObj fields)) with (fun k => Ok (prop (VObj fields) k)). cbv beta.
  set (pi := prop (VObj fields) (js "payment_intent")) in *.
  set (err := prop (VObj fields) (js "error")) in *.
  destruct (truthy pi) eqn:Hpi; destruct (truthy err) eqn:Herr;
    rewrite ?Hpi, ?Herr in *;
    rewrite ?(getE_truthy pi) by exact Hpi;
    rewrite ?(getE_truthy err) by exact Herr;
    cbv beta iota zeta; cbn [andb orb] in H; try discriminate H.
  - destruct (isStr (prop pi (js "status")) (js "requires_action"));
      rewrite ?(getE_truthy pi) by exact Hpi;
      cbv beta iota zeta; cbn [truthy]; rewrite ?Herr, ?orb_true_r; cbv beta iota zeta;
      (eexists; split; [reflexivity | repeat split; vm_compute; reflexivity]).
  - rewrite orb_false_r in H.
    assert (Ht : forall k, getE (orV (prop pi (js "last_payment_error")) (obj [])) k
                           = Ok (prop (orV (prop pi (js "last_payment_error")) (obj [])) k))
      by (intros k; apply getE_truthy, orV_obj_truthy).
    destruct (isStr (prop pi (js "status")) (js "requires_action"));
      rewrite ?(getE_truthy pi) by exact Hpi;
      cbv beta iota zeta; cbn [truthy]; rewrite H; cbv beta iota zeta;
      rewrite !Ht; cbv beta iota zeta;
      (eexists; split; [reflexivity | repeat split; vm_compute; reflexivity]).
  - cbn [orb]. cbv beta iota zeta.
    eexists; split; [reflexivity | repeat split; vm_compute; reflexivity].
Qed.

(** Without the mismatch code the recovery does nothing; with it, and a
    re-fetched amount that is unchanged or not positive, it re-fetches the
    session and leaves the response as it is. *)
Lemma recoverAmount_idle (w : World) (expectedAmount attempts : Z)
    (paymentMethodId : JsVal) (fields : gmap jsstr JsVal) (log : list Event) :
  carriesMismatch fields = false
  \/ (exists info, refetchInfo w attempts = Ok info
                   /\ (expectedAmountOf info = expectedAmount
                       \/ expectedAmountOf info <= 0)) ->
  recoverAmount w expectedAmount attempts paymentMethodId (VObj fields) log
  = (Ok (VObj fields), log ++ idleRecoveryEvents fields attempts).
Proof.
  intros H. unfold recoverAmount, idleRecoveryEvents, carriesMismatch in *.
  unfold bindM, liftE, ret, call.
  change (getE (VObj fields) (js "error")) with (Ok (prop (VObj fields) (js "error"))).
  cbv beta iota.
  set (error := prop (VObj fields) (js "error")) in *.
  destruct (truthy error) eqn:Ht; cbn [andb] in *.
  - rewrite (getE_truthy error _ Ht).
    destruct (isStr (prop error (js "code")) (js "checkout_amount_mismatch")).
    + destruct H as [H | (info & Hinfo & Hamount)]; [discriminate|].
      rewrite Hinfo.
      assert (Hskip : negb (expectedAmountOf info =? expectedAmount)
                      && (expectedAmountOf info >? 0) = false).
      { destruct Hamount as [-> | Hle].
        - rewrite Z.eqb_refl. reflexivity.
        - apply andb_false_iff. right.
          destruct (Z.gtb_spec (expectedAmountOf info) 0); [lia | reflexivity]. }
      rewrite Hskip. reflexivity.
    + rewrite List.app_nil_r. reflexivity.
  - rewrite List.app_nil_r. reflexivity.
Qed.

Lemma currentCardOf_yields (card : CardArg) (attempts : Z) (currentCard : JsVal)
    (log : list Event) :
  cardYields card attempts currentCard ->
  currentCardOf card attempts log
  = (Ok currentCard, log ++ cardEvents card attempts).
Proof.
  unfold cardYields, currentCardOf, cardEvents. destruct card as [c | make]; intros H.
  - subst. unfold ret. rewrite List.app_nil_r. reflexivity.
  - unfold call. rewrite H. reflexivity.
Qed.

Lemma looksDeclined_of_response (fields : gmap jsstr JsVal) :
  (exists pif, fields !! js "payment_intent" = Some (VObj pif)
               /\ pif !! js "status" = Some (VStr (js "requires_payment_method")))
  \/ (exists ef, fields !! js "error" = Some (VObj ef))
  \/ (exists pif lf, fields !! js "payment_intent" = Some (VObj pif)
                     /\ pif !! js "last_payment_error" = Some (VObj lf)) ->
  looksDeclined (VObj fields) = true.
Proof.
  unfold looksDeclined. cbn [prop].
  intros [(pif & Hp & Hs) | [(ef & He) | (pif & lf & Hp & Hl)]].
  - rewrite Hp. cbn [from_option id prop truthy andb]. rewrite Hs. reflexivity.
  - rewrite He. cbn [from_option id truthy]. rewrite orb_true_r. reflexivity.
  - rewrite Hp. cbn [from_option id prop truthy andb]. rewrite Hl.
    cbn [from_option id truthy]. rewrite orb_true_r. reflexivity.
Qed.

(** C4, amended.  In any iteration of the loop (entered with [attempts = k],
    [k <= retries]), if the payment method was created and the confirm
    response has [payment_intent.status] equal to [requires_payment_method],
    or contains an error object, or a [payment_intent.last_payment_error],
    and either does not carry the error code [checkout_amount_mismatch], or
    carries it while the re-fetched session yields an amount that is
    unchanged or not positive (no corrective confirm is issued), then
    [attemptPayment] returns at once: success is false, status is
    [declined], [attempts] is [k + 1], and the log ends with this
    iteration's create and confirm (and the re-fetch, if any), whatever the
    number of retries left. *)
Theorem decline_ends_attempt (w : World) (card : CardArg) (retries expectedAmount : Z)
    (fuel : nat) (k : Z) (lastError currentCard paymentMethodId : JsVal)
    (pm confirm : HttpResponse) (fields : gmap jsstr JsVal) (log : list Event) :
  k <= retries ->
  cardYields card (k + 1) currentCard ->
  createPaymentMethod w (k + 1) currentCard = Ok pm ->
  statusCode pm = 200 ->
  getE (data pm) (js "id") = Ok paymentMethodId ->
  truthy paymentMethodId = true ->
  confirmPayment w (k + 1) expectedAmount = Ok confirm ->
  data confirm = VObj fields ->
  carriesMismatch fields = false
  \/ (exists info, refetchInfo w (k + 1) = Ok info
                   /\ (expectedAmountOf info = expectedAmount
                       \/ expectedAmountOf info <= 0)) ->
  (exists pif, fields !! js "payment_intent" = Some (VObj pif)
               /\ pif !! js "status" = Some (VStr (js "requires_payment_method")))
  \/ (exists ef, fields !! js "error" = Some (VObj ef))
  \/ (exists pif lf, fields !! js "payment_intent" = Some (VObj pif)
                     /\ pif !! js "last_payment_error" = Some (VObj lf)) ->
  exists r,
    attemptLoop w card retries expectedAmount (S fuel) k lastError log
    = (Ok (Some r),
       log ++ cardEvents card (k + 1)
           ++ [EvCreate (k + 1) currentCard;
               EvConfirm (k + 1) paymentMethodId expectedAmount]
           ++ idleRecoveryEvents fields (k + 1))
    /\ getE r (js "success") = Ok (VBool false)
    /\ getE r (js "status") = Ok (VStr (js "declined"))
    /\ getE r (js "attempts") = Ok (VNum (k + 1))
    /\ getE r (js "confirmation") = Ok (VObj fields).
Proof.
  intros Hk Hcard Hcreate Hsc Hid Htid Hconfirm Hdata Hidle Hdecl.
  apply looksDeclined_of_response in Hdecl.
  destruct (decideOutcome_declines (k + 1) currentCard pm (statusCode confirm) fields
              (log ++ cardEvents card (k + 1)
                 ++ [EvCreate (k + 1) currentCard;
                     EvConfirm (k + 1) paymentMethodId expectedAmount]
                 ++ idleRecoveryEvents fields (k + 1)) Hdecl)
    as (r & Hr & Hfields).
  exists r. split; [|exact Hfields].
  cbn [attemptLoop]. apply Z.leb_le in Hk. rewrite Hk.
  unfold bindM at 1. rewrite (currentCardOf_yields card (k + 1) currentCard log Hcard).
  unfold bindM at 1. unfold iteration, tryM, bindM, call, liftE, ret.
  rewrite Hcreate, Hsc. cbn [Z.eqb Pos.eqb negb]. rewrite Hid, Htid. cbn [negb].
  rewrite Hconfirm, Hdata.
  rewrite (recoverAmount_idle w expectedAmount (k + 1) paymentMethodId fields _ Hidle).
  unfold bindM, liftE, ret in Hr.
  rewrite <- !List.app_assoc in *. cbn [app] in *.
  rewrite Hr. reflexivity.
Qed.

Lemma decline_ends_attempt_witness :
  exists r,
    attemptLoop declineWorld (Literal sampleCard) 3 500 1 0 VNull [EvFetchInfo]
    = (Ok (Some r),
       [EvFetchInfo] ++ cardEvents (Literal sampleCard) (0 + 1)
         ++ [EvCreate (0 + 1) sampleCard; EvConfirm (0 + 1) (VStr (js "pm_1")) 500]
         ++ idleRecoveryEvents declineFields (0 + 1))
    /\ getE r (js "success") = Ok (VBool false)
    /\ getE r (js "status") = Ok (VStr (js "declined"))
    /\ getE r (js "attempts") = Ok (VNum (0 + 1))
    /\ getE r (js "confirmation") = Ok (VObj declineFields).
Proof.
  apply (decline_ends_attempt declineWorld (Literal sampleCard) 3 500 0 0 VNull
           sampleCard (VStr (js "pm_1")) paymentMethodOk
           (mkHttpResponse 402 (VObj declineFields)) declineFields [EvFetchInfo]).
  - lia.
  - reflexivity.
  - reflexivity.
  - reflexivity.
  - vm_compute. reflexivity.
  - reflexivity.
  - reflexivity.
  - reflexivity.
  - left. vm_compute. reflexivity.
  - right. left. eexists. vm_compute. reflexivity.
Defined.


(** C4, the claim as stated fails: the first confirm response contains an
    error object, whose code is [checkout_amount_mismatch]; the re-fetch of
    the session then throws, the exception is caught as [lastError], and
    with one retry left a second create+confirm cycle is performed. *)
Lemma error_response_followed_by_another_cycle :
  (exists ef, mismatchFields !! js "error" = Some (VObj ef))
  /\ confirmPayment refetchFailsWorld 1 500 = Ok (mkHttpResponse 400 (VObj mismatchFields))
  /\ snd (attemptPayment refetchFailsWorld 2 sampleUrl (Literal sampleCard) 1 [])
     = [ EvFetchInfo;
         EvCreate 1 sampleCard; EvConfirm 1 (VStr (js "pm_1")) 500; EvRefetchInfo 1;
         EvCreate 2 sampleCard; EvConfirm 2 (VStr (js "pm_1")) 500; EvRefetchInfo 2 ]
  /\ summary (fst (attemptPayment refetchFailsWorld 2 sampleUrl (Literal sampleCard) 1 []))
     = Some (VBool false, VStr (js "declined"), VNum 2).
Proof.
  split; [eexists; vm_compute; reflexivity|].
  repeat split; vm_compute; reflexivity.
Qed.

(** C3, what the code does at the failing input: the corrective confirm
    answers 200 with [{ status: 'complete' }] and no error, yet the result
    is a decline with [success = false].  [Object.assign] leaves the first
    response's [error] in the working response, and the status code tested
    afterwards is the first response's. *)
Theorem amount_mismatch_recovery_reports_decline :
  snd (attemptPayment mismatchWorld 1 sampleUrl (Literal sampleCard) 0 [])
  = [ EvFetchInfo;
      EvCreate 1 sampleCard; EvConfirm 1 (VStr (js "pm_1")) 500;
      EvRefetchInfo 1; EvReconfirm 1 (VStr (js "pm_1")) 700 ]
  /\ summary (fst (attemptPayment mismatchWorld 1 sampleUrl (Literal sampleCard) 0 []))
     = Some (VBool false, VStr (js "declined"), VNum 1).
Proof. split; vm_compute; reflexivity. Qed.

(** The same for every world.  When the corrective confirm is issued and
    its body is an object without an [error] property, the working response
    keeps the first response's [error], so the decision is a decline. *)
Lemma merged_response_keeps_error (fields retry : gmap jsstr JsVal) :
  truthy (prop (VObj fields) (js "error")) = true ->
  retry !! js "error" = None ->
  looksDeclined (objectAssign (VObj fields) (VObj retry)) = true.
Proof.
  intros Ht Hn. unfold looksDeclined, objectAssign. cbn [prop] in *.
  rewrite (lookup_union_r retry fields _ Hn). rewrite Ht.
  rewrite orb_true_r. reflexivity.
Qed.

Lemma recoverAmount_retries (w : World) (expectedAmount attempts : Z)
    (paymentMethodId error : JsVal) (fields : gmap jsstr JsVal)
    (info : CheckoutInfo) (retry : HttpResponse) (log : list Event) :
  fields !! js "error" = Some error ->
  truthy error = true ->
  getE error (js "code") = Ok (VStr (js "checkout_amount_mismatch")) ->
  refetchInfo w attempts = Ok info ->
  expectedAmountOf info <> expectedAmount ->
  0 < expectedAmountOf info ->
  reconfirmPayment w attempts (expectedAmountOf info) = Ok retry ->
  recoverAmount w expectedAmount attempts paymentMethodId (VObj fields) log
  = (Ok (objectAssign (VObj fields) (data retry)),
     log ++ [EvRefetchInfo attempts;
             EvReconfirm attempts paymentMethodId (expectedAmountOf info)]).
Proof.
  intros He Ht Hcode Hinfo Hne Hpos Hretry.
  unfold recoverAmount, bindM, liftE, ret, call. cbn [getE].
  rewrite He. cbn [from_option id]. rewrite Ht, Hcode.
  cbn [isStr]. rewrite bool_decide_eq_true_2 by reflexivity.
  rewrite Hinfo.
  apply Z.eqb_neq in Hne. rewrite Hne. apply Z.gtb_lt in Hpos. rewrite Hpos.
  cbn [negb andb]. rewrite Hretry. rewrite <- List.app_assoc. reflexivity.
Qed.

(** In any iteration whose first confirm carries the mismatch code, whose
    re-fetch gives a different, positive amount and whose corrective
    confirm returns an object without [error] (be it 200 and [complete]),
    the loop returns a decline. *)
Lemma mismatch_recovery_declines (w : World) (card : CardArg)
    (retries expectedAmount : Z) (fuel : nat) (k : Z)
    (lastError currentCard paymentMethodId error : JsVal)
    (pm confirm retry : HttpResponse) (fields retryFields : gmap jsstr JsVal)
    (info : CheckoutInfo) (log : list Event) :
  k <= retries ->
  cardYields card (k + 1) currentCard ->
  createPaymentMethod w (k + 1) currentCard = Ok pm ->
  statusCode pm = 200 ->
  getE (data pm) (js "id") = Ok paymentMethodId ->
  truthy paymentMethodId = true ->
  confirmPayment w (k + 1) expectedAmount = Ok confirm ->
  data confirm = VObj fields ->
  fields !! js "error" = Some error ->
  truthy error = true ->
  getE error (js "code") = Ok (VStr (js "checkout_amount_mismatch")) ->
  refetchInfo w (k + 1) = Ok info ->
  expectedAmountOf info <> expectedAmount ->
  0 < expectedAmountOf info ->
  reconfirmPayment w (k + 1) (expectedAmountOf info) = Ok retry ->
  data retry = VObj retryFields ->
  retryFields !! js "error" = None ->
  exists r,
    attemptLoop w card retries expectedAmount (S fuel) k lastError log
    = (Ok (Some r),
       log ++ cardEvents card (k + 1)
           ++ [EvCreate (k + 1) currentCard;
               EvConfirm (k + 1) paymentMethodId expectedAmount;
               EvRefetchInfo (k + 1);
               EvReconfirm (k + 1) paymentMethodId (expectedAmountOf info)])
    /\ getE r (js "success") = Ok (VBool false)
    /\ getE r (js "status") = Ok (VStr (js "declined"))
    /\ getE r (js "attempts") = Ok (VNum (k + 1)).
Proof.
  intros Hk Hcard Hcreate Hsc Hid Htid Hconfirm Hdata He Ht Hcode Hinfo Hne Hpos
         Hretry Hrdata Hnone.
  assert (Hdecl : looksDeclined (objectAssign (VObj fields) (VObj retryFields)) = true).
  { apply merged_response_keeps_error; [|exact Hnone].
    cbn [prop]. rewrite He. exact Ht. }
  cbn [objectAssign] in Hdecl.
  destruct (decideOutcome_declines (k + 1) currentCard pm (statusCode confirm)
              (retryFields ∪ fields)
              (log ++ cardEvents card (k + 1)
                 ++ [EvCreate (k + 1) currentCard;
                     EvConfirm (k + 1) paymentMethodId expectedAmount;
                     EvRefetchInfo (k + 1);
                     EvReconfirm (k + 1) paymentMethodId (expectedAmountOf info)])
              Hdecl)
    as (r & Hr & Hs & Hst & Ha & _).
  exists r. split; [|auto].
  cbn [attemptLoop]. apply Z.leb_le in Hk. rewrite Hk.
  unfold bindM at 1. rewrite (currentCardOf_yields card (k + 1) currentCard log Hcard).
  unfold bindM at 1. unfold iteration, tryM, bindM, call, liftE, ret.
  rewrite Hcreate, Hsc. cbn [Z.eqb Pos.eqb negb]. rewrite Hid, Htid. cbn [negb].
  rewrite Hconfirm, Hdata.
  rewrite (recoverAmount_retries w expectedAmount (k + 1) paymentMethodId error fields
             info retry _ He Ht Hcode Hinfo Hne Hpos Hretry).
  rewrite Hrdata. cbn [objectAssign].
  unfold bindM, liftE, ret in Hr.
  rewrite <- !List.app_assoc in *. cbn [app] in *.
  rewrite Hr. reflexivity.
Qed.

(** *** The expected amount *)

Lemma fold_left_sum (f : LineItem -> Z) (items : list LineItem) :
  forall acc, fold_left (fun sum item => sum + f item) items acc = acc + sumZ (map f items).
Proof.
  induction items as [|item items IH]; intros acc; cbn [fold_left map sumZ fold_right].
  - lia.
  - rewrite IH. unfold sumZ. lia.
Qed.

Lemma sumZ_abs (l : list Z) : Z.abs (sumZ l) <= sumZ (map Z.abs l).
Proof.
  induction l as [|x l IH]; cbn [map sumZ fold_right]; [lia|].
  unfold sumZ in IH. lia.
Qed.

Lemma itemAmount_specified (item : LineItem) :
  amount item <> Some 0 -> quantity item <> Some 0 ->
  itemAmount item = specifiedItemAmount item.
Proof.
  unfold itemAmount, specifiedItemAmount. intros Ha Hq.
  destruct (amount item) as [a|]; cbn [from_option id].
  - destruct (Z.eqb_spec a 0) as [-> | _]; [congruence | reflexivity].
  - cbn [Z.eqb negb]. destruct (quantity item) as [q|]; cbn [from_option id].
    + destruct (Z.eqb_spec q 0) as [-> | _]; [congruence | reflexivity].
    + reflexivity.
Qed.

(** C2, the claim as stated fails: an item without [amount] is counted with
    its unit amount times its quantity, so the expected amount (1100) is
    not the sum of the line-item amounts (500). *)
Lemma expectedAmount_uses_unit_amount :
  let info :=
    mkCheckoutInfo [ mkLineItem (Some 500) None None;
                     mkLineItem None (Some 300) (Some 2) ] None None None None in
  expectedAmountOf info = 1100 /\ sumOfAmounts (lineItems info) = 500.
Proof. split; reflexivity. Qed.

(** C2, amended.  With line items whose numbers are safe integers, whose
    contributions add up in magnitude to at most [Number.MAX_SAFE_INTEGER]
    (so that the arithmetic of the code is exact), and whose [amount] and
    [quantity] are absent or non-zero, the expected amount is the sum, over
    the items, of the item's amount, or of unit amount times quantity
    (quantity 1 when absent) for an item without amount; it is the sum of
    the line-item amounts when every item has a non-zero one; and it is a
    safe integer itself.  Without line items it is [totals.total], or 0
    when that is absent.  For the items [{amount: 500}, {amount: 700}]
    without total it is 1200. *)
Theorem expectedAmount_from_line_items :
  (forall info,
     lineItems info <> [] ->
     exactLineItems (lineItems info) = true ->
     (forall item, In item (lineItems info) ->
                   amount item <> Some 0 /\ quantity item <> Some 0) ->
     expectedAmountOf info = sumZ (map specifiedItemAmount (lineItems info))
     /\ Z.abs (expectedAmountOf info) <= MAX_SAFE_INTEGER)
  /\ (forall info,
        lineItems info <> [] ->
        exactLineItems (lineItems info) = true ->
        (forall item, In item (lineItems info) ->
                      exists a, amount item = Some a /\ a <> 0) ->
        expectedAmountOf info = sumOfAmounts (lineItems info)
        /\ Z.abs (expectedAmountOf info) <= MAX_SAFE_INTEGER)
  /\ (forall info, lineItems info = [] -> expectedAmountOf info = default 0 (total info))
  /\ expectedAmountOf
       (mkCheckoutInfo [ mkLineItem (Some 500) None None; mkLineItem (Some 700) None None ]
          None None None None) = 1200.
Proof.
  assert (Hsum : forall info, lineItems info <> [] ->
                   expectedAmountOf info = sumZ (map itemAmount (lineItems info))).
  { intros info Hne. unfold expectedAmountOf.
    destruct (lineItems info) as [|item items]; [congruence|].
    cbn [List.length Nat.ltb Nat.leb]. rewrite fold_left_sum. lia. }
  assert (Hspec : forall info,
            lineItems info <> [] ->
            exactLineItems (lineItems info) = true ->
            (forall item, In item (lineItems info) ->
                          itemAmount item = specifiedItemAmount item) ->
            expectedAmountOf info = sumZ (map specifiedItemAmount (lineItems info))
            /\ Z.abs (expectedAmountOf info) <= MAX_SAFE_INTEGER).
  { intros info Hne Hexact Hall.
    assert (E : expectedAmountOf info = sumZ (map specifiedItemAmount (lineItems info))).
    { rewrite (Hsum info Hne). f_equal. apply List.map_ext_in. exact Hall. }
    split; [exact E|]. rewrite E.
    unfold exactLineItems in Hexact. apply andb_true_iff in Hexact.
    destruct Hexact as [_ Hexact]. apply Z.leb_le in Hexact.
    pose proof (sumZ_abs (map specifiedItemAmount (lineItems info))) as Habs.
    rewrite List.map_map in Habs. lia. }
  split; [|split; [|split]].
  - intros info Hne Hexact Hall. apply (Hspec info Hne Hexact).
    intros item Hin. apply itemAmount_specified; apply (Hall item Hin).
  - intros info Hne Hexact Hall.
    assert (E : sumOfAmounts (lineItems info)
                = sumZ (map specifiedItemAmount (lineItems info))).
    { unfold sumOfAmounts. f_equal. apply List.map_ext_in. intros item Hin.
      destruct (Hall item Hin) as (a & Ha & _).
      unfold specifiedItemAmount. rewrite Ha. reflexivity. }
    rewrite E. apply (Hspec info Hne Hexact).
    intros item Hin. destruct (Hall item Hin) as (a & Ha & Hnz).
    unfold itemAmount, specifiedItemAmount. rewrite Ha. cbn [from_option id].
    destruct (Z.eqb_spec a 0); [contradiction | reflexivity].
  - intros info Hnil. unfold expectedAmountOf. rewrite Hnil. cbn [List.length Nat.ltb Nat.leb].
    destruct (Z.eqb_spec (default 0 (total info)) 0) as [-> | _]; reflexivity.
  - reflexivity.
Qed.

Lemma expectedAmount_from_line_items_witness :
  let info :=
    mkCheckoutInfo [ mkLineItem (Some 500) None None;
                     mkLineItem None (Some 300) (Some 2) ] None None None None in
  expectedAmountOf info = 1100 /\ Z.abs (expectedAmountOf info) <= MAX_SAFE_INTEGER.
Proof.
  intros info.
  apply (proj1 expectedAmount_from_line_items info).
  - discriminate.
  - vm_compute; reflexivity.
  - intros item [<- | [<- | []]]; split; discriminate.
Defined.

(** One unit more than [2 ^ 53] is no double: items with the amounts
    [2 ^ 53] and 1 are not within the exact range. *)
Lemma large_amounts_not_exact :
  exactLineItems [ mkLineItem (Some (2 ^ 53)) None None; mkLineItem (Some 1) None None ]
  = false.
Proof. vm_compute; reflexivity. Qed.

End EngineFacts.

(** ** Single-digit errors and the check digit *)

Section LuhnDetection.

Lemma luhnLoop_app (l1 l2 : jsstr) :
  forall (sum : num) (b : bool),
    luhnLoop (l1 ++ l2) sum b
    = luhnLoop l2 (luhnLoop l1 sum b)
        (if Nat.even (List.length l1) then b else negb b).
Proof.
  induction l1 as [|c l1 IH]; intros sum b; cbn [app luhnLoop List.length].
  - reflexivity.
  - rewrite IH, Nat.even_succ, <- Nat.negb_even.
    destruct (Nat.even _), b; reflexivity.
Qed.

Lemma luhnDigit_injective (c c' : N) (b : bool) (d : Z) :
  is_digit c = true -> is_digit c' = true ->
  luhnDigit c b = Some d -> luhnDigit c' b = Some d -> c = c'.
Proof.
  intros Hc Hc'. apply digit_cases in Hc, Hc'. simpl in Hc, Hc'.
  destruct b;
    repeat (destruct Hc as [<- | Hc];
            [repeat (destruct Hc' as [<- | Hc'];
                     [vm_compute; intros; congruence|]);
             contradiction|]);
    contradiction.
Qed.

Lemma digits_rev (l : jsstr) :
  Forall (fun c => is_digit c = true) l -> Forall (fun c => is_digit c = true) (rev l).
Proof.
  intros H. apply List.Forall_forall. intros x Hx. apply List.in_rev in Hx.
  revert x Hx. apply List.Forall_forall. exact H.
Qed.

(** The sum the validator computes on [a ++ c :: b] is the contribution of
    [b], plus that of [c], plus that of [a]; the first and the last do not
    depend on [c], and whether [c] is doubled depends on the length of [b]
    only. *)
Lemma luhn_sum_split (a b : jsstr) :
  Forall (fun c => is_digit c = true) a ->
  Forall (fun c => is_digit c = true) b ->
  exists ta tb,
    0 <= ta /\ 0 <= tb
    /\ forall c, is_digit c = true ->
         exists d, luhnDigit c (Nat.odd (List.length b)) = Some d
                   /\ 0 <= d <= 9
                   /\ luhnLoop (rev (a ++ c :: b)) (Some 0) false = Some (tb + d + ta).
Proof.
  intros Ha Hb.
  destruct (luhnLoop_digits (rev b) (digits_rev b Hb) false) as (tb & Htb & Hlb).
  destruct (luhnLoop_digits (rev a) (digits_rev a Ha) (negb (Nat.odd (List.length b))))
    as (ta & Hta & Hla).
  exists ta, tb. split; [exact Hta|]. split; [exact Htb|]. intros c Hc.
  destruct (luhnDigit_digit c (Nat.odd (List.length b)) Hc) as (d & Hd & Hr).
  exists d. split; [exact Hd|]. split; [exact Hr|].
  rewrite List.rev_app_distr. cbn [rev]. rewrite <- List.app_assoc. cbn [app].
  rewrite luhnLoop_app, List.length_rev, Hlb. cbn [luhnLoop].
  replace (if Nat.even (List.length b) then false else negb false)
    with (Nat.odd (List.length b))
    by (rewrite <- Nat.negb_even; destruct (Nat.even _); reflexivity).
  rewrite Hd. cbn [numMap2]. rewrite Hla. f_equal; lia.
Qed.

Lemma validateLuhn_sum (s : jsstr) (t : Z) :
  0 <= t -> luhnLoop (rev s) (Some 0) false = Some t ->
  validateLuhn s = (t mod 10 =? 0).
Proof.
  intros Ht H. unfold validateLuhn. rewrite H. cbn [numMap2 numTest2].
  rewrite Z.rem_mod_nonneg by lia. reflexivity.
Qed.

(** Changing one digit changes the sum by less than 10, and not by 0. *)
Lemma luhn_sums_differ (a b : jsstr) (c c' : N) :
  Forall (fun c => is_digit c = true) a ->
  Forall (fun c => is_digit c = true) b ->
  is_digit c = true -> is_digit c' = true -> c <> c' ->
  exists t t',
    luhnLoop (rev (a ++ c :: b)) (Some 0) false = Some t
    /\ luhnLoop (rev (a ++ c' :: b)) (Some 0) false = Some t'
    /\ 0 <= t /\ 0 <= t' /\ t <> t' /\ -10 < t - t' < 10.
Proof.
  intros Ha Hb Hc Hc' Hne.
  destruct (luhn_sum_split a b Ha Hb) as (ta & tb & Hta & Htb & Hsum).
  destruct (Hsum c Hc) as (d & Hd & Hr & Hl).
  destruct (Hsum c' Hc') as (d' & Hd' & Hr' & Hl').
  assert (Hdd : d <> d').
  { intros <-. apply Hne. exact (luhnDigit_injective c c' _ d Hc Hc' Hd Hd'). }
  exists (tb + d + ta), (tb + d' + ta).
  split; [exact Hl|]. split; [exact Hl'|]. lia.
Qed.

(** X1.  [validateLuhn] detects every single-digit error: two strings of
    digits that differ in exactly one position are never both accepted. *)
Theorem validateLuhn_detects_single_digit_error (a b : jsstr) (c c' : N) :
  Forall (fun c => is_digit c = true) a ->
  Forall (fun c => is_digit c = true) b ->
  is_digit c = true -> is_digit c' = true -> c <> c' ->
  validateLuhn (a ++ c :: b) = true -> validateLuhn (a ++ c' :: b) = false.
Proof.
  intros Ha Hb Hc Hc' Hne.
  destruct (luhn_sums_differ a b c c' Ha Hb Hc Hc' Hne)
    as (t & t' & Hl & Hl' & Ht & Ht' & Hdiff & Hclose).
  rewrite (validateLuhn_sum _ t Ht Hl), (validateLuhn_sum _ t' Ht' Hl').
  rewrite Z.eqb_eq. intros H. apply Z.eqb_neq. intros H'.
  Z.div_mod_to_equations. lia.
Qed.

Lemma validateLuhn_detects_single_digit_error_witness :
  validateLuhn (js "4242424242424242") = true
  /\ validateLuhn (js "4242424342424242") = false.
Proof.
  split; [vm_compute; reflexivity|].
  apply (validateLuhn_detects_single_digit_error (js "4242424") (js "42424242") 50 51).
  - repeat constructor.
  - repeat constructor.
  - reflexivity.
  - reflexivity.
  - discriminate.
  - vm_compute; reflexivity.
Defined.

(** The check digit the generator appends is a single decimal digit. *)
Lemma check_digit_char (body : jsstr) :
  Forall (fun c => is_digit c = true) body ->
  let sum := luhnLoop (rev body) (Some 0) true in
  let checkDigit :=
    numMap2 Z.rem (numMap2 Z.sub (Some 10) (numMap2 Z.rem sum (Some 10))) (Some 10) in
  exists k, is_digit k = true /\ numToString checkDigit = [k].
Proof.
  intros Hd sum checkDigit.
  destruct (luhnLoop_digits (rev body) (digits_rev body Hd) true) as (t & Ht & Hl).
  subst sum checkDigit. rewrite (Hl 0). cbn [numMap2 numToString].
  replace (0 + t) with t by lia.
  rewrite (Z.rem_mod_nonneg t 10) by lia.
  pose proof (Z.mod_pos_bound t 10 ltac:(lia)) as Hm.
  rewrite (Z.rem_mod_nonneg (10 - t mod 10) 10) by lia.
  pose proof (Z.mod_pos_bound (10 - t mod 10) 10 ltac:(lia)) as Hk.
  rewrite intToString_digit by lia.
  eexists. split; [|reflexivity]. apply is_digit_range. lia.
Qed.

(** X2.  The generator's check digit is the only one: for a body of digits
    and a digit [d], [validateLuhn] accepts the body followed by [d] exactly
    when [d] is the check digit computed by the generator's loop. *)
Theorem check_digit_unique (body : jsstr) (d : N) :
  Forall (fun c => is_digit c = true) body ->
  is_digit d = true ->
  let sum := luhnLoop (rev body) (Some 0) true in
  let checkDigit :=
    numMap2 Z.rem (numMap2 Z.sub (Some 10) (numMap2 Z.rem sum (Some 10))) (Some 10) in
  validateLuhn (body ++ [d]) = true <-> numToString checkDigit = [d].
Proof.
  intros Hb Hd sum checkDigit.
  pose proof (check_digit_validates body Hb) as Hv. cbv zeta in Hv.
  destruct (check_digit_char body Hb) as (k & Hk & Hs). cbv zeta in Hs.
  subst sum checkDigit. rewrite Hs in *. split.
  - intros H. destruct (N.eq_dec k d) as [-> | Hne]; [reflexivity|]. exfalso.
    destruct (luhn_sums_differ body [] k d Hb ltac:(constructor) Hk Hd Hne)
      as (t & t' & Hl & Hl' & Ht & Ht' & Hdiff & Hclose).
    rewrite (validateLuhn_sum _ t Ht Hl) in Hv.
    rewrite (validateLuhn_sum _ t' Ht' Hl') in H.
    apply Z.eqb_eq in Hv, H. Z.div_mod_to_equations. lia.
  - intros [= <-]. exact Hv.
Qed.

Lemma check_digit_unique_witness :
  validateLuhn (js "424242424242424" ++ [50%N]) = true.
Proof.
  apply (check_digit_unique (js "424242424242424") 50).
  - repeat constructor.
  - reflexivity.
  - vm_compute; reflexivity.
Defined.

End LuhnDetection.

(** ** The shape of a generated card *)

Section GeneratorShape.

Lemma fillDigits_filler (rnd : nat -> Z) (target : nat) :
  forall (fuel : nat) (s : jsstr) (i : nat),
    exists filler,
      fst (fillDigits rnd fuel target s i) = s ++ filler
      /\ Forall (fun c => is_digit c = true) filler
      /\ List.length filler = Nat.min fuel (target - 1 - List.length s).
Proof.
  induction fuel as [|fuel IH]; intros s i; cbn [fillDigits].
  - exists []. rewrite List.app_nil_r. split; [reflexivity|]. split; [constructor | cbn [List.length]; lia].
  - destruct (Nat.ltb_spec (List.length s) (target - 1)) as [Hlt | Hge].
    + destruct (IH (s ++ intToString (randomBelow rnd i 10)) (S i)) as (f & Hf & Hd & Hl).
      pose proof (randomBelow_range rnd i 10 ltac:(lia)) as Hr.
      exists (intToString (randomBelow rnd i 10) ++ f).
      rewrite Hf, <- List.app_assoc. split; [reflexivity|]. split.
      * apply List.Forall_app. split; [apply intToString_digit_is_digit; lia | exact Hd].
      * rewrite List.length_app, Hl, List.length_app.
        rewrite intToString_digit by lia. cbn [List.length]. lia.
    + exists []. rewrite List.app_nil_r. split; [reflexivity|]. split; [constructor | cbn [List.length]; lia].
Qed.

Lemma digitsFuel_digits (fuel : nat) :
  forall (n : N) (acc : jsstr),
    Forall (fun c => is_digit c = true) acc ->
    Forall (fun c => is_digit c = true) (digitsFuel fuel n acc)
    /\ (List.length acc <= List.length (digitsFuel fuel n acc))%nat.
Proof.
  induction fuel as [|fuel IH]; intros n acc Hacc; cbn [digitsFuel].
  - split; [exact Hacc | lia].
  - assert (Hc : is_digit (48 + n mod 10) = true).
    { apply is_digit_range. pose proof (N.mod_lt n 10 ltac:(discriminate)) as Hm.
    set (r := (n mod 10)%N) in *. clearbody r. lia. }
    destruct (n <? 10)%N.
    + split; [constructor; assumption | cbn [List.length]; lia].
    + destruct (IH (n / 10)%N ((48 + n mod 10)%N :: acc)) as [H1 H2];
        [constructor; assumption|].
      split; [exact H1 | cbn [List.length] in H2; lia].
Qed.

Lemma natToString_digits (n : N) :
  Forall (fun c => is_digit c = true) (natToString n)
  /\ (1 <= List.length (natToString n))%nat.
Proof.
  unfold natToString. cbn [digitsFuel].
  assert (Hc : is_digit (48 + n mod 10) = true).
  { apply is_digit_range. pose proof (N.mod_lt n 10 ltac:(discriminate)) as Hm.
    set (r := (n mod 10)%N) in *. clearbody r. lia. }
  destruct (n <? 10)%N.
  - split; [repeat constructor; assumption | cbn; lia].
  - destruct (digitsFuel_digits (N.to_nat (N.log2 n)) (n / 10)%N [(48 + n mod 10)%N])
      as [H1 H2]; [repeat constructor; assumption|].
    split; [exact H1 | cbn [List.length] in H2; lia].
Qed.

Lemma intToString_chars (z : Z) :
  Forall (fun c => is_number_char c = true) (intToString z)
  /\ (1 <= List.length (intToString z))%nat.
Proof.
  assert (Hw : forall l, Forall (fun c => is_digit c = true) l ->
                         Forall (fun c => is_number_char c = true) l).
  { intros l. apply List.Forall_impl. intros c Hc. unfold is_number_char.
    rewrite Hc. reflexivity. }
  unfold intToString. destruct (z <? 0).
  - destruct (natToString_digits (Z.to_N (- z))) as [H1 H2].
    split; [constructor; [reflexivity | apply Hw; exact H1] | cbn [List.length]; lia].
  - destruct (natToString_digits (Z.to_N z)) as [H1 H2].
    split; [apply Hw; exact H1 | exact H2].
Qed.

Lemma intToString_nonneg_digits (z : Z) :
  0 <= z -> Forall (fun c => is_digit c = true) (intToString z).
Proof.
  intros Hz. unfold intToString.
  destruct (Z.ltb_spec z 0); [lia|]. apply natToString_digits.
Qed.

Lemma sliceLast_length (k : nat) (s : jsstr) :
  List.length (sliceLast k s) = Nat.min k (List.length s).
Proof. unfold sliceLast. rewrite List.length_skipn. lia. Qed.

Lemma sliceLast_Forall (P : N -> Prop) (k : nat) (s : jsstr) :
  Forall P s -> Forall P (sliceLast k s).
Proof.
  intros H. unfold sliceLast.
  rewrite <- (List.firstn_skipn (List.length s - k) s) in H.
  apply List.Forall_app in H. apply H.
Qed.

Lemma padded_month_length (m : Z) :
  1 <= m <= 12 -> List.length (padStart0 2 (intToString m)) = 2%nat.
Proof.
  intros H.
  apply (forall_range (fun m => (List.length (padStart0 2 (intToString m)) =? 2)%nat) 1 12)
    in H; [|vm_compute; reflexivity].
  apply Nat.eqb_eq in H. exact H.
Qed.

Lemma padded_month_digits (m : Z) :
  1 <= m <= 12 -> Forall (fun c => is_digit c = true) (padStart0 2 (intToString m)).
Proof.
  intros H. unfold padStart0. apply List.Forall_app. split.
  - apply List.Forall_forall. intros x Hx. apply List.repeat_spec in Hx. subst x. reflexivity.
  - apply intToString_nonneg_digits. lia.
Qed.

(** The card a successful run returns, field by field. *)
Lemma generate_inv (rnd : nat -> Z) (cy cm : Z) (bin : jsstr) (card : Card) :
  generateCardFromBin rnd cy cm bin = Ok card ->
  let prefix := stripNonDigits bin in
  let target := targetLengthOf prefix in
  exists (filler : jsstr) (check : N) (i : nat) (y : Z),
    (6 <= List.length prefix)%nat
    /\ Forall (fun c => is_digit c = true) filler
    /\ List.length filler = (target - 1 - List.length prefix)%nat
    /\ is_digit check = true
    /\ cardNumber card = prefix ++ filler ++ [check]
    /\ expMonth card = padStart0 2 (intToString (drawMonth rnd i))
    /\ expYear card = sliceLast 2 (intToString y)
    /\ cvc card = (if (target =? 15)%nat
                   then intToString (randomBelow rnd (i + 2) 9000 + 1000)
                   else intToString (randomBelow rnd (i + 2) 900 + 100)).
Proof.
  intros H prefix target. unfold generateCardFromBin in H. fold prefix in H. fold target in H.
  destruct (List.length bin =? 0)%nat; [discriminate|].
  destruct (Nat.ltb_spec (List.length prefix) 6) as [|Hlen]; [discriminate|].
  destruct (fillDigits_filler rnd target target prefix 0) as (filler & Hf & Hd & Hl).
  assert (Hbody : Forall (fun c => is_digit c = true) (prefix ++ filler)).
  { apply List.Forall_app. split; [apply stripNonDigits_digits | exact Hd]. }
  destruct (fillDigits rnd target target prefix 0) as [body i]. cbn [fst] in Hf. subst body.
  destruct (check_digit_char (prefix ++ filler) Hbody) as (k & Hk & Hs). cbv zeta in Hs.
  rewrite Hs in H.
  destruct (negb _); [discriminate|].
  destruct (_ || _); [discriminate|].
  destruct (negb _); [discriminate|].
  injection H as <-. cbn [cardNumber expMonth expYear cvc].
  eexists filler, k, i, _. split; [exact Hlen|]. split; [exact Hd|].
  split; [rewrite Hl; unfold target, targetLengthOf; repeat destruct (_ || _); lia|].
  split; [exact Hk|]. split; [rewrite List.app_assoc; reflexivity|].
  repeat split.
Qed.


(** X3.  A card number the generator returns is the cleaned prefix (at
    least six digits), followed by random digits up to the target length
    minus one, followed by one check digit: it consists of digits only and
    its length is the target length (15 for prefixes 34 and 37, 14 for 36
    and 38, 16 otherwise) unless the prefix alone is already that long, in
    which case it is the prefix plus the check digit. *)
Theorem generated_number_shape (rnd : nat -> Z) (currentYear currentMonth : Z)
    (bin : jsstr) (card : Card) :
  generateCardFromBin rnd currentYear currentMonth bin = Ok card ->
  let prefix := stripNonDigits bin in
  (6 <= List.length prefix)%nat
  /\ (exists filler check,
        cardNumber card = prefix ++ filler ++ [check]
        /\ List.length filler = (targetLengthOf prefix - 1 - List.length prefix)%nat)
  /\ Forall (fun c => is_digit c = true) (cardNumber card)
  /\ List.length (cardNumber card)
     = Nat.max (targetLengthOf prefix) (List.length prefix + 1).
Proof.
  intros H prefix.
  destruct (generate_inv rnd currentYear currentMonth bin card H)
    as (filler & check & i & y & Hlen & Hd & Hl & Hk & Hn & _).
  fold prefix in Hlen, Hl, Hn.
  split; [exact Hlen|]. split; [exists filler, check; split; assumption|].
  rewrite Hn. split.
  - apply List.Forall_app. split; [apply stripNonDigits_digits|].
    apply List.Forall_app. split; [exact Hd | repeat constructor; exact Hk].
  - rewrite !List.length_app, Hl. cbn [List.length].
    assert (14 <= targetLengthOf prefix)%nat
      by (unfold targetLengthOf; repeat destruct (_ || _); lia).
    lia.
Qed.

Lemma generated_number_shape_witness :
  (6 <= List.length (stripNonDigits (js "4242-42")))%nat
  /\ (exists filler check,
        js "4242424444444444" = stripNonDigits (js "4242-42") ++ filler ++ [check]
        /\ List.length filler
           = (targetLengthOf (stripNonDigits (js "4242-42")) - 1
              - List.length (stripNonDigits (js "4242-42")))%nat)
  /\ Forall (fun c => is_digit c = true) (js "4242424444444444")
  /\ List.length (js "4242424444444444")
     = Nat.max (targetLengthOf (stripNonDigits (js "4242-42")))
         (List.length (stripNonDigits (js "4242-42")) + 1).
Proof.
  apply (generated_number_shape (fun _ => 4) 2026 11 (js "4242-42")
           (mkCard (js "4242424444444444") (js "05") (js "31") (js "104"))).
  vm_compute. reflexivity.
Defined.

(** X4.  The generator never takes its CVC-length-mismatch branch.  The CVC
    it returns is the decimal form of a number in 1000-9999 (four digits)
    when the cleaned prefix starts with 34 or 37, and of a number in
    100-999 (three digits) otherwise; the month is two digits that denote a
    month 1-12; the year has at most two characters. *)
Theorem generated_cvc_and_expiry_shape (rnd : nat -> Z) (currentYear currentMonth : Z)
    (bin : jsstr) :
  (forall expected got,
     generateCardFromBin rnd currentYear currentMonth bin
     <> Throw (Err (cvcMismatchMessage expected got)))
  /\ forall card,
       generateCardFromBin rnd currentYear currentMonth bin = Ok card ->
       let amex := (targetLengthOf (stripNonDigits bin) =? 15)%nat in
       (exists n, cvc card = intToString n
                  /\ if amex then 1000 <= n <= 9999 else 100 <= n <= 999)
       /\ List.length (cvc card) = (if amex then 4 else 3)%nat
       /\ Forall (fun c => is_digit c = true) (cvc card)
       /\ (exists m, 1 <= m <= 12 /\ expMonth card = padStart0 2 (intToString m))
       /\ List.length (expMonth card) = 2%nat
       /\ Forall (fun c => is_digit c = true) (expMonth card)
       /\ (1 <= List.length (expYear card) <= 2)%nat.
Proof.
  split.
  - intros expected got. unfold generateCardFromBin, cvcMismatchMessage.
    destruct (List.length bin =? 0)%nat; [intros [=]|].
    destruct (List.length (stripNonDigits bin) <? 6)%nat; [intros [=]|].
    destruct (fillDigits _ _ _ _ _) as [body i].
    destruct (negb (validateLuhn _)); [intros [=]|].
    destruct (_ || _); [intros [=]|].
    assert (Hcvc : negb
              (List.length
                 (if (targetLengthOf (stripNonDigits bin) =? 15)%nat
                  then intToString (randomBelow rnd (i + 2) 9000 + 1000)
                  else intToString (randomBelow rnd (i + 2) 900 + 100))
               =? (if (targetLengthOf (stripNonDigits bin) =? 15)%nat then 4 else 3))%nat
            = false).
    { destruct (targetLengthOf (stripNonDigits bin) =? 15)%nat.
      - rewrite four_digits; [reflexivity|].
        pose proof (randomBelow_range rnd (i + 2) 9000). lia.
      - rewrite three_digits; [reflexivity|].
        pose proof (randomBelow_range rnd (i + 2) 900). lia. }
    rewrite Hcvc. discriminate.
  - intros card H amex.
    destruct (generate_inv rnd currentYear currentMonth bin card H)
      as (filler & check & i & y & _ & _ & _ & _ & _ & Hm & Hy & Hc).
    fold amex in Hc.
    pose proof (randomBelow_range rnd (i + 2) 9000 ltac:(lia)) as H4.
    pose proof (randomBelow_range rnd (i + 2) 900 ltac:(lia)) as H3.
    pose proof (drawMonth_range rnd i) as Hmr.
    split; [|split; [|split; [|split; [|split; [|split]]]]].
    + destruct amex; eexists; (split; [exact Hc | lia]).
    + rewrite Hc. destruct amex; [apply four_digits | apply three_digits]; lia.
    + rewrite Hc. destruct amex; apply intToString_nonneg_digits; lia.
    + exists (drawMonth rnd i). split; [exact Hmr | exact Hm].
    + rewrite Hm. apply padded_month_length. exact Hmr.
    + rewrite Hm. apply padded_month_digits. exact Hmr.
    + rewrite Hy, sliceLast_length.
      pose proof (proj2 (intToString_chars y)). lia.
Qed.

End GeneratorShape.

(** ** From the generator to [parseCardString] *)

Section CardStringRoundTrip.

Lemma split_field (a rest : jsstr) :
  Forall (fun c => is_field_char c = true) a ->
  split 124 (a ++ 124%N :: rest) = a :: split 124 rest.
Proof.
  induction 1 as [|c a Hc _ IH]; cbn [app split].
  - reflexivity.
  - unfold is_field_char in Hc. apply andb_true_iff in Hc. destruct Hc as [Hc _].
    apply negb_true_iff in Hc. rewrite Hc, IH. reflexivity.
Qed.

Lemma split_no_separator (a : jsstr) :
  Forall (fun c => is_field_char c = true) a -> split 124 a = [a].
Proof.
  induction 1 as [|c a Hc _ IH]; cbn [split].
  - reflexivity.
  - unfold is_field_char in Hc. apply andb_true_iff in Hc. destruct Hc as [Hc _].
    apply negb_true_iff in Hc. rewrite Hc, IH. reflexivity.
Qed.

Lemma field_char_not_space (c : N) : is_field_char c = true -> is_space c = false.
Proof.
  unfold is_field_char. intros H. apply andb_true_iff in H. destruct H as [_ H].
  apply negb_true_iff in H. exact H.
Qed.

Lemma trimStart_field (s : jsstr) :
  Forall (fun c => is_field_char c = true) s -> trimStart s = s.
Proof.
  intros [|c r Hc _]; cbn [trimStart]; [reflexivity|].
  rewrite (field_char_not_space c Hc). reflexivity.
Qed.

Lemma trim_field (s : jsstr) :
  Forall (fun c => is_field_char c = true) s -> trim s = s.
Proof.
  intros H. unfold trim. rewrite (trimStart_field s H).
  rewrite trimStart_field, List.rev_involutive; [reflexivity|].
  apply List.Forall_forall. intros x Hx. apply List.in_rev in Hx.
  revert x Hx. apply List.Forall_forall. exact H.
Qed.

Lemma stripSpaces_field (s : jsstr) :
  Forall (fun c => is_field_char c = true) s -> stripSpaces s = s.
Proof.
  unfold stripSpaces. induction 1 as [|c r Hc _ IH]; cbn [List.filter]; [reflexivity|].
  rewrite (field_char_not_space c Hc). cbn [negb]. rewrite IH. reflexivity.
Qed.

Lemma digit_is_field_char (c : N) : is_digit c = true -> is_field_char c = true.
Proof.
  intros H. apply digit_cases in H. simpl in H.
  repeat (destruct H as [<- | H]; [reflexivity|]). contradiction.
Qed.

Lemma number_char_is_field_char (c : N) : is_number_char c = true -> is_field_char c = true.
Proof.
  unfold is_number_char. intros H. apply orb_true_iff in H. destruct H as [H | H].
  - apply digit_is_field_char. exact H.
  - apply N.eqb_eq in H. subst c. reflexivity.
Qed.

(** Four clean fields joined with [|] come back as they are: the month
    already padded, the year of at most two characters. *)
Lemma parseCardString_fields (number year code : jsstr) (m : Z) :
  Forall (fun c => is_field_char c = true) number ->
  Forall (fun c => is_field_char c = true) year ->
  Forall (fun c => is_field_char c = true) code ->
  (List.length year <= 2)%nat ->
  1 <= m <= 12 ->
  parseCardString
    (number ++ 124%N :: padStart0 2 (intToString m) ++ 124%N :: year ++ 124%N :: code)
  = Ok (mkCard number (padStart0 2 (intToString m)) year code).
Proof.
  intros Hn Hy Hc Hlen Hm.
  assert (Hmonth : Forall (fun c => is_field_char c = true) (padStart0 2 (intToString m))).
  { eapply List.Forall_impl; [|apply padded_month_digits; exact Hm].
    intros c. apply digit_is_field_char. }
  unfold parseCardString.
  rewrite (split_field number _ Hn), (split_field _ _ Hmonth), (split_field year _ Hy),
    (split_no_separator code Hc).
  cbn [map List.length Nat.ltb Nat.leb nth].
  rewrite (trim_field number Hn), (trim_field _ Hmonth), (trim_field year Hy),
    (trim_field code Hc).
  rewrite (stripSpaces_field number Hn), (normalizeMonth_padded m Hm), normalizeYear_last_two.
  unfold sliceLast. replace (List.length year - 2)%nat with 0%nat by lia.
  reflexivity.
Qed.

(** X5.  A card the generator returns, written in the format
    [number|month|year|cvc], is read back by [parseCardString] as the same
    card. *)
Theorem generated_card_parses_back (rnd : nat -> Z) (currentYear currentMonth : Z)
    (bin : jsstr) (card : Card) :
  generateCardFromBin rnd currentYear currentMonth bin = Ok card ->
  parseCardString
    (cardNumber card ++ 124%N :: expMonth card ++ 124%N :: expYear card
     ++ 124%N :: cvc card)
  = Ok card.
Proof.
  intros H.
  destruct (generate_inv rnd currentYear currentMonth bin card H)
    as (filler & check & i & y & _ & Hd & _ & Hk & Hn & Hm & Hy & Hc).
  assert (Hdigits : forall l, Forall (fun c => is_digit c = true) l ->
                              Forall (fun c => is_field_char c = true) l).
  { intros l. apply List.Forall_impl. exact digit_is_field_char. }
  pose proof (randomBelow_range rnd (i + 2) 9000 ltac:(lia)) as H4.
  pose proof (randomBelow_range rnd (i + 2) 900 ltac:(lia)) as H3.
  destruct card as [number month year code]. cbn [cardNumber expMonth expYear cvc] in *.
  rewrite Hm. apply parseCardString_fields.
  - rewrite Hn. apply Hdigits. apply List.Forall_app. split; [apply stripNonDigits_digits|].
    apply List.Forall_app. split; [exact Hd | repeat constructor; exact Hk].
  - rewrite Hy. apply sliceLast_Forall.
    eapply List.Forall_impl; [|apply intToString_chars].
    exact number_char_is_field_char.
  - rewrite Hc. apply Hdigits.
    destruct (_ =? _)%nat; apply intToString_nonneg_digits; lia.
  - rewrite Hy, sliceLast_length. lia.
  - apply drawMonth_range.
Qed.

Lemma generated_card_parses_back_witness :
  parseCardString (js "4242424444444444|05|31|104")
  = Ok (mkCard (js "4242424444444444") (js "05") (js "31") (js "104")).
Proof.
  apply (generated_card_parses_back (fun _ => 4) 2026 11 (js "4242-42")
           (mkCard (js "4242424444444444") (js "05") (js "31") (js "104"))).
  vm_compute. reflexivity.
Defined.

End CardStringRoundTrip.

(** ** [generateRandomBin] *)

Section RandomBinFacts.

Lemma generateRandomBin_listed (rnd : nat -> Z) (i : nat) :
  In (generateRandomBin rnd i) randomBins.
Proof.
  unfold generateRandomBin. apply List.nth_In.
  pose proof (randomBelow_range rnd i (Z.of_nat (List.length randomBins)) ltac:(cbn; lia)).
  lia.
Qed.

(** X6.  [generateRandomBin] returns one of its ten listed prefixes, each of
    exactly six digits, so [generateCardFromBin] accepts it: with a clock
    in 2000-2094 the generator returns a card whose number starts with the
    prefix and has 15 digits for the two prefixes that start with 37 and 16
    digits for the others. *)
Theorem generateRandomBin_accepted (rnd : nat -> Z) (i : nat) :
  let bin := generateRandomBin rnd i in
  In bin randomBins
  /\ stripNonDigits bin = bin
  /\ List.length bin = 6%nat
  /\ forall (rnd' : nat -> Z) (currentYear currentMonth : Z),
       2000 <= currentYear <= 2094 ->
       exists card,
         generateCardFromBin rnd' currentYear currentMonth bin = Ok card
         /\ startsWith (cardNumber card) bin = true
         /\ List.length (cardNumber card)
            = (if startsWith bin (js "37") then 15 else 16)%nat.
Proof.
  intros bin. pose proof (generateRandomBin_listed rnd i) as Hin. fold bin in Hin.
  split; [exact Hin|].
  assert (Hfacts : stripNonDigits bin = bin /\ List.length bin = 6%nat
                   /\ targetLengthOf bin = (if startsWith bin (js "37") then 15 else 16)%nat).
  { clearbody bin. unfold randomBins in Hin. simpl in Hin.
    repeat (destruct Hin as [<- | Hin]; [repeat split; vm_compute; reflexivity|]).
    contradiction. }
  destruct Hfacts as (Hclean & Hlen & Htarget).
  split; [exact Hclean|]. split; [exact Hlen|].
  intros rnd' cy cm Hcy.
  destruct (generate_ok rnd' cy cm bin ltac:(rewrite Hclean; lia) Hcy) as (card & j & Hc & _).
  exists card. split; [exact Hc|].
  destruct (generate_inv rnd' cy cm bin card Hc)
    as (filler & check & _ & _ & _ & _ & Hl & _ & Hn & _).
  rewrite Hclean in Hn, Hl. rewrite Hn. split.
  - clear. induction bin as [|c r IH]; cbn [app startsWith].
    + destruct (filler ++ [check]); reflexivity.
    + rewrite N.eqb_refl, IH. reflexivity.
  - rewrite !List.length_app, Hl, Hlen, Htarget. cbn [List.length].
    destruct (startsWith bin (js "37")); reflexivity.
Qed.

End RandomBinFacts.

(** ** The fields of a parsed URL *)

Section UrlShape.

Lemma takeWhile_Forall (p : N -> bool) (s : jsstr) :
  Forall (fun c => p c = true) (takeWhile p s).
Proof.
  induction s as [|c r IH]; cbn [takeWhile]; [constructor|].
  destruct (p c) eqn:E; constructor; assumption.
Qed.

Lemma literalThenClass_shape (literal : jsstr) (class : N -> bool) (s m : jsstr) :
  literalThenClass literal class s = Some m ->
  exists body, body <> [] /\ Forall (fun c => class c = true) body /\ m = literal ++ body.
Proof.
  unfold literalThenClass. destruct (startsWith s literal); [|discriminate].
  pose proof (takeWhile_Forall class (List.skipn (List.length literal) s)) as H.
  destruct (takeWhile class _) as [|c body]; [discriminate|].
  intros [= <-]. exists (c :: body). split; [discriminate|]. split; [exact H | reflexivity].
Qed.

Lemma firstMatch_anchored (anchored : jsstr -> option jsstr) (s m : jsstr) :
  firstMatch anchored s = Some m -> exists t, anchored t = Some m.
Proof.
  induction s as [|c r IH]; cbn [firstMatch].
  - destruct (anchored []) eqn:E; [intros [= <-]; exists []; exact E | discriminate].
  - destruct (anchored (c :: r)) eqn:E; [intros [= <-]; exists (c :: r); exact E | exact IH].
Qed.

Lemma firstMatch_shape (l1 l2 : jsstr) (class : N -> bool) (s : jsstr) :
  literalAndBody l1 l2 class
    (firstMatch (fun t => orElse (literalThenClass l1 class t) (literalThenClass l2 class t)) s).
Proof.
  unfold literalAndBody.
  destruct (firstMatch _ s) as [m|] eqn:E; [|exact I].
  apply firstMatch_anchored in E. destruct E as (t & Ht). unfold orElse in Ht.
  destruct (literalThenClass l1 class t) as [m1|] eqn:E1.
  - injection Ht as <-. apply literalThenClass_shape in E1.
    destruct E1 as (body & Hb & Hc & ->). exists body. auto.
  - apply literalThenClass_shape in Ht.
    destruct Ht as (body & Hb & Hc & ->). exists body. auto.
Qed.

(** X7.  Whatever the input, the fields [parseCheckoutUrl] returns are
    either [null] or well formed: a session identifier is [cs_live_] or
    [cs_test_] followed by one or more letters or digits, a publishable key
    is [pk_live_] or [pk_test_] followed by one or more letters or digits,
    and a site is [https://] or [http://] followed by one or more
    characters other than white space and quotes.  None of them is ever the
    empty string. *)
Theorem parseCheckoutUrl_fields_well_formed (checkoutUrl : jsstr) :
  exists parsed,
    parseCheckoutUrl checkoutUrl = Ok parsed
    /\ literalAndBody (js "cs_live_") (js "cs_test_") is_alnum (sessionId parsed)
    /\ literalAndBody (js "pk_live_") (js "pk_test_") is_alnum (publicKey parsed)
    /\ literalAndBody (js "https://") (js "http://") is_site_char (site parsed)
    /\ sessionId parsed <> Some []
    /\ publicKey parsed <> Some []
    /\ site parsed <> Some [].
Proof.
  assert (Hne : forall l1 l2 class field,
            l1 <> [] -> l2 <> [] -> literalAndBody l1 l2 class field -> field <> Some []).
  { intros l1 l2 class [m|] H1 H2 H; [|discriminate]. intros [= ->].
    destruct H as (body & _ & _ & [H | H]);
      symmetry in H; apply List.app_eq_nil in H; tauto. }
  assert (Hall : exists parsed,
            parseCheckoutUrl checkoutUrl = Ok parsed
            /\ literalAndBody (js "cs_live_") (js "cs_test_") is_alnum (sessionId parsed)
            /\ literalAndBody (js "pk_live_") (js "pk_test_") is_alnum (publicKey parsed)
            /\ literalAndBody (js "https://") (js "http://") is_site_char (site parsed)).
  { unfold parseCheckoutUrl.
    destruct checkoutUrl as [|c rest].
    - eexists. split; [reflexivity|]. cbn. auto.
    - cbn [List.length Nat.eqb].
      set (url := c :: rest).
      destruct (decodeURIComponent url) as [d | e0]; cbn [try_catch bindE].
      all: match goal with
           | |- context [indexOf 35%N ?u] =>
               destruct (indexOf 35%N u) as [i|];
               [ unfold decodeFragment;
                 destruct (decodeURIComponent (List.skipn (i + 1) u)) as [f | e1];
                 cbn [try_catch bindE]
               | ]
           end.
      all: eexists; split; [reflexivity|]; cbn [sessionId publicKey site fst snd].
      all: repeat split; try exact I.
      all: first [ apply (firstMatch_shape (js "cs_live_") (js "cs_test_") is_alnum)
                 | apply (firstMatch_shape (js "pk_live_") (js "pk_test_") is_alnum)
                 | apply (firstMatch_shape (js "https://") (js "http://") is_site_char) ]. }
  destruct Hall as (parsed & Hp & Hs & Hk & Hu).
  exists parsed. split; [exact Hp|]. split; [exact Hs|]. split; [exact Hk|].
  split; [exact Hu|].
  split; [|split]; eapply Hne; try eassumption; discriminate.
Qed.

End UrlShape.

(** ** More on the attempt engine *)

Section EngineMore.

Create Rewrite HintDb calls.
#[local] Hint Rewrite countIf_app countIf_cons countIf_nil : calls.

(** As [count] above, for [ordered] as well. *)
#[local] Ltac count :=
  unfold atMost, ordered in *;
  autorewrite with calls in *;
  cbn [isCreate isConfirm isReconfirm] in *;
  repeat match goal with
         | |- context [countIf ?p ?l] =>
             pose proof (countIf_nonneg p l);
             generalize dependent (countIf p l); intros
         end;
  lia.

#[local] Ltac run_step :=
  cbv beta iota;
  lazymatch goal with
  | |- Runs (bindM (liftE _) _) _ => apply runs_bind_liftE; [intros ? _ | intros ? _]
  | |- Runs (bindM (ret _) _) _ => apply runs_bind_ret
  | |- Runs (bindM (bindM _ _) _) _ => apply runs_bind_assoc
  | |- Runs (bindM (if ?c then _ else _) _) _ => destruct c
  | |- Runs (if ?c then _ else _) _ => destruct c
  | |- Runs (ret _) _ => apply runs_ret
  end.

(** *** Confirms follow creates *)

Lemma iteration_ordered (w : World) (expectedAmount attempts : Z) (currentCard : JsVal) :
  Runs (iteration w expectedAmount attempts currentCard)
       (fun res evs => (exists step, res = Ok step) /\ ordered evs).
Proof.
  unfold iteration.
  apply (runs_try _ _ (fun res evs => ordered evs)).
  - apply runs_bind_call; [intros pm _ | intros e _; count].
    repeat run_step.
    all: try count.
    all: apply runs_bind_call; [intros confirm _ | intros e _; count].
    all: eapply runs_bind; [apply recoverAmount_runs | | ].
    all: cbv beta.
    all: try (intros e evs1 H1; count).
    all: intros rd evs1 H1; eapply runs_weaken; [apply decideOutcome_runs|].
    all: intros res evs2 [-> Hres]; count.
  - intros a evs H. split; [eexists; reflexivity | exact H].
  - intros e evs1 H. apply runs_ret. split; [eexists; reflexivity|].
    rewrite List.app_nil_r. exact H.
Qed.

Lemma attemptLoop_ordered (w : World) (card : CardArg) (retries expectedAmount : Z) :
  forall (fuel : nat) (att : Z) (lastError : JsVal),
    Runs (attemptLoop w card retries expectedAmount fuel att lastError)
         (fun _ evs => ordered evs).
Proof.
  induction fuel as [|fuel IH]; intros att lastError;
    cbn [attemptLoop]; destruct (att <=? retries).
  - apply runs_ret. count.
  - apply runs_ret. count.
  - eapply runs_bind; [apply currentCardOf_runs | | ].
    + intros currentCard evs0 H0. cbv beta.
      eapply runs_bind; [apply iteration_ordered | | ].
      * intros step evs1 (_ & H1). cbv beta.
        destruct step as [result | lastError'].
        -- apply runs_ret. count.
        -- eapply runs_weaken; [apply (IH (att + 1) lastError')|].
           intros res evs2 H2. cbv beta in H2. count.
      * intros e evs1 (_ & H1). count.
    + intros e evs0 H0. count.
  - apply runs_ret. count.
Qed.

(** X8.  In every run of [attemptPayment], whatever the world, the card,
    the retry count and the rounds allowed, the corrective confirms are no
    more than the confirms, and the confirms no more than the creates: a
    confirm is only ever sent after a create of the same cycle, and a
    corrective confirm after a confirm. *)
Theorem attemptPayment_confirms_follow_creates (w : World) (fuel : nat)
    (checkoutUrl : jsstr) (card : CardArg) (retries : Z) :
  exists res log,
    attemptPayment w fuel checkoutUrl card retries [] = (res, log)
    /\ countIf isReconfirm log <= countIf isConfirm log
    /\ countIf isConfirm log <= countIf isCreate log.
Proof.
  assert (H : Runs (attemptPayment w fuel checkoutUrl card retries)
                   (fun _ evs => ordered evs)).
  { unfold attemptPayment.
    apply runs_bind_liftE; [intros parsed _ | intros e _; count].
    destruct (_ || _).
    - apply runs_throw. count.
    - apply runs_bind_call; [intros info _ | intros e _; count].
      eapply runs_weaken; [apply attemptLoop_ordered|].
      intros res evs H. cbv beta in H. count. }
  destruct (H []) as (res & evs & E & Ho). exists res, evs. split; [exact E | exact Ho].
Qed.


(** *** Before the loop *)

Lemma attemptPayment_no_ids (w : World) (fuel : nat) (checkoutUrl : jsstr)
    (card : CardArg) (retries : Z) (parsed : ParsedUrl) (log : list Event) :
  parseCheckoutUrl checkoutUrl = Ok parsed ->
  present (sessionId parsed) && present (publicKey parsed) = false ->
  attemptPayment w fuel checkoutUrl card retries log
  = (Throw (Err (js "Unable to extract session or public key from checkout URL")), log).
Proof.
  intros Hp Hm. unfold attemptPayment, bindM, liftE, throw. rewrite Hp.
  destruct (present (sessionId parsed)), (present (publicKey parsed));
    try discriminate Hm; reflexivity.
Qed.

(** X9.  Without both a session identifier and a publishable key
    [attemptPayment] throws before it contacts anything: the log of calls
    is left as it was.  A non-empty URL that contains neither [#] nor [%]
    is such a URL, since the key is only ever read from the fragment. *)
Theorem attemptPayment_needs_both_ids (w : World) (fuel : nat) (card : CardArg)
    (retries : Z) (log : list Event) :
  (forall checkoutUrl parsed,
     parseCheckoutUrl checkoutUrl = Ok parsed ->
     present (sessionId parsed) && present (publicKey parsed) = false ->
     attemptPayment w fuel checkoutUrl card retries log
     = (Throw (Err (js "Unable to extract session or public key from checkout URL")), log))
  /\ (forall checkoutUrl,
        ~ In 35%N checkoutUrl -> ~ In 37%N checkoutUrl ->
        attemptPayment w fuel checkoutUrl card retries log
        = (Throw (Err (js "Unable to extract session or public key from checkout URL")), log)).
Proof.
  split.
  - intros checkoutUrl parsed. apply attemptPayment_no_ids.
  - intros checkoutUrl Hhash Hpct.
    assert (Hp : exists sid, parseCheckoutUrl checkoutUrl = Ok (mkParsedUrl sid None None)).
    { unfold parseCheckoutUrl. destruct checkoutUrl as [|c rest]; [eexists; reflexivity|].
      cbn [List.length Nat.eqb].
      rewrite (decodeURIComponent_plain _ Hpct). cbn [try_catch bindE].
      assert (Hi : indexOf 35 (c :: rest) = None).
      { clear Hpct. induction (c :: rest) as [|x l IH]; cbn [indexOf]; [reflexivity|].
        destruct (N.eqb_spec x 35) as [-> | _]; [exfalso; apply Hhash; left; reflexivity|].
        rewrite IH; [reflexivity|]. intros Hin. apply Hhash. right. exact Hin. }
      rewrite Hi. eexists. reflexivity. }
    destruct Hp as (sid & Hp).
    apply (attemptPayment_no_ids _ _ _ _ _ _ _ Hp).
    cbn [sessionId publicKey present]. apply andb_false_r.
Qed.

(** *** A negative retry count *)

(** X10.  With a negative retry count (the older payment route passes
    [parseInt] of the query parameter unclamped) the loop body never runs:
    once the URL is parsed and the session fetched, no card is produced and
    no create or confirm call is made, yet the result reports one attempt:
    success false, status [declined], [attempts] 1, and no error. *)
Theorem attemptPayment_negative_retries (w : World) (fuel : nat) (checkoutUrl : jsstr)
    (card : CardArg) (retries : Z) (parsed : ParsedUrl) (info : CheckoutInfo) :
  retries < 0 ->
  parseCheckoutUrl checkoutUrl = Ok parsed ->
  present (sessionId parsed) && present (publicKey parsed) = true ->
  initialInfo w = Ok info ->
  exists r,
    attemptPayment w fuel checkoutUrl card retries [] = (Ok (Some r), [EvFetchInfo])
    /\ getE r (js "success") = Ok (VBool false)
    /\ getE r (js "status") = Ok (VStr (js "declined"))
    /\ getE r (js "attempts") = Ok (VNum 1)
    /\ getE r (js "error") = Ok VUndef.
Proof.
  intros Hr Hp Hm Hi. unfold attemptPayment, bindM, liftE, call. rewrite Hp.
  apply andb_true_iff in Hm. destruct Hm as [-> ->]. cbn [negb orb]. rewrite Hi.
  assert (Hle : (0 <=? retries) = false) by (apply Z.leb_gt; exact Hr).
  destruct fuel; cbn [attemptLoop]; rewrite Hle; unfold ret;
    (eexists; split; [reflexivity | repeat split; vm_compute; reflexivity]).
Qed.

Lemma attemptPayment_negative_retries_witness :
  exists r,
    attemptPayment declineWorld 0 sampleUrl (Literal sampleCard) (-1) []
    = (Ok (Some r), [EvFetchInfo])
    /\ getE r (js "success") = Ok (VBool false)
    /\ getE r (js "status") = Ok (VStr (js "declined"))
    /\ getE r (js "attempts") = Ok (VNum 1)
    /\ getE r (js "error") = Ok VUndef.
Proof.
  apply (attemptPayment_negative_retries declineWorld 0 sampleUrl (Literal sampleCard) (-1)
           (mkParsedUrl (Some (js "cs_test_a1B2")) (Some (js "pk_test_51Hxyz"))
              (matchSite samplePayload))
           (infoOf [500])).
  - lia.
  - vm_compute. reflexivity.
  - reflexivity.
  - reflexivity.
Defined.


(** *** When every create fails *)

Lemma iteration_create_fails (w : World) (expectedAmount attempts : Z)
    (currentCard : JsVal) (log : list Event) :
  createFails w attempts currentCard = true ->
  exists lastError,
    iteration w expectedAmount attempts currentCard log
    = (Ok (Continue lastError), log ++ [EvCreate attempts currentCard]).
Proof.
  unfold createFails, iteration, tryM, bindM, call, liftE, ret.
  destruct (createPaymentMethod w attempts currentCard) as [pm | e];
    [|intros _; eexists; reflexivity].
  destruct (statusCode pm =? 200); cbn [negb orb].
  - destruct (getE (data pm) (js "id")) as [id | e]; [|intros _; eexists; reflexivity].
    intros ->.
    destruct (getE (data pm) (js "error")); eexists; reflexivity.
  - intros _. destruct (getE (data pm) (js "error")); eexists; reflexivity.
Qed.

Lemma createDetailedResponse_declined (ts : jsstr) (attempts : Z) (error : JsVal) :
  getE (createDetailedResponse ts attempts error) (js "success") = Ok (VBool false)
  /\ getE (createDetailedResponse ts attempts error) (js "status")
     = Ok (VStr (js "declined")).
Proof.
  unfold createDetailedResponse.
  destruct (truthy error); destruct (attempts =? 0); split; vm_compute; reflexivity.
Qed.

Lemma attemptLoop_creates_fail (w : World) (card : CardArg) (retries expectedAmount : Z) :
  (forall k, 1 <= k <= retries + 1 ->
     exists c, cardYields card k c /\ createFails w k c = true) ->
  forall (fuel : nat) (att : Z) (lastError : JsVal) (log : list Event),
    0 <= att <= retries + 1 ->
    retries + 1 - att <= Z.of_nat fuel ->
    exists e log',
      attemptLoop w card retries expectedAmount fuel att lastError log
      = (Ok (Some (createDetailedResponse (timestamp w) (retries + 1) e)), log')
      /\ countIf isCreate log' = countIf isCreate log + (retries + 1 - att)
      /\ countIf isConfirm log' = countIf isConfirm log.
Proof.
  intros Hall. induction fuel as [|fuel IH]; intros att lastError log Hatt Hfuel;
    cbn [attemptLoop]; destruct (Z.leb_spec att retries) as [Hle | Hgt].
  - lia.
  - replace att with (retries + 1) by lia. exists lastError, log.
    split; [reflexivity|]. lia.
  - destruct (Hall (att + 1) ltac:(lia)) as (c & Hy & Hf).
    unfold bindM. rewrite (currentCardOf_yields card (att + 1) c log Hy).
    destruct (iteration_create_fails w expectedAmount (att + 1) c
                (log ++ cardEvents card (att + 1)) Hf) as (e1 & ->).
    destruct (IH (att + 1) e1
                ((log ++ cardEvents card (att + 1)) ++ [EvCreate (att + 1) c])
                ltac:(lia) ltac:(lia)) as (e & log' & E & Hc & Hf').
    exists e, log'. split; [exact E|].
    rewrite Hc, Hf', !countIf_app, !countIf_cons, !countIf_nil.
    cbn [isCreate isConfirm].
    assert (countIf isCreate (cardEvents card (att + 1)) = 0
            /\ countIf isConfirm (cardEvents card (att + 1)) = 0)
      by (destruct card; split; reflexivity).
    lia.
  - replace att with (retries + 1) by lia. exists lastError, log.
    split; [reflexivity|]. lia.
Qed.




(** *** What an approval rests on *)

Lemma getE_prop (v : JsVal) (k : jsstr) (x : JsVal) : getE v k = Ok x -> x = prop v k.
Proof. destruct v; cbn [getE prop]; congruence. Qed.

(** On a working response without a decline signal the decision makes no
    call and does not throw; it returns the approved result when the first
    confirm answered 200 and the response is complete or requires an
    action, and goes to the next round otherwise. *)
Lemma decideOutcome_not_declined (attempts : Z) (currentCard : JsVal) (pm : HttpResponse)
    (confirmStatus : Z) (fields : gmap jsstr JsVal) (log : list Event) :
  looksDeclined (VObj fields) = false ->
  exists step,
    decideOutcome attempts currentCard pm confirmStatus (VObj fields) log = (Ok step, log)
    /\ forall r, step = Return r ->
         confirmStatus = 200
         /\ getE r (js "attempts") = Ok (VNum attempts)
         /\ getE r (js "status") = Ok (VStr (js "approved"))
         /\ getE r (js "card") = Ok currentCard
         /\ getE r (js "confirmation") = Ok (VObj fields)
         /\ (isStr (prop (VObj fields) (js "status")) (js "complete") = true
             \/ isStr (prop (prop (VObj fields) (js "payment_intent")) (js "status"))
                  (js "requires_action") = true).
Proof.
  unfold looksDeclined. intros H.
  unfold decideOutcome, bindM, liftE, ret.
  change (getE (VObj fields)) with (fun k => Ok (prop (VObj fields) k)). cbv beta.
  set (pi := prop (VObj fields) (js "payment_intent")) in *.
  set (err := prop (VObj fields) (js "error")) in *.
  destruct (truthy err) eqn:Herr;
    [rewrite orb_true_r in H; discriminate H|].
  rewrite orb_false_r in H.
  destruct (truthy pi) eqn:Hpi; rewrite ?Hpi, ?Herr in *; cbn [andb orb] in H.
  - apply orb_false_iff in H. destruct H as [Hrpm Hlpe].
    rewrite ?(getE_truthy pi) by exact Hpi. cbv beta iota zeta.
    rewrite Hrpm.
    destruct (isStr (prop pi (js "status")) (js "requires_action")) eqn:Hra;
      rewrite ?(getE_truthy pi) by exact Hpi;
      cbv beta iota zeta; cbn [truthy]; rewrite ?Hlpe; cbn [orb]; cbv beta iota zeta.
    + destruct (Z.eqb_spec confirmStatus 200) as [-> | Hne]; cbn [andb].
      * destruct ((isStr (prop (VObj fields) (js "status")) (js "complete")) || truthy (prop pi (js "next_action"))) eqn:Hc.
        -- destruct (truthy (prop pi (js "next_action"))); cbv beta iota zeta;
             (eexists; split; [reflexivity|]; intros r [= <-];
              split; [reflexivity|]; repeat split; try (vm_compute; reflexivity);
              right; reflexivity).
        -- eexists; split; [reflexivity | discriminate].
      * eexists; split; [reflexivity | discriminate].
    + rewrite orb_false_r.
      destruct (Z.eqb_spec confirmStatus 200) as [-> | Hne]; cbn [andb].
      * destruct (isStr (prop (VObj fields) (js "status")) (js "complete")) eqn:Hc.
        -- eexists; split; [reflexivity|]. intros r [= <-].
           split; [reflexivity|]. repeat split; try (vm_compute; reflexivity).
           left; reflexivity.
        -- eexists; split; [reflexivity | discriminate].
      * eexists; split; [reflexivity | discriminate].
  - cbv beta iota zeta. rewrite Hpi. cbn [orb]. cbv beta iota zeta.
    rewrite orb_false_r.
    destruct (Z.eqb_spec confirmStatus 200) as [-> | Hne]; cbn [andb].
    + destruct (isStr (prop (VObj fields) (js "status")) (js "complete")) eqn:Hc.
      * eexists; split; [reflexivity|]. intros r [= <-].
        split; [reflexivity|]. repeat split; try (vm_compute; reflexivity).
        left; reflexivity.
      * eexists; split; [reflexivity | discriminate].
    + eexists; split; [reflexivity | discriminate].
Qed.


(** A result of the decision that reports success: the first confirm
    answered 200 and the working response has no decline signal. *)
Lemma decideOutcome_success (attempts : Z) (currentCard : JsVal) (pm : HttpResponse)
    (confirmStatus : Z) (responseData : JsVal) (log log' : list Event) (r : JsVal) :
  decideOutcome attempts currentCard pm confirmStatus responseData log
  = (Ok (Return r), log') ->
  getE r (js "success") = Ok (VBool true) ->
  confirmStatus = 200
  /\ getE r (js "attempts") = Ok (VNum attempts)
  /\ getE r (js "status") = Ok (VStr (js "approved"))
  /\ getE r (js "card") = Ok currentCard
  /\ getE r (js "confirmation") = Ok responseData
  /\ looksDeclined responseData = false
  /\ (isStr (prop responseData (js "status")) (js "complete") = true
      \/ isStr (prop (prop responseData (js "payment_intent")) (js "status"))
           (js "requires_action") = true).
Proof.
  intros H Hs.
  destruct responseData as [| |b|z|t|items|fields].
  1-2: discriminate H.
  1-4: unfold decideOutcome, bindM, liftE, ret in H; cbn [getE truthy isStr orb] in H;
       cbv beta iota zeta in H; rewrite andb_false_r in H; discriminate H.
  destruct (looksDeclined (VObj fields)) eqn:HL.
  - destruct (decideOutcome_declines attempts currentCard pm confirmStatus fields log HL)
      as (r' & E & Hs' & _).
    rewrite E in H. injection H as <- _. congruence.
  - destruct (decideOutcome_not_declined attempts currentCard pm confirmStatus fields log HL)
      as (step & E & Hstep).
    rewrite E in H. injection H as -> _.
    destruct (Hstep r eq_refl) as (H1 & H2 & H3 & H4 & H5 & H6).
    repeat (split; [assumption|]). split; [reflexivity | exact H6].
Qed.

Lemma decideOutcome_runs_success (attempts : Z) (currentCard : JsVal) (pm : HttpResponse)
    (confirmStatus : Z) (responseData : JsVal) :
  Runs (decideOutcome attempts currentCard pm confirmStatus responseData)
       (fun res evs =>
          evs = []
          /\ forall r, res = Ok (Return r) -> getE r (js "success") = Ok (VBool true) ->
               confirmStatus = 200
               /\ getE r (js "attempts") = Ok (VNum attempts)
               /\ getE r (js "status") = Ok (VStr (js "approved"))
               /\ getE r (js "card") = Ok currentCard
               /\ getE r (js "confirmation") = Ok responseData
               /\ looksDeclined responseData = false
               /\ (isStr (prop responseData (js "status")) (js "complete") = true
                   \/ isStr (prop (prop responseData (js "payment_intent")) (js "status"))
                        (js "requires_action") = true)).
Proof.
  intros log.
  destruct (decideOutcome_runs attempts currentCard pm confirmStatus responseData log)
    as (res & evs & E & -> & _).
  exists res, []. split; [exact E|]. split; [reflexivity|].
  intros r -> Hs. exact (decideOutcome_success _ _ _ _ _ _ _ _ E Hs).
Qed.

Lemma iteration_success (w : World) (expectedAmount attempts : Z) (currentCard : JsVal) :
  Runs (iteration w expectedAmount attempts currentCard)
       (fun res evs =>
          (exists step, res = Ok step)
          /\ forall r, res = Ok (Return r) -> getE r (js "success") = Ok (VBool true) ->
               approvalEvidence w expectedAmount r evs).
Proof.
  unfold iteration.
  apply (runs_try _ _
           (fun res evs =>
              forall r, res = Ok (Return r) -> getE r (js "success") = Ok (VBool true) ->
                approvalEvidence w expectedAmount r evs)).
  - apply runs_bind_call; [intros pm Hpm | intros e _; discriminate].
    destruct (Z.eqb_spec (statusCode pm) 200) as [H200 | Hne]; cbn [negb].
    2:{ repeat run_step; discriminate. }
    apply runs_bind_assoc.
    apply runs_bind_liftE; [intros id Hid | intros e _; discriminate].
    apply runs_bind_ret.
    destruct (truthy id) eqn:Htid; cbn [negb].
    2:{ repeat run_step; discriminate. }
    apply runs_bind_liftE; [intros id' Hid' | intros e _; discriminate].
    assert (id' = prop (data pm) (js "id")) as -> by (apply getE_prop; exact Hid').
    assert (id = prop (data pm) (js "id")) as -> by (apply getE_prop; exact Hid).
    apply runs_bind_call; [intros confirm Hconfirm | intros e _; discriminate].
    eapply runs_bind; [apply recoverAmount_runs | | ].
    + intros rd evs1 _. cbv beta.
      eapply runs_weaken; [apply decideOutcome_runs_success|].
      intros res evs2 [-> Hres] r -> Hs.
      destruct (Hres r eq_refl Hs) as (H1 & H2 & H3 & H4 & H5 & H6 & H7).
      exists attempts, currentCard, pm, confirm, rd.
      repeat (split; [first [assumption | reflexivity | (left; reflexivity)
                             | (right; left; reflexivity)]|]).
      exact H7.
    + intros e evs1 _. discriminate.
  - intros a evs H. split; [eexists; reflexivity | exact H].
  - intros e evs1 _. apply runs_ret. split; [eexists; reflexivity | discriminate].
Qed.

Lemma approvalEvidence_extend (w : World) (expectedAmount : Z) (r : JsVal)
    (before evs after : list Event) :
  approvalEvidence w expectedAmount r evs ->
  approvalEvidence w expectedAmount r (before ++ evs ++ after).
Proof.
  intros (k & c & pm & confirm & rd & H).
  exists k, c, pm, confirm, rd.
  repeat match goal with
         | H : _ /\ _ |- _ => destruct H
         end.
  repeat (split; [first [assumption
                        | apply List.in_or_app; right; apply List.in_or_app; left; assumption]|]).
  assumption.
Qed.

Lemma attemptLoop_success (w : World) (card : CardArg) (retries expectedAmount : Z) :
  forall (fuel : nat) (att : Z) (lastError : JsVal),
    Runs (attemptLoop w card retries expectedAmount fuel att lastError)
         (fun res evs =>
            forall r, res = Ok (Some r) -> getE r (js "success") = Ok (VBool true) ->
              approvalEvidence w expectedAmount r evs).
Proof.
  assert (Hfinal : forall att lastError,
            Runs (ret (Some (createDetailedResponse (timestamp w) att lastError)))
              (fun res evs =>
                 forall r, res = Ok (Some r) -> getE r (js "success") = Ok (VBool true) ->
                   approvalEvidence w expectedAmount r evs)).
  { intros att lastError. apply runs_ret. intros r [= <-] Hs.
    rewrite (proj1 (createDetailedResponse_declined _ _ _)) in Hs. discriminate. }
  induction fuel as [|fuel IH]; intros att lastError;
    cbn [attemptLoop]; destruct (att <=? retries); try apply Hfinal.
  - apply runs_ret. discriminate.
  - eapply runs_bind; [apply currentCardOf_runs | | ].
    + intros currentCard evs0 _. cbv beta.
      eapply runs_bind; [apply iteration_success | | ].
      * intros step evs1 (_ & H1). cbv beta.
        destruct step as [result | lastError'].
        -- apply runs_ret. intros r [= <-] Hs.
           rewrite List.app_nil_r.
           apply (approvalEvidence_extend w expectedAmount result evs0 evs1 []) in H1;
             [rewrite List.app_nil_r in H1; exact H1 | reflexivity | exact Hs].
        -- eapply runs_weaken; [apply (IH (att + 1) lastError')|].
           intros res evs2 H2 r -> Hs. cbv beta in H2.
           specialize (H2 r eq_refl Hs).
           apply (approvalEvidence_extend w expectedAmount r (evs0 ++ evs1) evs2 []) in H2.
           rewrite List.app_nil_r, <- List.app_assoc in H2. exact H2.
      * intros e evs1 _. discriminate.
    + intros e evs0 _. discriminate.
Qed.

(** X12.  A result of [attemptPayment] that reports success rests on a
    cycle that went through: its [status] is [approved], its [attempts] is
    the number [k] of a cycle whose create call answered 200 with an [id],
    whose confirm call was sent with that [id] and the expected amount and
    answered 200, and its [confirmation] (the working response of that
    cycle) carries no decline signal (no error object, no
    [requires_payment_method], no [last_payment_error]) and is [complete]
    or has a payment intent that [requires_action]. *)
Theorem attemptPayment_success_evidence (w : World) (fuel : nat) (checkoutUrl : jsstr)
    (card : CardArg) (retries : Z) (r : JsVal) (log : list Event) :
  attemptPayment w fuel checkoutUrl card retries [] = (Ok (Some r), log) ->
  getE r (js "success") = Ok (VBool true) ->
  exists info,
    initialInfo w = Ok info
    /\ approvalEvidence w (expectedAmountOf info) r log.
Proof.
  intros H Hs.
  assert (HR : Runs (attemptPayment w fuel checkoutUrl card retries)
                 (fun res evs =>
                    forall r, res = Ok (Some r) -> getE r (js "success") = Ok (VBool true) ->
                      exists info,
                        initialInfo w = Ok info
                        /\ approvalEvidence w (expectedAmountOf info) r evs)).
  { unfold attemptPayment.
    apply runs_bind_liftE; [intros parsed _ | intros e _; discriminate].
    destruct (_ || _).
    - apply runs_throw. discriminate.
    - apply runs_bind_call; [intros info Hinfo | intros e _; discriminate].
      eapply runs_weaken; [apply attemptLoop_success|].
      intros res evs Hev r0 -> Hs0. exists info. split; [exact Hinfo|].
      apply (approvalEvidence_extend w _ r0 [EvFetchInfo] evs []) in Hev;
        [rewrite List.app_nil_r in Hev; exact Hev | reflexivity | exact Hs0]. }
  destruct (HR []) as (res & evs & E & Hev). cbn [app] in E.
  rewrite H in E. injection E as <- <-. apply Hev; [reflexivity | exact Hs].
Qed.

Lemma attemptPayment_success_evidence_witness :
  exists info,
    initialInfo completeWorld = Ok info
    /\ approvalEvidence completeWorld (expectedAmountOf info) completeResult
         [EvFetchInfo; EvCreate 1 sampleCard; EvConfirm 1 (VStr (js "pm_1")) 500].
Proof.
  apply (attemptPayment_success_evidence completeWorld 1 sampleUrl (Literal sampleCard) 0).
  - vm_compute. reflexivity.
  - vm_compute. reflexivity.
Defined.

End EngineMore.

(** ** Card types *)

Section CardTypeFacts.

Lemma digitsToEnd_spec (n : nat) (s : jsstr) :
  digitsToEnd n s = true <-> List.length s = n /\ Forall (fun c => is_digit c = true) s.
Proof.
  unfold digitsToEnd. rewrite andb_true_iff, Nat.eqb_eq, List.forallb_forall, List.Forall_forall.
  tauto.
Qed.

(** A match of a sequence of classes: the leading characters are in their
    classes, the rest is [n] digits. *)
Lemma classesThenDigits_spec (classes : list (N -> bool)) (n : nat) :
  forall s,
    classesThenDigits classes n s = true <->
    exists head tail,
      s = head ++ tail
      /\ Forall2 (fun class c => class c = true) classes head
      /\ List.length tail = n /\ Forall (fun c => is_digit c = true) tail.
Proof.
  induction classes as [|class rest IH]; intros s; cbn [classesThenDigits].
  - rewrite digitsToEnd_spec. split.
    + intros [Hl Hd]. exists [], s. repeat split; try assumption. constructor.
    + intros (head & tail & -> & Hh & Hl & Hd). inversion Hh; subst. cbn [app]. tauto.
  - destruct s as [|c r].
    + split; [discriminate|]. intros (head & tail & Hs & Hh & _).
      inversion Hh; subst. discriminate.
    + rewrite andb_true_iff, IH. split.
      * intros (Hc & head & tail & -> & Hh & Hl & Hd).
        exists (c :: head), tail. repeat split; try assumption. constructor; assumption.
      * intros (head & tail & Hs & Hh & Hl & Hd).
        inversion Hh as [|class' c' rest' head' Hc Hh']; subst.
        cbn [app] in Hs. injection Hs as -> ->.
        split; [exact Hc|]. exists head', tail. tauto.
Qed.


#[local] Ltac open_match H :=
  repeat match type of H with
         | (_ || _) = true => apply orb_true_iff in H; destruct H as [H | H]
         end;
  apply classesThenDigits_spec in H;
  destruct H as (head & tail & -> & Hh & Hl & Hd);
  repeat match goal with
         | H : Forall2 _ (_ :: _) _ |- _ => inversion H; subst; clear H
         | H : Forall2 _ [] _ |- _ => inversion H; subst; clear H
         end;
  unfold oneChar, inRange, oneOf in *;
  repeat match goal with
         | H : (_ =? _)%N = true |- _ => apply N.eqb_eq in H; subst
         | H : (_ || _) = true |- _ => apply orb_true_iff in H; destruct H as [H | H]
         | H : (_ && _) = true |- _ => apply andb_true_iff in H; destruct H as [? H]
         | H : (_ <=? _)%N = true |- _ => apply N.leb_le in H
         end.

#[local] Ltac close_leads :=
  unfold leads; cbn [app nth List.length fst snd];
  split;
  [ repeat first [ apply Exists_cons_hd; cbn [fst snd]; split;
                   [reflexivity
                   | split; [first [left; reflexivity | right; cbn [In]; lia] | lia]]
                 | apply Exists_cons_tl ]
  | repeat (constructor; [first [reflexivity | assumption | apply is_digit_range; lia]|]);
    assumption ].

Lemma isVisa_leads (s : jsstr) :
  isVisa s = true -> leads s [(52, [], 13%nat); (52, [], 16%nat)]%N.
Proof. unfold isVisa. intros H. open_match H; close_leads. Qed.

Lemma isMastercard_leads (s : jsstr) :
  isMastercard s = true -> leads s [(53, [49; 50; 51; 52; 53], 16%nat)]%N.
Proof. unfold isMastercard. intros H. open_match H; close_leads. Qed.

Lemma isAmEx_leads (s : jsstr) :
  isAmEx s = true -> leads s [(51, [52; 55], 15%nat)]%N.
Proof. unfold isAmEx. intros H. open_match H; close_leads. Qed.

Lemma isDiscover_leads (s : jsstr) :
  isDiscover s = true -> leads s [(54, [48; 53], 16%nat)]%N.
Proof. unfold isDiscover. intros H. open_match H; close_leads. Qed.

Lemma isDiners_leads (s : jsstr) :
  isDiners s = true -> leads s [(51, [48; 54; 56], 14%nat)]%N.
Proof. unfold isDiners. intros H. open_match H; close_leads. Qed.

Lemma isJCB_leads (s : jsstr) :
  isJCB s = true ->
  leads s [(50, [49], 15%nat); (49, [56], 15%nat); (51, [53], 16%nat)]%N.
Proof. unfold isJCB. intros H. open_match H; close_leads. Qed.

#[local] Ltac clash :=
  unfold leads in *;
  repeat match goal with
         | H : _ /\ _ |- _ => destruct H
         | H : Exists _ (_ :: _) |- _ => apply Exists_cons in H; destruct H as [H | H]
         | H : Exists _ [] |- _ => apply Exists_nil in H; contradiction
         end;
  cbn [fst snd In] in *; intuition (try discriminate; try lia).

(** No string matches two of the six patterns. *)
Lemma patterns_exclusive (s : jsstr) (t1 t2 : jsstr) (p1 p2 : jsstr -> bool) :
  In (t1, p1) patterns -> In (t2, p2) patterns ->
  p1 s = true -> p2 s = true -> t1 = t2.
Proof.
  unfold patterns. cbn [In]. intros H1 H2 M1 M2.
  repeat (destruct H1 as [[= <- <-] | H1]); try contradiction;
  repeat (destruct H2 as [[= <- <-] | H2]); try contradiction;
  try reflexivity; exfalso;
  repeat match goal with
         | H : isVisa _ = true |- _ => apply isVisa_leads in H
         | H : isMastercard _ = true |- _ => apply isMastercard_leads in H
         | H : isAmEx _ = true |- _ => apply isAmEx_leads in H
         | H : isDiscover _ = true |- _ => apply isDiscover_leads in H
         | H : isDiners _ = true |- _ => apply isDiners_leads in H
         | H : isJCB _ = true |- _ => apply isJCB_leads in H
         end;
  clash.
Qed.

(** A name stands for one pattern. *)
Lemma patterns_functional (t : jsstr) (p q : jsstr -> bool) :
  In (t, p) patterns -> In (t, q) patterns -> p = q.
Proof.
  unfold patterns. cbn [In]. intros Hp Hq.
  repeat (destruct Hp as [Hp | Hp]; [injection Hp as <- <-|]); try contradiction;
  repeat (destruct Hq as [Hq | Hq];
          [pose proof (f_equal fst Hq) as Hn; apply (f_equal snd) in Hq;
           cbn [fst snd] in Hn, Hq; first [exact Hq | discriminate Hn]|]);
  contradiction.
Qed.

Lemma firstPattern_found (table : list (jsstr * (jsstr -> bool))) (s : jsstr) :
  firstPattern table s = js "Unknown"
  \/ exists p, In (firstPattern table s, p) table /\ p s = true.
Proof.
  induction table as [|[t p] rest IH]; cbn [firstPattern]; [left; reflexivity|].
  destruct (p s) eqn:E.
  - right. exists p. split; [left; reflexivity | exact E].
  - destruct IH as [IH | (q & Hq & Hm)]; [left; exact IH|].
    right. exists q. split; [right; exact Hq | exact Hm].
Qed.

Lemma firstPattern_of_match (s t : jsstr) (p : jsstr -> bool) :
  In (t, p) patterns -> p s = true -> firstPattern patterns s = t.
Proof.
  intros Hin Hm.
  assert (Hex : forall t' p', In (t', p') patterns -> p' s = true -> t' = t)
    by (intros t' p' H' M'; exact (patterns_exclusive s t' t p' p H' Hin M' Hm)).
  revert Hin Hex. generalize patterns as table.
  induction table as [|[t0 p0] rest IH]; cbn [firstPattern In]; [contradiction|].
  intros Hin Hex. destruct (p0 s) eqn:E.
  - apply (Hex t0 p0); [left; reflexivity | exact E].
  - destruct Hin as [[= -> ->] | Hin]; [congruence|].
    apply IH; [exact Hin|]. intros t' p' H'. apply Hex. right. exact H'.
Qed.

(** X13.  The six card-type patterns of [getCardType] are mutually
    exclusive, so the order of the table does not matter: the answer is
    [Visa], ..., [JCB] exactly when the number matches that pattern, and
    [Unknown] exactly when it matches none (or is empty or missing).  A
    number that is recognised consists of digits only and has 13 to 16 of
    them. *)
Theorem getCardType_patterns_exclusive :
  (forall s t1 t2 p1 p2,
     In (t1, p1) patterns -> In (t2, p2) patterns ->
     p1 s = true -> p2 s = true -> t1 = t2)
  /\ (forall s t p, s <> [] -> In (t, p) patterns ->
        (getCardType (Some s) = t <-> p s = true))
  /\ (forall s, getCardType (Some s) = js "Unknown" <->
                s = [] \/ forall t p, In (t, p) patterns -> p s = false)
  /\ (forall s, getCardType (Some s) <> js "Unknown" ->
                Forall (fun c => is_digit c = true) s
                /\ (13 <= List.length s <= 16)%nat)
  /\ getCardType None = js "Unknown".
Proof.
  assert (Hnames : forall t p, In (t, p) patterns -> t <> js "Unknown").
  { unfold patterns. cbn [In]. intros t p H.
    repeat (destruct H as [[= <- <-] | H]; [discriminate|]). contradiction. }
  split; [exact patterns_exclusive|]. split; [|split; [|split]].
  - intros s t p Hs Hin. destruct s as [|c r]; [congruence|]. cbn [getCardType]. split.
    + intros Ht. destruct (firstPattern_found patterns (c :: r)) as [Hu | (q & Hq & Hm)].
      * exfalso. apply (Hnames t p Hin). congruence.
      * rewrite Ht in Hq. rewrite (patterns_functional t p q Hin Hq). exact Hm.
    + apply firstPattern_of_match. exact Hin.
  - intros s. destruct s as [|c r]; cbn [getCardType].
    + split; [left; reflexivity | reflexivity].
    + split.
      * intros Hu. right. intros t p Hin.
        destruct (p (c :: r)) eqn:E; [|reflexivity]. exfalso.
        apply (Hnames t p Hin). rewrite <- Hu. symmetry.
        apply (firstPattern_of_match _ _ p Hin E).
      * intros [[=] | Hnone].
        destruct (firstPattern_found patterns (c :: r)) as [Hu | (q & Hq & Hm)];
          [exact Hu|].
        rewrite (Hnone _ _ Hq) in Hm. discriminate.
  - intros s Hk. destruct s as [|c r]; [contradiction Hk; reflexivity|].
    cbn [getCardType] in Hk.
    destruct (firstPattern_found patterns (c :: r)) as [Hu | (q & Hq & Hm)];
      [contradiction|].
    revert Hq Hm. generalize (firstPattern patterns (c :: r)) as t.
    intros t Hq Hm. unfold patterns in Hq. cbn [In] in Hq.
    repeat (destruct Hq as [[= <- <-] | Hq]); try contradiction;
    repeat match goal with
           | H : isVisa _ = true |- _ => apply isVisa_leads in H
           | H : isMastercard _ = true |- _ => apply isMastercard_leads in H
           | H : isAmEx _ = true |- _ => apply isAmEx_leads in H
           | H : isDiscover _ = true |- _ => apply isDiscover_leads in H
           | H : isDiners _ = true |- _ => apply isDiners_leads in H
           | H : isJCB _ = true |- _ => apply isJCB_leads in H
           end;
    destruct Hm as (Hcases & Hd); (split; [exact Hd|]);
    repeat match goal with
           | H : Exists _ (_ :: _) |- _ => apply Exists_cons in H; destruct H as [H | H]
           | H : Exists _ [] |- _ => apply Exists_nil in H; contradiction
           end;
    cbn [fst snd] in *; lia.
  - reflexivity.
Qed.


(** X14.  The proxy server's own [getCardType] knows four of the six
    patterns: it agrees with the response handler's on every input, except
    that it answers [Unknown] where the handler answers [Diners] or
    [JCB]. *)
Theorem proxyGetCardType_agrees (cardNumber : option jsstr) :
  proxyGetCardType cardNumber
  = (if bool_decide (getCardType cardNumber = js "Diners")
        || bool_decide (getCardType cardNumber = js "JCB")
     then js "Unknown"
     else getCardType cardNumber).
Proof.
  destruct cardNumber as [[|c r]|]; [reflexivity| |reflexivity].
  cbn [proxyGetCardType getCardType].
  unfold proxyPatterns, patterns. cbn [firstPattern].
  destruct (isVisa (c :: r)); [reflexivity|].
  destruct (isMastercard (c :: r)); [reflexivity|].
  destruct (isAmEx (c :: r)); [reflexivity|].
  destruct (isDiscover (c :: r)); [reflexivity|].
  destruct (isDiners (c :: r)); [reflexivity|].
  destruct (isJCB (c :: r)); reflexivity.
Qed.

(** *** The type of a generated number *)

Lemma startsWith_split (s p : jsstr) :
  startsWith s p = true -> s = p ++ List.skipn (List.length p) s.
Proof.
  revert s. induction p as [|a p IH]; intros s; cbn [startsWith].
  - intros _. reflexivity.
  - destruct s as [|b s]; [discriminate|]. intros H.
    apply andb_true_iff in H. destruct H as [Hab H]. apply N.eqb_eq in Hab. subst b.
    cbn [List.length List.skipn app]. f_equal. apply IH. exact H.
Qed.

(** Two literals that both start a string: one starts the other. *)
Lemma startsWith_compatible (s l1 l2 : jsstr) :
  startsWith s l1 = true -> startsWith s l2 = true ->
  startsWith l1 l2 || startsWith l2 l1 = true.
Proof.
  revert s l2. induction l1 as [|a l1 IH]; intros s l2 H1 H2.
  - destruct l2; reflexivity.
  - destruct l2 as [|b l2]; [reflexivity|].
    destruct s as [|c s]; [discriminate|]. cbn [startsWith] in *.
    apply andb_true_iff in H1, H2. destruct H1 as [E1 H1], H2 as [E2 H2].
    apply N.eqb_eq in E1, E2. subst a b. rewrite N.eqb_refl. cbn [andb].
    exact (IH s l2 H1 H2).
Qed.

(** The number generated from a prefix that starts with a literal and
    leaves room for the check digit matches the classes of the literal
    followed by the digits that fill the target length. *)
Lemma generated_matches (rnd : nat -> Z) (cy cm : Z) (bin : jsstr) (card : Card)
    (literal : jsstr) (classes : list (N -> bool)) (n : nat) :
  generateCardFromBin rnd cy cm bin = Ok card ->
  startsWith (stripNonDigits bin) literal = true ->
  Forall2 (fun class c => class c = true) classes literal ->
  (List.length (stripNonDigits bin) < targetLengthOf (stripNonDigits bin))%nat ->
  targetLengthOf (stripNonDigits bin) = (List.length literal + n)%nat ->
  classesThenDigits classes n (cardNumber card) = true.
Proof.
  intros H Hs Hc Hroom Ht.
  destruct (generate_inv rnd cy cm bin card H)
    as (filler & check & i & y & _ & Hd & Hl & Hk & Hn & _).
  pose proof (stripNonDigits_digits bin) as Hp.
  set (prefix := stripNonDigits bin) in *.
  pose proof (startsWith_split prefix literal Hs) as Hsplit.
  assert (Hlen : List.length prefix
                 = (List.length literal
                    + List.length (List.skipn (List.length literal) prefix))%nat).
  { rewrite Hsplit at 1. apply List.length_app. }
  apply classesThenDigits_spec.
  exists literal, (List.skipn (List.length literal) prefix ++ filler ++ [check]).
  split; [rewrite Hn, Hsplit at 1; rewrite <- List.app_assoc; reflexivity|].
  split; [exact Hc|]. split.
  - rewrite !List.length_app, Hl. cbn [List.length]. lia.
  - rewrite Hsplit in Hp. apply List.Forall_app in Hp. destruct Hp as [_ Hp].
    apply List.Forall_app. split; [exact Hp|].
    apply List.Forall_app. split; [exact Hd | repeat constructor; exact Hk].
Qed.

(** The target length of a prefix that starts with a given literal. *)
#[local] Ltac target_of Hs :=
  unfold targetLengthOf;
  repeat match goal with
         | |- context [startsWith ?p ?l] =>
             lazymatch type of Hs with
             | startsWith p l = true => fail
             | _ => idtac
             end;
             let E := fresh "E" in
             destruct (startsWith p l) eqn:E;
             [ try (pose proof (startsWith_compatible _ _ _ Hs E) as Hbad;
                    vm_compute in Hbad; discriminate Hbad)
             | ]
         end;
  rewrite ?Hs; cbn [orb]; try reflexivity.

Lemma generated_leads (rnd : nat -> Z) (cy cm : Z) (bin : jsstr) (card : Card)
    (literal : jsstr) :
  generateCardFromBin rnd cy cm bin = Ok card ->
  startsWith (stripNonDigits bin) literal = true ->
  (List.length (stripNonDigits bin) < targetLengthOf (stripNonDigits bin))%nat ->
  (forall k, (k < List.length literal)%nat ->
             nth k (cardNumber card) 0%N = nth k literal 0%N)
  /\ List.length (cardNumber card) = targetLengthOf (stripNonDigits bin).
Proof.
  intros H Hs Hroom.
  destruct (generate_inv rnd cy cm bin card H)
    as (filler & check & i & y & _ & Hd & Hl & Hk & Hn & _).
  pose proof (startsWith_split _ _ Hs) as Hsplit.
  rewrite Hn. split.
  - intros k Hk'. rewrite Hsplit, <- List.app_assoc. apply List.app_nth1. exact Hk'.
  - rewrite !List.length_app, Hl. cbn [List.length]. lia.
Qed.

(** Digit classes at the end of a sequence count as digits. *)
Lemma classesThenDigits_digit (classes : list (N -> bool)) (n : nat) :
  forall s,
    classesThenDigits (classes ++ [is_digit]) n s = classesThenDigits classes (S n) s.
Proof.
  induction classes as [|class rest IH]; intros s; cbn [app classesThenDigits].
  - unfold digitsToEnd. destruct s as [|c r]; cbn [List.length List.forallb Nat.eqb].
    + reflexivity.
    + destruct (is_digit c), (List.length r =? n)%nat; reflexivity.
  - destruct s as [|c r]; [reflexivity|]. rewrite IH. reflexivity.
Qed.

Lemma getCardType_unknown (s : jsstr) :
  (forall t p, In (t, p) patterns -> p s = false) ->
  getCardType (Some s) = js "Unknown".
Proof.
  intros Hnone. destruct s as [|c r]; [reflexivity|]. cbn [getCardType].
  destruct (firstPattern_found patterns (c :: r)) as [Hu | (q & Hq & Hm)]; [exact Hu|].
  rewrite (Hnone _ _ Hq) in Hm. discriminate.
Qed.


#[local] Ltac which_literal H :=
  cbn [existsb] in H;
  repeat (apply orb_true_iff in H; destruct H as [H | H]);
  try discriminate H.

(** X15.  The type [getCardType] gives to a number made by
    [generateCardFromBin] from a prefix that leaves room for the check
    digit: [Visa] for a prefix that starts with 4, [Mastercard] for 51-55,
    [AmEx] for 34 and 37, [Discover] for 6011 and 65, [Diners] for 36 and
    38, [JCB] for 35; and [Unknown] for a prefix that starts with 1, 2, 30
    or 62, since the generator makes those numbers 16 digits long while the
    patterns for 1800, 2131 and 300-305 ask for 15 and 14. *)
Theorem generated_card_type (rnd : nat -> Z) (currentYear currentMonth : Z)
    (bin : jsstr) (card : Card) :
  generateCardFromBin rnd currentYear currentMonth bin = Ok card ->
  let prefix := stripNonDigits bin in
  (List.length prefix < targetLengthOf prefix)%nat ->
  let type := getCardType (Some (cardNumber card)) in
  (startsWith prefix (js "4") = true -> type = js "Visa")
  /\ (existsb (startsWith prefix) [js "51"; js "52"; js "53"; js "54"; js "55"] = true ->
      type = js "Mastercard")
  /\ (existsb (startsWith prefix) [js "34"; js "37"] = true -> type = js "AmEx")
  /\ (existsb (startsWith prefix) [js "6011"; js "65"] = true -> type = js "Discover")
  /\ (existsb (startsWith prefix) [js "36"; js "38"] = true -> type = js "Diners")
  /\ (startsWith prefix (js "35") = true -> type = js "JCB")
  /\ (existsb (startsWith prefix) [js "1"; js "2"; js "30"; js "62"] = true ->
      type = js "Unknown").
Proof.
  intros Hgen prefix Hroom type.
  assert (Hne : cardNumber card <> []).
  { destruct (generate_inv rnd currentYear currentMonth bin card Hgen)
      as (filler & check & _ & _ & _ & _ & _ & _ & Hn & _).
    rewrite Hn. intros Hnil. apply List.app_eq_nil in Hnil. destruct Hnil as [_ Hnil].
    apply List.app_eq_nil in Hnil. destruct Hnil as [_ [=]]. }
  assert (Htype : forall t p, In (t, p) patterns -> p (cardNumber card) = true -> type = t).
  { intros t p Hin Hm. subst type. destruct (cardNumber card) as [|c r]; [congruence|].
    cbn [getCardType]. exact (firstPattern_of_match _ _ _ Hin Hm). }
  assert (Hmatch : forall literal classes n,
            startsWith prefix literal = true ->
            Forall2 (fun class c => class c = true) classes literal ->
            targetLengthOf prefix = (List.length literal + n)%nat ->
            classesThenDigits classes n (cardNumber card) = true)
    by (intros literal classes n Hs Hc Ht;
        exact (generated_matches rnd currentYear currentMonth bin card literal classes n
                 Hgen Hs Hc Hroom Ht)).
  assert (Hleads : forall literal,
            startsWith prefix literal = true ->
            (forall k, (k < List.length literal)%nat ->
                       nth k (cardNumber card) 0%N = nth k literal 0%N)
            /\ List.length (cardNumber card) = targetLengthOf prefix)
    by (intros literal Hs;
        exact (generated_leads rnd currentYear currentMonth bin card literal Hgen Hs Hroom)).
  clearbody prefix.
  split; [|split; [|split; [|split; [|split; [|split]]]]].
  - intros H. apply (Htype _ isVisa); [cbn [patterns In]; tauto|].
    unfold isVisa. apply orb_true_iff. right.
    apply (Hmatch (js "4")); [exact H | repeat constructor | target_of H].
  - intros H. which_literal H;
      (apply (Htype _ isMastercard); [cbn [patterns In]; tauto|];
       unfold isMastercard;
       eapply Hmatch; [exact H | repeat constructor | target_of H]).
  - intros H. which_literal H;
      (apply (Htype _ isAmEx); [cbn [patterns In]; tauto|];
       unfold isAmEx;
       eapply Hmatch; [exact H | repeat constructor | target_of H]).
  - intros H. which_literal H;
      (apply (Htype _ isDiscover); [cbn [patterns In]; tauto|];
       unfold isDiscover; apply orb_true_iff).
    + left. eapply Hmatch; [exact H | repeat constructor | target_of H].
    + right.
      change [oneChar 54; oneChar 53; is_digit; is_digit]
        with (([oneChar 54; oneChar 53] ++ [is_digit]) ++ [is_digit]).
      rewrite !classesThenDigits_digit.
      eapply Hmatch; [exact H | repeat constructor | target_of H].
  - intros H. which_literal H;
      (apply (Htype _ isDiners); [cbn [patterns In]; tauto|];
       unfold isDiners; apply orb_true_iff; right;
       change [oneChar 51; oneOf 54 56; is_digit]
         with ([oneChar 51; oneOf 54 56] ++ [is_digit]);
       rewrite classesThenDigits_digit;
       eapply Hmatch; [exact H | repeat constructor | target_of H]).
  - intros H. apply (Htype _ isJCB); [cbn [patterns In]; tauto|].
    unfold isJCB. apply orb_true_iff. right.
    change [oneChar 51; oneChar 53; is_digit; is_digit; is_digit]
      with ((([oneChar 51; oneChar 53] ++ [is_digit]) ++ [is_digit]) ++ [is_digit]).
    rewrite !classesThenDigits_digit.
    eapply Hmatch; [exact H | repeat constructor | target_of H].
  - intros H. subst type.
    assert (Hfacts : exists literal,
              In literal [js "1"; js "2"; js "30"; js "62"]
              /\ (forall k, (k < List.length literal)%nat ->
                            nth k (cardNumber card) 0%N = nth k literal 0%N)
              /\ List.length (cardNumber card) = 16%nat).
    { which_literal H;
        (eexists; split; [|destruct (Hleads _ H) as [Hk Hl]; split; [exact Hk|];
                            rewrite Hl; target_of H]);
        cbn [In]; tauto. }
    destruct Hfacts as (literal & Hin & Hk & Hl).
    apply getCardType_unknown. intros t p Hp.
    destruct (p (cardNumber card)) eqn:E; [exfalso | reflexivity].
    unfold patterns in Hp. cbn [In] in Hp.
    repeat (destruct Hp as [[= <- <-] | Hp]); try contradiction;
    repeat match goal with
           | H : isVisa _ = true |- _ => apply isVisa_leads in H
           | H : isMastercard _ = true |- _ => apply isMastercard_leads in H
           | H : isAmEx _ = true |- _ => apply isAmEx_leads in H
           | H : isDiscover _ = true |- _ => apply isDiscover_leads in H
           | H : isDiners _ = true |- _ => apply isDiners_leads in H
           | H : isJCB _ = true |- _ => apply isJCB_leads in H
           end;
    cbn [In] in Hin;
    repeat (destruct Hin as [<- | Hin]); try contradiction;
    try (pose proof (Hk 0%nat ltac:(cbn; lia)) as Hk0; cbn in Hk0);
    try (pose proof (Hk 1%nat ltac:(cbn; lia)) as Hk1; cbn in Hk1);
    clash.
Qed.

Lemma generated_card_type_witness :
  getCardType (Some (js "4242424444444444")) = js "Visa".
Proof.
  destruct (generated_card_type (fun _ => 4) 2026 11 (js "4242-42")
              (mkCard (js "4242424444444444") (js "05") (js "31") (js "104"))
              ltac:(vm_compute; reflexivity) ltac:(vm_compute; lia))
    as [Hvisa _].
  apply Hvisa. reflexivity.
Defined.

End CardTypeFacts.

(** ** The payment routes of the proxy *)

Section ProxyRoutes.

Lemma retriesOfQuery_range (retry retries : option jsstr) :
  0 <= retriesOfQuery retry retries <= 10.
Proof. unfold retriesOfQuery. lia. Qed.

Lemma binOfPath_digits (binPart : jsstr) :
  Forall (fun c => is_digit c = true) (binOfPath binPart)
  /\ (List.length (binOfPath binPart) <= 6)%nat
  /\ stripNonDigits (binOfPath binPart) = binOfPath binPart.
Proof.
  unfold binOfPath.
  assert (Hd : Forall (fun c => is_digit c = true) (List.firstn 6 (List.filter is_digit binPart))).
  { pose proof (stripNonDigits_digits binPart) as H. unfold stripNonDigits in H.
    rewrite <- (List.firstn_skipn 6 (List.filter is_digit binPart)) in H.
    apply List.Forall_app in H. apply H. }
  split; [exact Hd|]. split; [apply List.firstn_le_length|].
  unfold stripNonDigits. revert Hd. generalize (List.firstn 6 (List.filter is_digit binPart)).
  induction 1 as [|c l Hc _ IH]; cbn [List.filter]; [reflexivity|].
  rewrite Hc, IH. reflexivity.
Qed.


(** X17.  What the literal-card route starts: a request is answered 400 at
    once when the URL or the card does not decode or the card has fewer
    than four fields; otherwise [attemptPayment] is called with the card
    [parseCardString] returns and no retry, so that the run makes at most
    one create call and at most one confirm call. *)
Theorem handleStripePayCard_single_attempt (encodedUrl cardSpec : jsstr) :
  match handleStripePayCard encodedUrl cardSpec with
  | Answered status _ =>
      status = 400
      /\ ((exists e, decodeURIComponent encodedUrl = Throw e)
          \/ (exists e, decodeURIComponent cardSpec = Throw e)
          \/ exists spec, decodeURIComponent cardSpec = Ok spec
                          /\ (List.length (split 124 spec) < 4)%nat)
  | Started checkoutUrl card n =>
      decodeURIComponent encodedUrl = Ok checkoutUrl
      /\ n = 0
      /\ (exists spec parsed,
            decodeURIComponent cardSpec = Ok spec
            /\ parseCardString spec = Ok parsed
            /\ (4 <= List.length (split 124 spec))%nat
            /\ card = Literal (cardObject parsed))
      /\ forall (w : World) (fuel : nat),
           (1 <= fuel)%nat ->
           exists res log,
             attemptPayment w fuel checkoutUrl card n [] = (res, log)
             /\ res <> Ok None
             /\ countIf isCreate log <= 1
             /\ countIf isConfirm log <= 1
  end.
Proof.
  unfold handleStripePayCard.
  destruct (decodeURIComponent encodedUrl) as [checkoutUrl | e];
    [|split; [reflexivity | left; eexists; reflexivity]].
  destruct (decodeURIComponent cardSpec) as [spec | e]; cbn [bindE];
    [|split; [reflexivity | right; left; eexists; reflexivity]].
  destruct (Nat.lt_ge_cases (List.length (split 124 spec)) 4) as [Hlt | Hge].
  - rewrite (parseCardString_throws spec Hlt).
    split; [reflexivity|]. right. right. exists spec. split; [reflexivity | exact Hlt].
  - rewrite (parseCardString_returns spec Hge). cbv zeta.
    split; [reflexivity|]. split; [reflexivity|]. split.
    + eexists spec, _. split; [reflexivity|].
      split; [apply (parseCardString_returns spec Hge)|]. split; [exact Hge | reflexivity].
    + intros w fuel Hfuel.
      match goal with
      | |- context [attemptPayment w fuel checkoutUrl ?c 0] =>
          destruct (attemptPayment_runs w fuel checkoutUrl c 0 ltac:(lia) ltac:(cbn; lia) [])
            as (res & evs & E & Hn & (Hc & Hf & _) & _)
      end.
      exists res, evs. cbn [app] in E. split; [exact E|]. split; [exact Hn|]. lia.
Qed.

End ProxyRoutes.

(** ** The response formatter *)

Section FormatterFacts.

Lemma getE_nullish (v : JsVal) (k : jsstr) :
  getE v k = (if nullish v then Throw typeError else Ok (prop v k)).
Proof. destruct v; reflexivity. Qed.

(** The only exception of a conversion is the [TypeError]. *)
Lemma toStr_throws : forall (v : JsVal) (e : exn), toStr v = Throw e -> e = typeError.
Proof.
  fix toStr_throws 1. intros v e.
  destruct v as [| |b|z|s|items|fields]; cbn [toStr]; try discriminate.
  - revert e. induction items as [|x rest IH]; intros e; cbn [joinE]; [discriminate|].
    assert (Hx : forall e', match x with
                            | VUndef | VNull => Ok []
                            | _ => toStr x
                            end = Throw e' -> e' = typeError).
    { intros e' H. pose proof (toStr_throws x e') as Hrec.
      destruct x; try discriminate H; exact (Hrec H). }
    destruct (match x with VUndef | VNull => Ok [] | _ => toStr x end)
      as [first | e'] eqn:Ex; cbn [bindE].
    + destruct rest as [|y rest]; [discriminate|].
      destruct (joinE toStr (y :: rest)) as [tail | e''] eqn:Et; cbn [bindE];
        [discriminate|].
      intros [= <-]. apply IH. reflexivity.
    + intros [= <-]. apply Hx. reflexivity.
  - destruct (fields !! js "toString"); [intros [= <-]; reflexivity | discriminate].
Qed.

Lemma converts_false (v : JsVal) : converts v = false -> toStr v = Throw typeError.
Proof.
  unfold converts. destruct (toStr v) as [s | e] eqn:E; [discriminate|].
  intros _. rewrite (toStr_throws v e E). reflexivity.
Qed.

Lemma converts_true (v : JsVal) : converts v = true -> exists s, toStr v = Ok s.
Proof.
  unfold converts. destruct (toStr v) as [s | e]; [|discriminate].
  intros _. exists s. reflexivity.
Qed.

(** A branch whose result has [success: false]. *)
#[local] Ltac not_success :=
  eexists; split; [reflexivity|];
  split; [discriminate|];
  match goal with
  | |- (?r !! ?k = _ <-> _) /\ _ =>
      let Hs := fresh "Hs" in
      assert (Hs : r !! k = Some (Value (VBool false))) by (vm_compute; reflexivity);
      rewrite Hs
  end;
  split; [split; [discriminate | intros [_ [=]]] | discriminate].

(** What [formatPaymentResponse] returns. *)
Lemma formatPaymentResponse_result (timestamp : jsstr) (response statusCode : JsVal) :
  formattable response = true ->
  exists result,
    formatPaymentResponse timestamp response statusCode = Ok result
    /\ (truthy (prop response (js "error")) = true ->
        result !! js "success" = Some (Value (VBool false))
        /\ result !! js "status" = Some (Value (VStr (js "declined"))))
    /\ (result !! js "success" = Some (Value (VBool true)) <->
        truthy (prop response (js "error")) = false
        /\ (if truthy (prop response (js "payment_intent"))
            then isStr (prop (prop response (js "payment_intent")) (js "status"))
                   (js "succeeded")
            else isStr (prop response (js "status")) (js "complete")) = true)
    /\ (result !! js "success" = Some (Value (VBool true)) ->
        result !! js "status" = Some (Value (VStr (js "approved")))).
Proof.
  unfold formattable, tableKey. intros Hf. apply andb_true_iff in Hf.
  destruct Hf as [Hn Hkey]. apply negb_true_iff in Hn.
  unfold formatPaymentResponse. rewrite getE_nullish, Hn. cbn [bindE]. cbv zeta in *.
  destruct (truthy (prop response (js "error"))) eqn:Herr.
  { destruct (converts_true _ Hkey) as (key & ->). cbn [bindE].
    eexists. split; [reflexivity|].
    split; [intros _; split; vm_compute; reflexivity|].
    split; [|intros H; vm_compute in H; discriminate H].
    split; [intros H; vm_compute in H; discriminate H | intros [H _]; discriminate H]. }
  destruct (truthy (prop response (js "payment_intent"))) eqn:Hpi.
  { set (pi := prop response (js "payment_intent")) in *.
    unfold parsePaymentIntentStatus.
    destruct (converts_true _ Hkey) as (key & ->). cbn [bindE].
    destruct (isStr (prop pi (js "status")) (js "succeeded")) eqn:H1.
    { eexists. split; [reflexivity|]. split; [discriminate|].
      split; [|intros _; vm_compute; reflexivity].
      split; [intros _; split; reflexivity | intros _; vm_compute; reflexivity]. }
    destruct (isStr (prop pi (js "status")) (js "processing")); [not_success|].
    destruct (isStr (prop pi (js "status")) (js "requires_action")); [not_success|].
    destruct (isStr (prop pi (js "status")) (js "requires_payment_method"));
      [not_success|].
    destruct (isStr (prop pi (js "status")) (js "canceled")); not_success. }
  destruct (isStr (prop response (js "status")) (js "complete")) eqn:Hc.
  { eexists. split; [reflexivity|]. split; [discriminate|].
    split; [|intros _; vm_compute; reflexivity].
    split; [intros _; split; reflexivity | intros _; vm_compute; reflexivity]. }
  destruct (truthy (prop response (js "message"))); not_success.
Qed.

Lemma formatPaymentResponse_throws (timestamp : jsstr) (response statusCode : JsVal) :
  formattable response = false ->
  formatPaymentResponse timestamp response statusCode = Throw typeError.
Proof.
  unfold formattable, tableKey, formatPaymentResponse. rewrite getE_nullish.
  destruct (nullish response); [reflexivity|]. cbn [negb andb bindE]. cbv zeta.
  intros Hkey.
  destruct (truthy (prop response (js "error"))).
  { rewrite (converts_false _ Hkey). reflexivity. }
  destruct (truthy (prop response (js "payment_intent"))); [|discriminate Hkey].
  unfold parsePaymentIntentStatus. rewrite (converts_false _ Hkey). reflexivity.
Qed.

(** X18.  [formatPaymentResponse] throws, a [TypeError], exactly when the
    response is [undefined] or [null] or the value it uses as the key of a
    table (the code of the error, else the status of the payment intent)
    does not convert to a string: it is, or as an array holds, an object
    with a [toString] property of its own.  On any other response an error
    object takes precedence over everything else: the result is [declined]
    with success false, whatever the payment intent says.  The result
    reports success exactly when there is no error and either the payment
    intent is present with status [succeeded], or it is absent and the
    response status is [complete]; the status is then [approved].  A
    payment intent that is present hides the response status: a response
    without error that carries its payment intent as an identifier string
    is reported as failed, even when its status is [complete]. *)
Theorem formatPaymentResponse_precedence (timestamp : jsstr) (response statusCode : JsVal) :
  (formatPaymentResponse timestamp response statusCode = Throw typeError
   <-> nullish response = true \/ converts (tableKey response) = false)
  /\ ((exists e, formatPaymentResponse timestamp response statusCode = Throw e)
      -> formatPaymentResponse timestamp response statusCode = Throw typeError)
  /\ (forall result,
        formatPaymentResponse timestamp response statusCode = Ok result ->
        (truthy (prop response (js "error")) = true ->
         result !! js "success" = Some (Value (VBool false))
         /\ result !! js "status" = Some (Value (VStr (js "declined"))))
        /\ (result !! js "success" = Some (Value (VBool true)) <->
            truthy (prop response (js "error")) = false
            /\ (if truthy (prop response (js "payment_intent"))
                then isStr (prop (prop response (js "payment_intent")) (js "status"))
                       (js "succeeded")
                else isStr (prop response (js "status")) (js "complete")) = true)
        /\ (result !! js "success" = Some (Value (VBool true)) ->
            result !! js "status" = Some (Value (VStr (js "approved")))))
  /\ (forall id,
        nullish response = false ->
        truthy (prop response (js "error")) = false ->
        prop response (js "payment_intent") = VStr id -> id <> [] ->
        exists result,
          formatPaymentResponse timestamp response statusCode = Ok result
          /\ result !! js "success" = Some (Value (VBool false))
          /\ result !! js "status" = Some (Value (VStr (js "failed")))).
Proof.
  assert (Hcases : formattable response = false
                   <-> nullish response = true \/ converts (tableKey response) = false).
  { unfold formattable. rewrite andb_false_iff, negb_false_iff. reflexivity. }
  destruct (formattable response) eqn:Hf.
  - destruct (formatPaymentResponse_result timestamp response statusCode Hf)
      as (result & E & Hresult).
    split; [|split; [|split]].
    + rewrite E. split; [discriminate|]. intros H. apply Hcases in H. discriminate H.
    + rewrite E. intros (e & H). discriminate H.
    + intros result' E'. rewrite E in E'. injection E' as <-. exact Hresult.
    + intros id Hn Herr Hpi Hid. exists result. split; [exact E|].
      destruct id as [|c id]; [congruence|].
      unfold formatPaymentResponse in E. rewrite getE_nullish, Hn in E. cbn [bindE] in E.
      rewrite Herr, Hpi in E.
      cbn [truthy List.length Nat.eqb negb prop isStr parsePaymentIntentStatus toStr bindE]
        in E.
      cbv zeta in E. injection E as <-. split; vm_compute; reflexivity.
  - pose proof (formatPaymentResponse_throws timestamp response statusCode Hf) as E.
    split; [|split; [|split]].
    + split; [intros _; apply Hcases; reflexivity | intros _; exact E].
    + intros _. exact E.
    + intros result E'. rewrite E in E'. discriminate E'.
    + intros id Hn Herr Hpi Hid. exfalso.
      destruct (proj1 Hcases eq_refl) as [Hk | Hk]; [congruence|].
      rename Hk into Hkey.
      unfold tableKey in Hkey. cbv zeta in Hkey. rewrite Herr, Hpi in Hkey.
      destruct id; [congruence | discriminate Hkey].
Qed.


(** A code that is an object with a [toString] property of its own cannot
    be made a key of [DeclineReasons]. *)
Lemma formatPaymentResponse_unconvertible_code (timestamp : jsstr) (statusCode : JsVal) :
  formatPaymentResponse timestamp
    (obj [ (js "error", obj [ (js "code", obj [ (js "toString", VNum 1) ]) ]) ])
    statusCode
  = Throw typeError.
Proof.
  apply formatPaymentResponse_throws. vm_compute; reflexivity.
Qed.

(** *** The batch counters *)

Lemma batchStep_counts (timestamp : jsstr) (summary : BatchSummary) (index : Z)
    (response : JsVal) :
  if readable response then
    exists summary',
      batchStep timestamp summary index response = Ok summary'
      /\ totalAttempts summary' = totalAttempts summary
      /\ counted summary' = counted summary + 1
      /\ List.length (results summary') = S (List.length (results summary))
      /\ approved summary <= approved summary'
      /\ declined summary <= declined summary'
      /\ failed summary <= failed summary'
      /\ pending summary <= pending summary'
  else batchStep timestamp summary index response = Throw typeError.
Proof.
  unfold readable, batchStep. rewrite !getE_nullish.
  destruct (nullish response) eqn:Hr; cbn [negb andb bindE]; [reflexivity|].
  destruct (formattable (prop response (js "data"))) eqn:Hd.
  - destruct (formatPaymentResponse_result timestamp (prop response (js "data"))
                (prop response (js "statusCode")) Hd) as (formatted & -> & _).
    cbn [bindE]. cbv zeta.
    repeat match goal with
           | |- context [if ?c then _ else _] => destruct c
           end;
    eexists; (split; [reflexivity|]); unfold counted;
    cbn [totalAttempts approved declined failed pending results];
    rewrite ?List.length_app; cbn [List.length]; repeat split; lia.
  - rewrite (formatPaymentResponse_throws _ _ _ Hd). reflexivity.
Qed.

Lemma batchLoop_counts (timestamp : jsstr) (responses : list JsVal) :
  forall (summary : BatchSummary) (index : Z),
    if List.forallb readable responses then
      exists summary',
        batchLoop timestamp summary index responses = Ok summary'
        /\ totalAttempts summary' = totalAttempts summary
        /\ counted summary' = counted summary + Z.of_nat (List.length responses)
        /\ List.length (results summary')
           = (List.length (results summary) + List.length responses)%nat
        /\ approved summary <= approved summary'
        /\ declined summary <= declined summary'
        /\ failed summary <= failed summary'
        /\ pending summary <= pending summary'
    else batchLoop timestamp summary index responses = Throw typeError.
Proof.
  induction responses as [|response rest IH]; intros summary index;
    cbn [List.forallb batchLoop].
  - exists summary. cbn [List.length]. repeat split; lia.
  - pose proof (batchStep_counts timestamp summary index response) as Hstep.
    destruct (readable response); cbn [andb].
    + destruct Hstep as (s1 & -> & Ht & Hc & Hl & Ha & Hd & Hf & Hp). cbn [bindE].
      specialize (IH s1 (index + 1)).
      destruct (List.forallb readable rest).
      * destruct IH as (s2 & -> & Ht2 & Hc2 & Hl2 & Ha2 & Hd2 & Hf2 & Hp2).
        exists s2. split; [reflexivity|]. cbn [List.length]. repeat split; lia.
      * exact IH.
    + rewrite Hstep. reflexivity.
Qed.

(** X19.  [formatBatchResponse] returns a summary exactly when every
    response of the batch is neither [undefined] nor [null] and has a
    [data] that [formatPaymentResponse] can format (neither [undefined] nor
    [null], and with a table key that converts to a string); otherwise it
    throws a [TypeError].  In a summary the four counters are non-negative
    and add up to [totalAttempts], which is the number of responses and the
    number of results: every response is counted once, as approved,
    declined, pending or failed. *)
Theorem formatBatchResponse_counts (timestamp : jsstr) (responses : list JsVal) :
  ((exists summary, formatBatchResponse timestamp responses = Ok summary)
   <-> List.forallb readable responses = true)
  /\ (formatBatchResponse timestamp responses = Throw typeError
      <-> List.forallb readable responses = false)
  /\ forall summary,
       formatBatchResponse timestamp responses = Ok summary ->
       totalAttempts summary = Z.of_nat (List.length responses)
       /\ approved summary + declined summary + failed summary + pending summary
          = totalAttempts summary
       /\ List.length (results summary) = List.length responses
       /\ 0 <= approved summary /\ 0 <= declined summary
       /\ 0 <= failed summary /\ 0 <= pending summary.
Proof.
  unfold formatBatchResponse.
  pose proof (batchLoop_counts timestamp responses
                (mkBatchSummary (Z.of_nat (List.length responses)) 0 0 0 0 []) 0) as H.
  destruct (List.forallb readable responses).
  - destruct H as (s & E & Ht & Hc & Hl & Ha & Hd & Hf & Hp).
    split; [split; [reflexivity | intros _; exists s; exact E]|].
    split; [rewrite E; split; discriminate|].
    intros summary E'. rewrite E in E'. injection E' as <-.
    unfold counted in Hc. cbn [totalAttempts approved declined failed pending results] in *.
    cbn [List.length] in Hl. repeat split; lia.
  - split; [|split].
    + split; [intros (s & E'); rewrite H in E'; discriminate | discriminate].
    + split; [reflexivity | intros _; exact H].
    + intros summary E'. rewrite H in E'. discriminate.
Qed.

End FormatterFacts.

(** ** The enhanced response handler *)

Section EnhancedFacts.

(** X20.  On the object [attemptPayment] passes after its loop,
    [{ success: false, attempts, error: lastError }], the handler's
    [createDetailedResponse] does not throw and returns exactly the object
    of the specialised definition used for the attempt engine: the same
    properties with the same values. *)
Theorem createDetailedResponse_on_loop_result (timestamp : jsstr) (attempts : Z)
    (error : JsVal) :
  exists fields,
    createDetailedResponse timestamp attempts error = VObj fields
    /\ Enhanced.createDetailedResponse timestamp
         (obj [ (js "success", VBool false); (js "attempts", VNum attempts);
                (js "error", error) ])
       = Ok (Value <$> fields).
Proof.
  unfold createDetailedResponse, Enhanced.createDetailedResponse.
  set (result := obj [ (js "success", VBool false); (js "attempts", VNum attempts);
                       (js "error", error) ]).
  assert (H1 : getE result (js "success") = Ok (VBool false)) by (vm_compute; reflexivity).
  assert (H2 : prop result (js "status") = VUndef) by (vm_compute; reflexivity).
  assert (H3 : prop result (js "attempts") = VNum attempts) by (vm_compute; reflexivity).
  assert (H4 : prop result (js "confirmation") = VUndef) by (vm_compute; reflexivity).
  assert (H5 : prop result (js "error") = error) by (vm_compute; reflexivity).
  assert (H6 : prop result (js "card") = VUndef) by (vm_compute; reflexivity).
  assert (H7 : prop result (js "paymentMethod") = VUndef) by (vm_compute; reflexivity).
  rewrite H1, H2, H3, H4, H5, H6, H7. clearbody result.
  unfold orV. cbn [bindE truthy]. cbv zeta.
  destruct (truthy error); destruct (attempts =? 0); cbn [negb orb];
    (eexists; split; [reflexivity|]; cbn [bindE]; f_equal;
     rewrite ?fmap_insert, <- list_to_map_fmap; reflexivity).
Qed.


#[local] Ltac look :=
  repeat (rewrite lookup_insert_ne by discriminate);
  first [ rewrite lookup_insert; reflexivity | vm_compute; reflexivity ].

(** X21.  In [createDetailedResponse] a decline found in the confirmation
    overrides everything the result says: when [result.confirmation] is
    present and [detectCardDecline] holds of it, a returned response has
    success false and status [declined], even if [result.success] is true
    or [detectCardApproval] holds as well; and unless the result carries an
    error of its own, the response's error is made of the extracted code
    and reason and has type [card_error]. *)
Theorem createDetailedResponse_decline_wins (timestamp : jsstr) (result : JsVal)
    (response : Enhanced.Response) :
  Enhanced.createDetailedResponse timestamp result = Ok response ->
  truthy (prop result (js "confirmation")) = true ->
  Enhanced.detectCardDecline (prop result (js "confirmation")) = Ok true ->
  response !! js "success" = Some (Value (VBool false))
  /\ response !! js "status" = Some (Value (VStr (js "declined")))
  /\ (truthy (prop result (js "error")) = false ->
      exists code message,
        Enhanced.extractDeclineCode (prop result (js "confirmation")) = Ok code
        /\ Enhanced.extractDeclineReason (prop result (js "confirmation")) = Ok message
        /\ response !! js "error"
           = Some (Fields
                     [ (js "code", Value code); (js "message", message);
                       (js "type", Value (VStr (js "card_error"))) ])).
Proof.
  intros H Hc Hd. unfold Enhanced.createDetailedResponse in H.
  destruct (getE result (js "success")) as [success | e]; [|discriminate H].
  cbn [bindE] in H. cbv zeta in H. rewrite Hc in H.
  unfold Enhanced.analyse in H. rewrite Hd in H. cbn [bindE] in H.
  destruct (Enhanced.detectCardApproval _) as [isApproved | e]; [|discriminate H].
  cbn [bindE] in H.
  destruct (Enhanced.extractDeclineCode _) as [code | e]; [|discriminate H].
  cbn [bindE] in H.
  destruct (Enhanced.extractDeclineReason _) as [message | e]; [|discriminate H].
  cbn [bindE] in H.
  destruct (truthy (prop result (js "error"))) eqn:Herr;
    (destruct (truthy (prop result (js "card")));
     [destruct (Enhanced.cardInfo _) as [info | e]; [|discriminate H]|]);
    cbn [bindE] in H;
    destruct (truthy (prop result (js "paymentMethod")));
    injection H as <-;
    (split; [look|]; split; [look|]; intros Hno;
     first [ discriminate Hno
           | exists code, message; split; [reflexivity|]; split; [reflexivity|]; look ]).
Qed.

Lemma createDetailedResponse_decline_wins_witness :
  Enhanced.detectCardApproval declinedThoughComplete = Ok true
  /\ declinedThoughCompleteResponse !! js "success" = Some (Value (VBool false))
  /\ declinedThoughCompleteResponse !! js "status"
     = Some (Value (VStr (js "declined"))).
Proof.
  split; [vm_compute; reflexivity|].
  destruct (createDetailedResponse_decline_wins sampleTimestamp
              (obj [ (js "success", VBool true);
                     (js "confirmation", declinedThoughComplete) ])
              declinedThoughCompleteResponse) as (Hs & Ht & _);
    [vm_compute; reflexivity | vm_compute; reflexivity | vm_compute; reflexivity |].
  split; [exact Hs | exact Ht].
Defined.

(** X22.  [detectCardDecline] is not total.  On a response without an
    earlier decline signal whose error object is not of type [card_error]
    and has a [code] that is truthy but neither a string nor an array (a
    number other than 0, [true], or an object), the call
    [error.code.includes] throws a [TypeError]; and so does
    [createDetailedResponse] on a result that has such a response as its
    confirmation. *)
Theorem detectCardDecline_throws_on_code (response : JsVal) :
  truthy response = true ->
  isStr (prop response (js "status")) (js "declined") = false ->
  isStr (prop response (js "status")) (js "failed") = false ->
  truthy (prop response (js "payment_intent")) = false ->
  truthy (prop response (js "error")) = true ->
  isStr (prop (prop response (js "error")) (js "type")) (js "card_error") = false ->
  truthy (prop (prop response (js "error")) (js "code")) = true ->
  match prop (prop response (js "error")) (js "code") with
  | VStr _ | VArr _ => False
  | _ => True
  end ->
  Enhanced.detectCardDecline response = Throw typeError
  /\ forall timestamp result,
       prop result (js "confirmation") = response ->
       Enhanced.createDetailedResponse timestamp result = Throw typeError.
Proof.
  intros Ht Hs1 Hs2 Hpi Herr Htype Hcode Hshape.
  assert (Hd : Enhanced.detectCardDecline response = Throw typeError).
  { unfold Enhanced.detectCardDecline. rewrite Ht, Hs1, Hs2, Hpi, Herr.
    cbn [negb orb andb]. cbv zeta.
    unfold Enhanced.declinedByError. rewrite Htype, Hcode.
    destruct (prop (prop response (js "error")) (js "code"));
      try contradiction; reflexivity. }
  split; [exact Hd|].
  intros timestamp result Hc. unfold Enhanced.createDetailedResponse.
  rewrite getE_nullish.
  destruct (nullish result) eqn:Hn.
  - destruct result; try discriminate Hn; cbn [prop] in Hc; subst response; discriminate Ht.
  - cbn [bindE]. cbv zeta. rewrite Hc, Ht. unfold Enhanced.analyse. rewrite Hd. reflexivity.
Qed.

Lemma detectCardDecline_throws_on_code_witness :
  Enhanced.detectCardDecline
    (obj [ (js "error", obj [ (js "type", VStr (js "api_error")); (js "code", VNum 402) ]) ])
  = Throw typeError.
Proof.
  apply (detectCardDecline_throws_on_code
           (obj [ (js "error",
                   obj [ (js "type", VStr (js "api_error")); (js "code", VNum 402) ]) ]));
    first [vm_compute; reflexivity | exact I].
Defined.

#[local] Ltac other_key := let E := fresh in intros E; vm_compute in E; discriminate E.

#[local] Ltac look_in :=
  unfold Enhanced.Response in *;
  repeat (rewrite lookup_insert_ne by other_key);
  first [ rewrite lookup_insert; reflexivity | vm_compute; reflexivity ].

Lemma analyse_settles (response response' : Enhanced.Response) (confirmation : JsVal)
    (isDeclined isApproved : bool) :
  Enhanced.analyse response confirmation = Ok response' ->
  Enhanced.detectCardDecline confirmation = Ok isDeclined ->
  Enhanced.detectCardApproval confirmation = Ok isApproved ->
  isDeclined || Enhanced.detectThreeDSRequired confirmation || isApproved = true ->
  response' !! js "success" = Some (Value (VBool (negb isDeclined)))
  /\ response' !! js "status"
     = Some (Value (VStr (if isDeclined then js "declined"
                          else if Enhanced.detectThreeDSRequired confirmation
                               then js "requires_action" else js "approved"))).
Proof.
  intros H Hd Ha Hsome. unfold Enhanced.analyse in H. rewrite Hd, Ha in H.
  cbn [bindE] in H. destruct isDeclined.
  - destruct (Enhanced.extractDeclineCode _) as [code | e]; [|discriminate H].
    cbn [bindE] in H.
    destruct (Enhanced.extractDeclineReason _) as [message | e]; [|discriminate H].
    cbn [bindE] in H. injection H as <-. split; look_in.
  - destruct (Enhanced.detectThreeDSRequired confirmation).
    + injection H as <-. split; look_in.
    + cbn [orb] in Hsome. subst isApproved. injection H as <-. split; look_in.
Qed.

Lemma createDetailedResponse_settled (timestamp : jsstr) (result : JsVal)
    (response : Enhanced.Response) (isDeclined isApproved : bool) :
  Enhanced.createDetailedResponse timestamp result = Ok response ->
  truthy (prop result (js "confirmation")) = true ->
  Enhanced.detectCardDecline (prop result (js "confirmation")) = Ok isDeclined ->
  Enhanced.detectCardApproval (prop result (js "confirmation")) = Ok isApproved ->
  isDeclined || Enhanced.detectThreeDSRequired (prop result (js "confirmation"))
  || isApproved = true ->
  response !! js "success" = Some (Value (VBool (negb isDeclined)))
  /\ response !! js "status"
     = Some (Value (VStr (if isDeclined then js "declined"
                          else if Enhanced.detectThreeDSRequired
                                    (prop result (js "confirmation"))
                               then js "requires_action" else js "approved"))).
Proof.
  intros H Hc Hd Ha Hsome. unfold Enhanced.createDetailedResponse in H.
  destruct (getE result (js "success")) as [success | e]; [|discriminate H].
  cbn [bindE] in H. cbv zeta in H. rewrite Hc in H.
  destruct (Enhanced.analyse _ _) as [analysed | e] eqn:Han; [|discriminate H].
  destruct (analyse_settles _ _ _ _ _ Han Hd Ha Hsome) as [Hs Ht].
  cbn [bindE] in H.
  destruct (truthy (prop result (js "error")));
    (destruct (truthy (prop result (js "card")));
     [destruct (Enhanced.cardInfo _) as [info | e]; [|discriminate H]|]);
    cbn [bindE] in H;
    destruct (truthy (prop result (js "paymentMethod")));
    injection H as <-;
    (unfold Enhanced.Response in *; split;
     repeat (rewrite lookup_insert_ne by other_key); assumption).
Qed.

(** X25.  When the confirmation settles the outcome in
    [createDetailedResponse] (a decline, a 3D Secure request or an approval
    is detected in it), the three predicates sort the returned response as
    follows: [isPaymentDeclined] holds exactly when the decline was
    detected, [isPaymentApproved] holds exactly when neither a decline nor
    a 3D Secure request was, and [isPaymentPending] never holds.  So a
    response with status [requires_action], although it has success true,
    is neither approved, nor declined, nor pending. *)
Theorem predicates_on_settled_response (timestamp : jsstr) (result : JsVal)
    (response : Enhanced.Response) (isDeclined isApproved : bool) :
  Enhanced.createDetailedResponse timestamp result = Ok response ->
  truthy (prop result (js "confirmation")) = true ->
  Enhanced.detectCardDecline (prop result (js "confirmation")) = Ok isDeclined ->
  Enhanced.detectCardApproval (prop result (js "confirmation")) = Ok isApproved ->
  isDeclined || Enhanced.detectThreeDSRequired (prop result (js "confirmation"))
  || isApproved = true ->
  Enhanced.isPaymentDeclined (Enhanced.Built response) = Ok (inr isDeclined)
  /\ Enhanced.isPaymentApproved (Enhanced.Built response)
     = Ok (inr (negb isDeclined
                && negb (Enhanced.detectThreeDSRequired (prop result (js "confirmation")))))
  /\ Enhanced.isPaymentPending (Enhanced.Built response) = Ok false.
Proof.
  intros H Hc Hd Ha Hsome.
  destruct (createDetailedResponse_settled _ _ _ _ _ H Hc Hd Ha Hsome) as [Hs Ht].
  unfold Enhanced.isPaymentDeclined, Enhanced.isPaymentApproved, Enhanced.isPaymentPending,
    Enhanced.successAndStatus.
  cbn [Enhanced.givenTruthy Enhanced.givenProp negb bindE]. rewrite Hs, Ht.
  destruct isDeclined, (Enhanced.detectThreeDSRequired _);
    (split; [vm_compute; reflexivity|]; split; vm_compute; reflexivity).
Qed.

Lemma predicates_on_settled_response_witness :
  Enhanced.isPaymentDeclined (Enhanced.Built asksThreeDSResponse) = Ok (inr false)
  /\ Enhanced.isPaymentApproved (Enhanced.Built asksThreeDSResponse) = Ok (inr false)
  /\ Enhanced.isPaymentPending (Enhanced.Built asksThreeDSResponse) = Ok false.
Proof.
  set (result := obj [ (js "success", VBool true); (js "status", VStr (js "approved"));
                       (js "confirmation", asksThreeDS) ]).
  assert (E : Enhanced.detectThreeDSRequired (prop result (js "confirmation")) = true)
    by (vm_compute; reflexivity).
  destruct (predicates_on_settled_response sampleTimestamp result
              asksThreeDSResponse false true) as (Hd & Ha & Hp);
    [vm_compute; reflexivity .. |].
  rewrite E in Ha. split; [exact Hd|]. split; [exact Ha | exact Hp].
Defined.

End EnhancedFacts.

(** ** Normalising the session *)

Section NormalizerFacts.

Lemma mapE_Ok {A B} (f : A -> Exc B) (l : list A) (ys : list B) :
  mapE f l = Ok ys <-> Forall2 (fun x y => f x = Ok y) l ys.
Proof.
  revert ys. induction l as [|x rest IH]; intros ys; cbn [mapE].
  - split; [intros [= <-]; constructor | intros H; inversion H; reflexivity].
  - destruct (f x) as [y | e] eqn:Ex; cbn [bindE].
    + destruct (mapE f rest) as [ys' | e]; cbn [bindE].
      * split.
        -- intros [= <-]. constructor; [exact Ex | apply IH; reflexivity].
        -- intros H. inversion H as [|x0 y0 l0 ys0 Hy Hrest]; subst.
           rewrite Ex in Hy. injection Hy as <-.
           apply IH in Hrest. injection Hrest as <-. reflexivity.
      * split; [discriminate|]. intros H. inversion H as [|x0 y0 l0 ys0 Hy Hrest]; subst.
        apply IH in Hrest. discriminate.
    + split; [discriminate|]. intros H. inversion H as [|x0 y0 l0 ys0 Hy Hrest]; subst.
      rewrite Ex in Hy. discriminate.
Qed.

Lemma mapE_Throw {A B} (f : A -> Exc B) (l : list A) :
  (exists e, mapE f l = Throw e) <-> Exists (fun x => exists e, f x = Throw e) l.
Proof.
  induction l as [|x rest IH]; cbn [mapE].
  - split; [intros [e [=]] | intros H; inversion H].
  - destruct (f x) as [y | e] eqn:Ex; cbn [bindE].
    + destruct (mapE f rest) as [ys | e]; cbn [bindE].
      * split; [intros [e [=]]|]. intros H. apply Exists_cons in H.
        destruct H as [[e He] | H]; [congruence|].
        apply IH in H. destruct H as [e [=]].
      * split; [intros _; apply Exists_cons_tl, IH; eexists; reflexivity|].
        intros _. eexists. reflexivity.
    + split; [intros _; apply Exists_cons_hd; eexists; exact Ex|].
      intros _. eexists. reflexivity.
Qed.

(** What the mapped function makes of an item. *)
Lemma normalizeLineItem_fields (item : JsVal) :
  if nullish item then normalizeLineItem item = Throw typeError
  else exists normalized images,
      normalizeLineItem item = Ok normalized
      /\ prop normalized (js "amount") = coalesce (prop item (js "amount")) VNull
      /\ prop normalized (js "quantity") = coalesce (prop item (js "quantity")) VNull
      /\ prop normalized (js "unitAmount")
         = coalesce (prop (prop item (js "price")) (js "unit_amount")) VNull
      /\ prop normalized (js "images") = VArr images
      /\ (List.length images <= 3)%nat.
Proof.
  unfold normalizeLineItem. rewrite getE_nullish.
  destruct (nullish item); [reflexivity|]. cbn [bindE]. cbv zeta.
  match goal with
  | |- context [VArr (List.firstn MAX_IMAGES_PER_ITEM ?l)] =>
      assert (Hlen : (List.length (List.firstn MAX_IMAGES_PER_ITEM l) <= 3)%nat)
        by apply List.firstn_le_length;
      set (images := List.firstn MAX_IMAGES_PER_ITEM l) in *
  end.
  clearbody images.
  eexists _, images. split; [reflexivity|].
  split; [vm_compute; reflexivity|]. split; [vm_compute; reflexivity|].
  split; [vm_compute; reflexivity|]. split; [vm_compute; reflexivity | exact Hlen].
Qed.


(** X23.  [normalizeLineItems] returns the empty list when the invoice, its
    [lines] or the array [lines.data] is missing.  Otherwise only the first
    ten entries of [lines.data] are looked at: the function throws exactly
    when one of them is [undefined] or [null], and else returns one item
    per entry, in order, at most ten, each with the entry's [amount] and
    [quantity] and its price's [unit_amount] ([null] where missing) and
    with at most three images.  Entries after the tenth are dropped. *)
Theorem normalizeLineItems_first_ten (invoice : JsVal) :
  (truthy invoice && truthy (prop invoice (js "lines")) = false ->
   normalizeLineItems invoice = Ok [])
  /\ (arrayItems (prop (prop invoice (js "lines")) (js "data")) = None ->
      normalizeLineItems invoice = Ok [])
  /\ forall data,
       truthy invoice = true ->
       truthy (prop invoice (js "lines")) = true ->
       prop (prop invoice (js "lines")) (js "data") = VArr data ->
       ((exists e, normalizeLineItems invoice = Throw e)
        <-> List.existsb nullish (List.firstn 10 data) = true)
       /\ forall items,
            normalizeLineItems invoice = Ok items ->
            List.length items = Nat.min 10 (List.length data)
            /\ Forall2 normalizedFrom (List.firstn 10 data) items.
Proof.
  unfold normalizeLineItems. split; [|split].
  - intros H. cbv zeta. apply andb_false_iff in H. destruct H as [-> | ->];
      cbn [negb orb]; [reflexivity|].
    rewrite orb_true_r. reflexivity.
  - intros H. cbv zeta. rewrite H. destruct (_ || _); reflexivity.
  - intros data Hi Hl Hd. cbv zeta. rewrite Hi, Hl, Hd. cbn [negb orb arrayItems].
    change MAX_LINE_ITEMS with 10%nat. split.
    + rewrite mapE_Throw, List.existsb_exists, List.Exists_exists.
      split; intros (x & Hin & Hx); exists x; (split; [exact Hin|]);
        pose proof (normalizeLineItem_fields x) as Hf; destruct (nullish x).
      * reflexivity.
      * destruct Hx as (e & He). destruct Hf as (n & im & Hn & _). congruence.
      * eexists. exact Hf.
      * discriminate Hx.
    + intros items Hitems. apply mapE_Ok in Hitems. split.
      * apply Forall2_length in Hitems. rewrite <- Hitems, List.length_firstn. reflexivity.
      * eapply Forall2_impl; [exact Hitems|]. intros raw item Hraw. cbv beta in Hraw.
        pose proof (normalizeLineItem_fields raw) as Hf. destruct (nullish raw).
        -- congruence.
        -- destruct Hf as (n & im & Hn & Ha & Hq & Hu & Him & Hlen).
           rewrite Hn in Hraw. injection Hraw as <-.
           split; [exact Ha|]. split; [exact Hq|]. split; [exact Hu|].
           exists im. split; assumption.
Qed.

(** *** The tax total *)

Lemma nearestDouble_safe (x : Z) :
  Z.abs x <= MAX_SAFE_INTEGER -> nearestDouble x = Some x.
Proof.
  unfold MAX_SAFE_INTEGER, nearestDouble. intros H. cbv zeta.
  destruct (Z.ltb_spec (Z.abs x) (2 ^ 53)) as [_ | Hge]; [reflexivity | lia].
Qed.

(** Beyond the safe integers a sum is rounded, a tie to the even
    significand, and becomes an infinity from [2 ^ 1024 - 2 ^ 970] on. *)
Lemma nearestDouble_rounds :
  nearestDouble (2 ^ 53 + 1) = Some (2 ^ 53)
  /\ nearestDouble (2 ^ 53 + 3) = Some (2 ^ 53 + 4)
  /\ nearestDouble (- (2 ^ 54 + 6)) = Some (- (2 ^ 54 + 8))
  /\ nearestDouble (2 ^ 1024 - 2 ^ 970 - 1) = Some (2 ^ 1024 - 2 ^ 971)
  /\ nearestDouble (2 ^ 1024 - 2 ^ 970) = None.
Proof. repeat split; vm_compute; reflexivity. Qed.

Lemma addTax_plain (a : Z) (entry : JsVal) :
  plainTaxEntry entry = true ->
  Z.abs (a + taxAmountOf entry) <= MAX_SAFE_INTEGER ->
  addTax (Some a) entry = Ok (Some (a + taxAmountOf entry)).
Proof.
  unfold plainTaxEntry, addTax, taxAmountOf. rewrite getE_nullish. intros H.
  apply andb_true_iff in H. destruct H as [Hn H]. apply negb_true_iff in Hn. rewrite Hn.
  cbn [bindE]. unfold orV.
  destruct (prop entry (js "amount")) as [| |b|z|t|l|f]; try discriminate H;
    cbn [truthy addValue addNumber]; intros Hsafe;
    try (rewrite (nearestDouble_safe _ Hsafe); reflexivity).
  destruct (Z.eqb_spec z 0) as [-> | _]; cbn [negb addValue addNumber];
    rewrite (nearestDouble_safe _ Hsafe); reflexivity.
Qed.

Lemma reduceTax_plain (entries : list JsVal) :
  List.forallb plainTaxEntry entries = true ->
  forall a,
    Z.abs a + sumZ (map (fun entry => Z.abs (taxAmountOf entry)) entries)
    <= MAX_SAFE_INTEGER ->
    reduceTax (Some a) entries = Ok (Some (a + sumZ (map taxAmountOf entries))).
Proof.
  induction entries as [|entry rest IH]; cbn [List.forallb reduceTax map sumZ fold_right].
  - intros _ a _. rewrite Z.add_0_r. reflexivity.
  - intros H a Hsafe. apply andb_true_iff in H. destruct H as [He Hr].
    assert (Hrest : 0 <= sumZ (map (fun entry => Z.abs (taxAmountOf entry)) rest)).
    { clear. induction rest as [|x rest IH]; cbn [map sumZ fold_right]; [lia|].
      unfold sumZ in IH. lia. }
    unfold sumZ in Hrest, Hsafe.
    rewrite (addTax_plain a entry He) by lia. cbn [bindE].
    rewrite (IH Hr) by (unfold sumZ; lia).
    unfold sumZ. do 2 f_equal. lia.
Qed.

Lemma addValue_converts (acc : option Z) (v : JsVal) :
  if converts v then exists acc', addValue acc v = Ok acc'
  else addValue acc v = Throw typeError.
Proof.
  destruct (converts v) eqn:Hc.
  - destruct v; cbn [addValue]; try (eexists; reflexivity);
      destruct (converts_true _ Hc) as (s & ->); eexists; reflexivity.
  - pose proof (converts_false _ Hc) as Ht.
    destruct v; try discriminate Hc; cbn [addValue]; rewrite Ht; reflexivity.
Qed.

Lemma orV_converts (v : JsVal) : converts (orV v (VNum 0)) = converts v.
Proof. unfold orV. destruct v as [| |[|]|z|t|l|f]; try reflexivity;
  cbn [truthy]; match goal with |- context [if ?c then _ else _] => destruct c end;
  reflexivity.
Qed.

Lemma addTax_addable (acc : option Z) (entry : JsVal) :
  if addableTaxEntry entry then exists acc', addTax acc entry = Ok acc'
  else addTax acc entry = Throw typeError.
Proof.
  unfold addableTaxEntry, addTax. rewrite getE_nullish.
  destruct (nullish entry); cbn [negb andb bindE]; [reflexivity|].
  rewrite <- orV_converts. apply addValue_converts.
Qed.

Lemma addTax_none (entry : JsVal) (acc' : option Z) :
  addTax None entry = Ok acc' -> acc' = None.
Proof.
  unfold addTax. destruct (getE entry (js "amount")) as [amount | e]; [|discriminate].
  cbn [bindE]. destruct (orV amount (VNum 0)); cbn [addValue addNumber];
    try (intros [= <-]; reflexivity);
    (destruct (toStr _); [intros [= <-]; reflexivity | discriminate]).
Qed.

Lemma addTax_text (acc acc' : option Z) (entry : JsVal) :
  textTaxEntry entry = true -> addTax acc entry = Ok acc' -> acc' = None.
Proof.
  unfold textTaxEntry, addTax. rewrite getE_nullish.
  destruct (nullish entry); [discriminate|]. cbn [bindE].
  destruct (prop entry (js "amount")) as [| |b|z|[|c t]|l|f]; try discriminate.
  intros _ [= <-]. reflexivity.
Qed.

Lemma reduceTax_addable (entries : list JsVal) :
  forall acc,
    if List.forallb addableTaxEntry entries
    then exists total, reduceTax acc entries = Ok total
    else reduceTax acc entries = Throw typeError.
Proof.
  induction entries as [|entry rest IH]; intros acc; cbn [List.forallb reduceTax].
  - exists acc. reflexivity.
  - pose proof (addTax_addable acc entry) as Hstep.
    destruct (addableTaxEntry entry); cbn [andb].
    + destruct Hstep as (acc' & ->). cbn [bindE]. apply IH.
    + rewrite Hstep. reflexivity.
Qed.

Lemma reduceTax_text (entries : list JsVal) :
  (forall total, reduceTax None entries = Ok total -> total = None)
  /\ (List.existsb textTaxEntry entries = true ->
      forall a total, reduceTax (Some a) entries = Ok total -> total = None).
Proof.
  induction entries as [|entry rest [IH1 IH2]]; cbn [List.existsb reduceTax].
  - split; [intros total [= <-]; reflexivity | discriminate].
  - split.
    + intros total. destruct (addTax None entry) as [acc' | e] eqn:E; [|discriminate].
      cbn [bindE]. rewrite (addTax_none _ _ E). apply IH1.
    + intros Hex a total.
      destruct (addTax (Some a) entry) as [acc' | e] eqn:E; [|discriminate].
      cbn [bindE]. destruct (textTaxEntry entry) eqn:Ht.
      * rewrite (addTax_text _ _ _ Ht E). apply IH1.
      * cbn [orb] in Hex. destruct acc' as [a'|]; [apply IH2; exact Hex | apply IH1].
Qed.

(** An amount that cannot be converted makes the sum throw, and a total
    beyond the safe integers is rounded as a double is. *)
Lemma sumTaxAmounts_examples :
  sumTaxAmounts
    (obj [ (js "total_tax_amounts",
            VArr [ obj [ (js "amount", obj [ (js "toString", VNum 1) ]) ];
                   obj [ (js "amount", VStr (js "x")) ] ]) ])
  = Throw typeError
  /\ sumTaxAmounts
       (obj [ (js "total_tax_amounts",
               VArr [ obj [ (js "amount", VNum (2 ^ 53)) ];
                      obj [ (js "amount", VNum 1) ] ]) ])
     = Ok (Some (2 ^ 53))
  /\ sumTaxAmounts
       (obj [ (js "total_tax_amounts",
               VArr [ obj [ (js "amount", VNum (2 ^ 1023)) ];
                      obj [ (js "amount", VNum (2 ^ 1023)) ] ]) ])
     = Ok None.
Proof. repeat split; vm_compute; reflexivity. Qed.

(** X24.  [sumTaxAmounts] returns [null] when the invoice or its array
    [total_tax_amounts] is missing.  On an array it throws, a [TypeError],
    exactly when an entry is [undefined] or [null] or has an amount that
    does not convert to a string (an object with a [toString] property of
    its own, or an array holding one); otherwise it returns.  When every
    entry has a numeric or missing [amount] and the magnitudes of the
    amounts add up to at most [Number.MAX_SAFE_INTEGER], it returns the sum
    of the amounts, a missing amount counting as 0.  When it returns and
    one amount is a non-empty string, the total is a string and the result
    is [null]. *)
Theorem sumTaxAmounts_total (invoice : JsVal) :
  (truthy invoice = false -> sumTaxAmounts invoice = Ok None)
  /\ (arrayItems (prop invoice (js "total_tax_amounts")) = None ->
      sumTaxAmounts invoice = Ok None)
  /\ forall entries,
       truthy invoice = true ->
       prop invoice (js "total_tax_amounts") = VArr entries ->
       (sumTaxAmounts invoice = Throw typeError
        <-> List.forallb addableTaxEntry entries = false)
       /\ ((exists total, sumTaxAmounts invoice = Ok total)
           <-> List.forallb addableTaxEntry entries = true)
       /\ (List.forallb plainTaxEntry entries = true ->
           sumZ (map (fun entry => Z.abs (taxAmountOf entry)) entries)
           <= MAX_SAFE_INTEGER ->
           sumTaxAmounts invoice = Ok (Some (sumZ (map taxAmountOf entries))))
       /\ (List.existsb textTaxEntry entries = true ->
           forall total, sumTaxAmounts invoice = Ok total -> total = None).
Proof.
  unfold sumTaxAmounts. split; [|split].
  - intros ->. reflexivity.
  - intros ->. destruct (negb _); reflexivity.
  - intros entries Hi He. rewrite Hi, He. cbn [negb arrayItems].
    pose proof (reduceTax_addable entries (Some 0)) as Hadd.
    split; [|split; [|split]].
    + destruct (List.forallb addableTaxEntry entries).
      * destruct Hadd as (total & ->). split; discriminate.
      * rewrite Hadd. split; reflexivity.
    + destruct (List.forallb addableTaxEntry entries).
      * destruct Hadd as (total & ->). split; [reflexivity | intros _; eexists; reflexivity].
      * rewrite Hadd. split; [intros (total & H); discriminate H | discriminate].
    + intros Hp Hsafe. rewrite (reduceTax_plain entries Hp 0) by (cbn [Z.abs]; lia).
      reflexivity.
    + intros Ht total. apply (proj2 (reduceTax_text entries) Ht).
Qed.

End NormalizerFacts.
